(** * Expense Splitter Pro: a shallow embedding of [expense_splitter_pro.py]

    The script is a Streamlit page with three tabs working on one table
    [expenses_df] with the columns [Participant] and [Amount]:

    - tab 1 appends a participant,
    - tab 2 adds an expense to the [Amount] column (equal or percentage
      split),
    - tab 3 computes balances and the greedy settlement suggestions.

    The numbers of the script are Python / NumPy floats.  The program is
    written once over an interface [Arith] of the float operations it uses
    and is read at two instances:

    - [F64]: IEEE 754 binary64 with round-to-nearest-even, through the
      executable specification [SpecFloat] of the Standard Library.  This is
      the arithmetic the script runs on.
    - [Q]: exact rationals, the arithmetic without rounding.

    Statements that only depend on the control flow are proved for every
    instance; statements that need the laws of arithmetic are proved for
    the exact instance, and evaluated at [F64] on concrete tables; where
    binary64 departs from the exact law, a table on which it does is
    given.  What the loop of tab 3 does - that it ends, how many
    suggestions it makes, that no payment is too large - is proved at
    both instances, at [F64] for every table whose amounts are doubles,
    NaN and the infinities included. *)

From Stdlib Require Import String ZArith QArith Qabs Lia Lqa Bool List Sorted.
From Stdlib Require Import Floats.SpecFloat DecimalString.
From Stdlib Require Floats.PrimFloat Floats.FloatOps Floats.FloatAxioms.
Import ListNotations.
Close Scope Q_scope.
Open Scope list_scope.

Set Implicit Arguments.

(** ** The arithmetic interface *)

Class Arith (F : Type) : Type := {
  of_int : Z -> F;              (* an int operand or literal, e.g. [0], [100], [len(df)] *)
  lit_0_01 : F;                 (* the literal [0.01] *)
  lit_1e_6 : F;                 (* the literal [1e-6] *)
  f_add : F -> F -> F;
  f_sub : F -> F -> F;
  f_mul : F -> F -> F;
  f_div : F -> F -> F;
  f_neg : F -> F;
  f_abs : F -> F;
  f_ltb : F -> F -> bool;       (* [x < y] *)
  f_leb : F -> F -> bool;       (* [x <= y] *)
  f_isnan : F -> bool
}.

(** The two laws of the order that the control flow relies on: an amount
    that is positive does not pass the test [amount <= 0] (tab 2), and no
    balance is both below and above zero (tab 3). *)
Class ArithOrder (F : Type) {A : Arith F} : Prop := {
  f_ltb_not_leb : forall x y : F, f_ltb x y = true -> f_leb y x = false;
  f_ltb_asym : forall x y : F, f_ltb x y = true -> f_ltb y x = false
}.

Arguments ArithOrder F {A}.

(** ** Binary64 *)

Module F64.

Definition prec : Z := 53.
Definition emax : Z := 1024.

Definition t : Type := spec_float.

Definition add : t -> t -> t := SFadd prec emax.
Definition sub : t -> t -> t := SFsub prec emax.
Definition mul : t -> t -> t := SFmul prec emax.
Definition div : t -> t -> t := SFdiv prec emax.
Definition neg : t -> t := SFopp.
Definition abs : t -> t := SFabs.
Definition ltb : t -> t -> bool := SFltb.
Definition leb : t -> t -> bool := SFleb.
Definition eqb : t -> t -> bool := SFeqb.

Definition isnan (x : t) : bool :=
  match x with S754_nan => true | _ => false end.

Definition is_finite (x : t) : bool :=
  match x with S754_zero _ | S754_finite _ _ _ => true | _ => false end.

(** Conversion of an integer, correctly rounded. *)
Definition of_Z (z : Z) : t := binary_normalize prec emax z 0 false.

(** The decimal literal [p / q] for integers below [2^53]: both are
    exact in binary64, so the correctly rounded quotient is the double
    nearest to the decimal, which is what a Python literal denotes. *)
Definition dec (p q : Z) : t := div (of_Z p) (of_Z q).

(** The exact rational value of a finite double ([0] otherwise). *)
Definition to_Q (x : t) : Q :=
  match x with
  | S754_finite s m e =>
      let v := match e with
               | Zneg p => (Zpos m # (2 ^ p))%Q
               | _ => inject_Z (Zpos m * 2 ^ e)
               end in
      if s then Qopp v else v
  | _ => 0%Q
  end.

End F64.

(** ** The tables *)

Section Program.

Context {F : Type} {A : Arith F}.

Record row : Type := { Participant : string; Amount : F }.

Definition DataFrame : Type := list row.

(** *** Tab 1: add a participant *)

Inductive tab1_message : Type :=
| Tab1_silent            (* the [if] is not entered: nothing is shown *)
| Tab1_added             (* [st.success("Added ...")] *)
| Tab1_already_exists.   (* [st.warning("Participant already exists!")] *)

(** Truth value of a Python string. *)
Definition truthy (s : string) : bool :=
  match s with EmptyString => false | _ => true end.

(** [x in expenses_df["Participant"].values] *)
Definition name_in (x : string) (df : DataFrame) : bool :=
  existsb (String.eqb x) (map Participant df).

Definition tab1_add (add_btn : bool) (new_participant : string)
    (expenses_df : DataFrame) : DataFrame * tab1_message :=
  if add_btn && truthy new_participant then
    if negb (name_in new_participant expenses_df) then
      let new_row := {| Participant := new_participant; Amount := of_int 0 |} in
      (expenses_df ++ [new_row], Tab1_added)
    else (expenses_df, Tab1_already_exists)
  else (expenses_df, Tab1_silent).

(** *** Tab 2: add an expense *)

Inductive split_type : Type := Equal | Unequal.

Inductive tab2_message : Type :=
| Tab2_add_participants_first  (* [st.warning("Please add participants first.")] *)
| Tab2_enter_valid_amount      (* [st.warning("Enter a valid amount.")] *)
| Tab2_percentages_must_sum    (* [st.error("Percentages must sum to 100!")], [st.stop()] *)
| Tab2_paid.                   (* [st.success("... paid ...")] *)

(** Python's builtin [sum]: left to right from the int [0]. *)
Definition py_sum (xs : list F) : F := fold_left f_add xs (of_int 0).

(** The list [shares] read from the widgets [share_0], [share_1], ... *)
Definition read_shares (share_input : nat -> F) (expenses_df : DataFrame) : list F :=
  map share_input (seq 0 (length expenses_df)).

Definition set_Amount (r : row) (a : F) : row :=
  {| Participant := Participant r; Amount := a |}.

(** [expenses_df["Amount"] += x] for a scalar [x]. *)
Definition add_scalar (x : F) (df : DataFrame) : DataFrame :=
  map (fun r => set_Amount r (f_add (Amount r) x)) df.

(** [expenses_df["Amount"] += xs] for a list [xs] of the same length. *)
Fixpoint add_list (xs : list F) (df : DataFrame) : DataFrame :=
  match df, xs with
  | r :: df', x :: xs' => set_Amount r (f_add (Amount r) x) :: add_list xs' df'
  | _, _ => df
  end.

(** The test of line 96 on the shares read for the table [df]. *)
Definition bad_percentages (share_input : nat -> F) (df : DataFrame) : bool :=
  f_ltb lit_0_01 (f_abs (f_sub (py_sum (read_shares share_input df)) (of_int 100))).

(** Shares typed into the widgets, as a function of the widget number. *)
Definition shares_of_list (l : list F) : nat -> F :=
  fun k => nth k l (of_int 0).

(** The run of tab 2 in which the button "Add Expense" is pressed.  The
    payer and the description only appear in the text of the success
    message; [shares] is read from the widgets of the percentage split. *)
Definition tab2_add_expense (amount : F) (split : split_type)
    (share_input : nat -> F) (expenses_df : DataFrame)
    : DataFrame * tab2_message :=
  match expenses_df with
  | [] => (expenses_df, Tab2_add_participants_first)
  | _ :: _ =>
      let shares := read_shares share_input expenses_df in
      if f_leb amount (of_int 0) then (expenses_df, Tab2_enter_valid_amount)
      else
        match split with
        | Equal =>
            let share_per_person :=
              f_div amount (of_int (Z.of_nat (length expenses_df))) in
            (add_scalar share_per_person expenses_df, Tab2_paid)
        | Unequal =>
            if bad_percentages share_input expenses_df
            then (expenses_df, Tab2_percentages_must_sum)
            else
              (add_list
                 (map (fun s => f_mul amount (f_div s (of_int 100))) shares)
                 expenses_df,
               Tab2_paid)
        end
  end.

(** *** Tab 3: balances *)

(** A row of the frame [balances]: the index label, the two columns of
    [expenses_df] ([name] for [Participant], [paid] for [Amount]) and the
    column [Balance]. *)
Record brow : Type := {
  label : nat;
  name : string;
  paid : F;
  Balance : F
}.

Definition set_Balance (r : brow) (b : F) : brow :=
  {| label := label r; name := name r; paid := paid r; Balance := b |}.

(** [Series.sum()]: NaN is skipped and the values are added from left to
    right, which is the order of NumPy for fewer than 8 values (longer
    columns are added in blocks; the exact sum is the same). *)
Definition series_sum (xs : list F) : F :=
  fold_left (fun acc x => if f_isnan x then acc else f_add acc x) xs (of_int 0).

Definition total_spent (df : DataFrame) : F := series_sum (map Amount df).

Definition per_person (df : DataFrame) : F :=
  f_div (total_spent df) (of_int (Z.of_nat (length df))).

(** The rows [df] with the labels [start], [start + 1], ... and the
    column [Balance = Amount - m].  The index of [expenses_df] is the
    range of the positions, and [balances] is a copy of it. *)
Definition balance_rows (m : F) (start : nat) (df : DataFrame) : list brow :=
  map (fun '(k, r) =>
         {| label := k; name := Participant r; paid := Amount r;
            Balance := f_sub (Amount r) m |})
      (combine (seq start (length df)) df).

Definition balances (df : DataFrame) : list brow :=
  balance_rows (per_person df) 0 df.

Definition is_debtor (r : brow) : bool := f_ltb (Balance r) (of_int 0).
Definition is_creditor (r : brow) : bool := f_ltb (of_int 0) (Balance r).

Definition debtors_of (bs : list brow) : list brow := filter is_debtor bs.
Definition creditors_of (bs : list brow) : list brow := filter is_creditor bs.

(** *** Tab 3: settlement suggestions *)

(** One suggestion: the text shows the two names and [pay] with two
    decimals; the labels ([debtor.name] and [creditor.name] in the script)
    identify the two rows. *)
Record transfer : Type := {
  t_from : string;
  t_to : string;
  t_pay : F;
  t_from_label : nat;
  t_to_label : nat
}.

(** Python's [min(a, b)]: [b] if [b < a], else [a]. *)
Definition py_min (a b : F) : F := if f_ltb b a then b else a.

(** [frame.at[lbl, "Balance"] = f(frame.at[lbl, "Balance"])] *)
Definition at_update (lbl : nat) (f : F -> F) (frame : list brow) : list brow :=
  map (fun r => if Nat.eqb (label r) lbl then set_Balance r (f (Balance r)) else r)
      frame.

(** [frame.at[lbl, "Balance"]]; [dflt] stands for the [KeyError], which
    cannot happen for a label taken from the frame. *)
Definition at_get (lbl : nat) (frame : list brow) (dflt : F) : F :=
  match find (fun r => Nat.eqb (label r) lbl) frame with
  | Some r => Balance r
  | None => dflt
  end.

Record loop_state : Type := {
  st_i : nat;
  st_j : nat;
  st_debtors : list brow;
  st_creditors : list brow;
  st_suggestions : list transfer
}.

(** One pass through the body of the [while] loop. *)
Definition loop_body (debtor creditor : brow) (s : loop_state) : loop_state :=
  let pay := py_min (f_neg (Balance debtor)) (Balance creditor) in
  let suggestion :=
    {| t_from := name debtor; t_to := name creditor; t_pay := pay;
       t_from_label := label debtor; t_to_label := label creditor |} in
  let debtors' := at_update (label debtor) (fun b => f_add b pay) (st_debtors s) in
  let creditors' := at_update (label creditor) (fun b => f_sub b pay) (st_creditors s) in
  let i' :=
    if f_ltb (f_abs (at_get (label debtor) debtors' (Balance debtor))) lit_1e_6
    then S (st_i s) else st_i s in
  let j' :=
    if f_ltb (f_abs (at_get (label creditor) creditors' (Balance creditor))) lit_1e_6
    then S (st_j s) else st_j s in
  {| st_i := i'; st_j := j'; st_debtors := debtors'; st_creditors := creditors';
     st_suggestions := st_suggestions s ++ [suggestion] |}.

(** The [while] loop; [None] when [fuel] passes do not reach the exit. *)
Fixpoint settle_loop (fuel : nat) (s : loop_state) : option loop_state :=
  match nth_error (st_debtors s) (st_i s), nth_error (st_creditors s) (st_j s) with
  | Some debtor, Some creditor =>
      match fuel with
      | O => None
      | S fuel' => settle_loop fuel' (loop_body debtor creditor s)
      end
  | _, _ => Some s
  end.

Definition initial_state (bs : list brow) : loop_state :=
  {| st_i := 0; st_j := 0;
     st_debtors := debtors_of bs; st_creditors := creditors_of bs;
     st_suggestions := [] |}.

(** The settlement part of tab 3 on a non-empty table. *)
Definition settle (fuel : nat) (df : DataFrame) : option loop_state :=
  settle_loop fuel (initial_state (balances df)).

(** *** Carrying out the suggestions

    The page only prints the suggestions.  Carrying one out on the frame
    of all balances adds [pay] to the balance of the debtor and takes it
    from the balance of the creditor, as lines 142 and 143 do on the two
    frames of the loop. *)
Definition apply_transfer (bs : list brow) (t : transfer) : list brow :=
  at_update (t_to_label t) (fun b => f_sub b (t_pay t))
    (at_update (t_from_label t) (fun b => f_add b (t_pay t)) bs).

Definition apply_transfers (ts : list transfer) (bs : list brow) : list brow :=
  fold_left apply_transfer ts bs.

(** The rows of [bs] that were debtors, creditors, in the frame [bs0]. *)
Definition has_label (ls : list nat) (r : brow) : bool :=
  existsb (Nat.eqb (label r)) ls.

Definition debtor_labels (bs0 : list brow) : list nat := map label (debtors_of bs0).
Definition creditor_labels (bs0 : list brow) : list nat := map label (creditors_of bs0).

Definition was_debtor (bs0 : list brow) (r : brow) : bool :=
  has_label (debtor_labels bs0) r.
Definition was_creditor (bs0 : list brow) (r : brow) : bool :=
  has_label (creditor_labels bs0) r.
Definition was_settled (bs0 : list brow) (r : brow) : bool :=
  negb (was_debtor bs0 r) && negb (was_creditor bs0 r).

(** The two frames of the loop are the balances with the suggestions
    made so far carried out. *)
Definition frames_applied (bs0 : list brow) (s : loop_state) : Prop :=
  filter (was_debtor bs0) (apply_transfers (st_suggestions s) bs0) = st_debtors s /\
  filter (was_creditor bs0) (apply_transfers (st_suggestions s) bs0) = st_creditors s /\
  filter (was_settled bs0) (apply_transfers (st_suggestions s) bs0)
  = filter (was_settled bs0) bs0.

(** The number of passes that are left at most. *)
Definition passes_left (s : loop_state) : nat :=
  (length (st_debtors s) - st_i s) + (length (st_creditors s) - st_j s).

End Program.

Arguments row F : clear implicits.
Arguments DataFrame F : clear implicits.
Arguments brow F : clear implicits.
Arguments transfer F : clear implicits.
Arguments loop_state F : clear implicits.

(** ** The two instances *)

#[export] Instance F64_Arith : Arith F64.t := {|
  of_int := F64.of_Z;
  lit_0_01 := F64.dec 1 100;
  lit_1e_6 := F64.dec 1 1000000;
  f_add := F64.add;
  f_sub := F64.sub;
  f_mul := F64.mul;
  f_div := F64.div;
  f_neg := F64.neg;
  f_abs := F64.abs;
  f_ltb := F64.ltb;
  f_leb := F64.leb;
  f_isnan := F64.isnan
|}.

Definition Q_ltb (x y : Q) : bool := negb (Qle_bool y x).

#[export] Instance Q_Arith : Arith Q := {|
  of_int := inject_Z;
  lit_0_01 := (1 # 100)%Q;
  lit_1e_6 := (1 # 1000000)%Q;
  f_add := Qplus;
  f_sub := Qminus;
  f_mul := Qmult;
  f_div := Qdiv;
  f_neg := Qopp;
  f_abs := Qabs;
  f_ltb := Q_ltb;
  f_leb := Qle_bool;
  f_isnan := fun _ => false
|}.

(** A row with the amount [p / q] as a binary64 literal, and the exact
    sum of a list of rationals. *)
Definition entry (n : string) (p q : Z) : row F64.t :=
  {| Participant := n; Amount := F64.dec p q |}.

Definition Qsum (l : list Q) : Q := fold_right Qplus 0%Q l.

(** Two rows of balances that agree but for the representation of the
    rational in [Balance]. *)
Definition same_balance (r r' : brow Q) : Prop :=
  label r = label r' /\ name r = name r' /\ (Balance r == Balance r')%Q.

(** The tolerance [1e-6] of lines 144 and 145. *)
Definition eps : Q := (1 # 1000000)%Q.

(** The largest balance that can be left with [D] debtors and [C]
    creditors: [max D C] times [eps]. *)
Definition residual_bound (D C : nat) : Q :=
  (inject_Z (Z.of_nat (Nat.max D C)) * eps)%Q.

Section LoopInvariant.

Open Scope Q_scope.

(** What holds of the state at the head of the loop, for frames of [D]
    debtors and [C] creditors whose balances sum to [total]. *)
Record loop_inv (D C : nat) (total : Q) (s : loop_state Q) : Prop := {
  inv_nodup_d : NoDup (map label (st_debtors s));
  inv_nodup_c : NoDup (map label (st_creditors s));
  inv_len_d : length (st_debtors s) = D;
  inv_len_c : length (st_creditors s) = C;
  inv_i : (st_i s <= D)%nat;
  inv_j : (st_j s <= C)%nat;
  inv_debtors :
    forall k r, nth_error (st_debtors s) k = Some r ->
      ((k < st_i s)%nat -> - eps < Balance r /\ Balance r <= 0) /\
      ((st_i s <= k)%nat -> Balance r < 0);
  inv_creditors :
    forall k r, nth_error (st_creditors s) k = Some r ->
      ((k < st_j s)%nat -> 0 <= Balance r /\ Balance r < eps) /\
      ((st_j s <= k)%nat -> 0 < Balance r);
  inv_pay : Forall (fun t => 0 < t_pay t) (st_suggestions s);
  inv_count :
    (length (st_suggestions s) <= st_i s + st_j s)%nat /\
    (length (st_suggestions s) <= D + C - 1)%nat;
  inv_total :
    Qsum (map Balance (st_debtors s)) + Qsum (map Balance (st_creditors s)) == total
}.

End LoopInvariant.

(** ** Doubles in normal form

    [SpecFloat] writes a finite double other than zero as a sign, a
    mantissa and an exponent; the doubles of the format are the triples
    that [bounded] accepts. *)

(** The number of binary digits of a mantissa. *)
Definition digits (m : positive) : Z := Zpos (digits2_pos m).

(** The value of the mantissa [m] with the exponent [e], counted in units
    of [2 ^ -1074], the smallest positive double. *)
Definition scaled (m : positive) (e : Z) : Z := (Zpos m * 2 ^ (e + 1074))%Z.

(** The largest finite double, in the same units. *)
Definition max_scaled : Z := ((2 ^ 53 - 1) * 2 ^ 2045)%Z.

(** A finite double in normal form: a zero, or a mantissa and exponent
    within the bounds of the format. *)
Definition finite_double (x : F64.t) : bool :=
  match x with
  | S754_zero _ => true
  | S754_finite _ m e => bounded F64.prec F64.emax m e
  | _ => false
  end.

(** A negative double, and a positive one: what a debtor owes and a
    creditor is owed. *)
Definition neg_double (x : F64.t) : bool :=
  match x with
  | S754_finite true m e => bounded F64.prec F64.emax m e
  | _ => false
  end.

Definition pos_double (x : F64.t) : bool :=
  match x with
  | S754_finite false m e => bounded F64.prec F64.emax m e
  | _ => false
  end.

(** What holds of the state at the head of the loop in binary64, for
    frames of [D] debtors and [C] creditors: the rows from the pointers
    on are doubles of the sign of their frame. *)
Record f64_inv (D C : nat) (s : loop_state F64.t) : Prop := {
  f64_nodup_d : NoDup (map (@label F64.t) (st_debtors s));
  f64_nodup_c : NoDup (map (@label F64.t) (st_creditors s));
  f64_len_d : length (st_debtors s) = D;
  f64_len_c : length (st_creditors s) = C;
  f64_i : (st_i s <= D)%nat;
  f64_j : (st_j s <= C)%nat;
  f64_debtors :
    forall k r, nth_error (st_debtors s) k = Some r -> (st_i s <= k)%nat ->
                neg_double (Balance r) = true;
  f64_creditors :
    forall k r, nth_error (st_creditors s) k = Some r -> (st_j s <= k)%nat ->
                pos_double (Balance r) = true;
  f64_pay : Forall (fun t => pos_double (t_pay t) = true) (st_suggestions s);
  f64_count :
    (length (st_suggestions s) <= st_i s + st_j s)%nat /\
    (length (st_suggestions s) <= D + C - 1)%nat
}.

(** ** Doubles of the format *)

(** The values of binary64: NaN, the two infinities, the two zeros and the
    finite numbers in normal form.  This is [valid_binary] of [SpecFloat];
    the triples it refuses are not the representation of any float. *)
Definition is_double (x : F64.t) : bool := valid_binary F64.prec F64.emax x.

(** A table whose amounts are doubles. *)
Definition doubles (df : DataFrame F64.t) : bool :=
  forallb (fun r => is_double (Amount r)) df.

(** What rounding makes of a magnitude [R], counted in units of
    [2 ^ -1074], with the sign [s]: a zero when [R] is zero, an infinity
    when [R] is above the largest double, and otherwise the double of that
    magnitude. *)
Definition round_result (s : bool) (R : Z) (x : F64.t) : Prop :=
  match x with
  | S754_zero s' => s' = s /\ R = 0%Z
  | S754_finite s' m' e' =>
      s' = s /\ bounded F64.prec F64.emax m' e' = true /\ scaled m' e' = R
  | S754_infinity s' => s' = s /\ (max_scaled < R)%Z
  | S754_nan => False
  end.

(** The unit in the last place of the doubles of the magnitude [v], in
    units of [2 ^ -1074]. *)
Definition last_place (v : Z) : Z := (2 ^ Z.max (Z.log2 v - 52) 0)%Z.

(** What a debtor can owe and a creditor can be owed on a table of
    doubles: a finite amount or, after an overflow, an infinite one. *)
Definition neg_or_inf (x : F64.t) : bool :=
  match x with
  | S754_infinity true => true
  | _ => neg_double x
  end.

Definition pos_or_inf (x : F64.t) : bool :=
  match x with
  | S754_infinity false => true
  | _ => pos_double x
  end.

(** What holds of the state at the head of the loop in binary64 on every
    table of doubles, for frames of [D] debtors and [C] creditors: the
    rows from the pointers on are negative in the frame of the debtors and
    positive in the frame of the creditors, and at most one of the two
    frames holds an infinity. *)
Record double_inv (D C : nat) (s : loop_state F64.t) : Prop := {
  dbl_nodup_d : NoDup (map (@label F64.t) (st_debtors s));
  dbl_nodup_c : NoDup (map (@label F64.t) (st_creditors s));
  dbl_len_d : length (st_debtors s) = D;
  dbl_len_c : length (st_creditors s) = C;
  dbl_i : (st_i s <= D)%nat;
  dbl_j : (st_j s <= C)%nat;
  dbl_debtors :
    forall k r, nth_error (st_debtors s) k = Some r -> (st_i s <= k)%nat ->
                neg_or_inf (Balance r) = true;
  dbl_creditors :
    forall k r, nth_error (st_creditors s) k = Some r -> (st_j s <= k)%nat ->
                pos_or_inf (Balance r) = true;
  dbl_one_side :
    (forall k r, nth_error (st_debtors s) k = Some r -> (st_i s <= k)%nat ->
                 neg_double (Balance r) = true) \/
    (forall k r, nth_error (st_creditors s) k = Some r -> (st_j s <= k)%nat ->
                 pos_double (Balance r) = true);
  dbl_pay : Forall (fun t => pos_double (t_pay t) = true) (st_suggestions s);
  dbl_count :
    (length (st_suggestions s) <= st_i s + st_j s)%nat /\
    (length (st_suggestions s) <= D + C - 1)%nat
}.

(** The states at the head of the loop in the run that starts in [s0]:
    [s0] itself, and the state after one more pass from a state of the
    run in which the condition of the [while] holds. *)
Inductive reaches {F : Type} {A : Arith F} (s0 : loop_state F) : loop_state F -> Prop :=
| reaches_start : reaches s0 s0
| reaches_pass (s : loop_state F) (d c : brow F) :
    reaches s0 s ->
    nth_error (st_debtors s) (st_i s) = Some d ->
    nth_error (st_creditors s) (st_j s) = Some c ->
    reaches s0 (loop_body d c s).

(** The magnitude of a double in units of [2 ^ -1074]; an infinity
    counts as one unit more than the largest double. *)
Definition magnitude (x : F64.t) : Z :=
  match x with
  | S754_finite _ m e => scaled m e
  | S754_infinity _ => (max_scaled + 1)%Z
  | _ => 0%Z
  end.

(** A double that is not below zero: a zero, a positive number, plus
    infinity, or NaN. *)
Definition not_negative (x : F64.t) : bool :=
  match x with
  | S754_zero _ | S754_nan | S754_infinity false => true
  | S754_finite false m e => bounded F64.prec F64.emax m e
  | _ => false
  end.

(** ** The floats of the machine

    The primitive floats of Rocq are the binary64 numbers of the
    processor, the numbers a Python float holds.  [Prim2SF] gives the
    triple of [SpecFloat] that stands for a float. *)
Definition table_of_floats (ledger : list (string * PrimFloat.float)) : DataFrame F64.t :=
  map (fun '(n, a) => {| Participant := n; Amount := FloatOps.Prim2SF a |}) ledger.

(** ** The rest of the page

    The lines that tab 3 shows for the balances and for the suggestions,
    the two functions that read and write [expenses.csv], the session
    state, the table editor of tab 1 with its button "Save Changes", and
    the order in which a run of the script goes through the three tabs. *)

Section Page.

Context {F : Type} {A : Arith F}.

(** *** Tab 3: what is shown *)

(** The line shown for one row of [balances] (lines 118 to 125); the
    number is the one that the line prints with two decimals. *)
Inductive balance_message : Type :=
| Should_receive (who : string) (balance : F)   (* [st.success], [balance > 0] *)
| Owes (who : string) (debt : F)                (* [st.error], [balance < 0]: shows [-balance] *)
| Is_settled (who : string).                    (* [st.info], the [else] *)

Definition balance_message_of (r : brow F) : balance_message :=
  if f_ltb (of_int 0) (Balance r) then Should_receive (name r) (Balance r)
  else if f_ltb (Balance r) (of_int 0) then Owes (name r) (f_neg (Balance r))
  else Is_settled (name r).

(** The participant that a line is about. *)
Definition message_name (m : balance_message) : string :=
  match m with
  | Should_receive who _ => who
  | Owes who _ => who
  | Is_settled who => who
  end.

(** Lines 147 to 151: the suggestions, or "All settled!" when the list is
    empty. *)
Inductive settlement_view : Type :=
| All_settled
| Suggestions (ts : list (transfer F)).

Definition view_of (suggestions : list (transfer F)) : settlement_view :=
  match suggestions with
  | [] => All_settled
  | _ :: _ => Suggestions suggestions
  end.

Inductive tab3_output : Type :=
| Tab3_no_data          (* [st.warning("No data available.")] *)
| Tab3_summary (total fair_share : F) (messages : list balance_message)
               (view : settlement_view).

(** Tab 3 on the table [expenses_df]; [None] when [fuel] passes of the
    loop do not reach its exit. *)
Definition tab3 (fuel : nat) (expenses_df : DataFrame F) : option tab3_output :=
  match expenses_df with
  | [] => Some Tab3_no_data
  | _ :: _ =>
      match settle fuel expenses_df with
      | Some s =>
          Some (Tab3_summary (total_spent expenses_df) (per_person expenses_df)
                  (map balance_message_of (balances expenses_df))
                  (view_of (st_suggestions s)))
      | None => None
      end
  end.

(** *** Tab 2, whether the button is pressed or not

    Without participants the form is not shown at all (line 72); with
    participants, nothing happens until "Add Expense" is pressed. *)
Definition tab2 (expense_btn : bool) (amount : F) (split : split_type)
    (share_input : nat -> F) (expenses_df : DataFrame F)
    : DataFrame F * option tab2_message :=
  match expenses_df with
  | [] => (expenses_df, Some Tab2_add_participants_first)
  | _ :: _ =>
      if expense_btn then
        (fst (tab2_add_expense amount split share_input expenses_df),
         Some (snd (tab2_add_expense amount split share_input expenses_df)))
      else (expenses_df, None)
  end.

(** *** The file and the session

    [csv] is the content of [expenses.csv]; [to_csv] and [read_csv] are
    the two functions of pandas, on tables with the columns [Participant]
    and [Amount].  Nothing is assumed of them. *)
Section Session.

Variable csv : Type.
Variable to_csv : DataFrame F -> csv.
Variable read_csv : csv -> DataFrame F.

(** [file] is [None] when [expenses.csv] does not exist. *)
Definition load_expenses (file : option csv) : DataFrame F :=
  match file with
  | Some content => read_csv content
  | None => []
  end.

Definition save_expenses (df : DataFrame F) : option csv := Some (to_csv df).

(** The widgets of one run of the script.  The payer and the description
    of tab 2 only appear in the text of the success message.  The editor
    of line 62 returns a copy of the table it is given with the edits of
    the user: [w_data_editor] is that table as a function of the one
    given. *)
Record widgets : Type := {
  w_new_participant : string;                 (* line 48 *)
  w_add_btn : bool;                           (* line 49 *)
  w_data_editor : DataFrame F -> DataFrame F; (* line 62 *)
  w_save_btn : bool;                          (* line 63 *)
  w_amount : F;                               (* line 76 *)
  w_split_type : split_type;                  (* line 78 *)
  w_share_input : nat -> F;                   (* line 85 *)
  w_expense_btn : bool                        (* line 88 *)
}.

(** What a run leaves behind and shows: the table of the session state,
    the file, the messages of tab 1 and tab 2, and the table that tab 3 is
    drawn from ([None] when [st.stop()] ends the run in tab 2). *)
Record run_result : Type := {
  r_session : option (DataFrame F);
  r_file : option csv;
  r_tab1 : tab1_message;
  r_saved_changes : bool;
  r_tab2 : option tab2_message;
  r_tab3_table : option (DataFrame F)
}.

(** One run of the script, lines 37 to 154. *)
Definition run (w : widgets) (session : option (DataFrame F)) (file : option csv)
    : run_result :=
  (* lines 37 to 40 *)
  let expenses_df0 :=
    match session with
    | Some df => df
    | None => load_expenses file
    end in
  (* tab 1, lines 51 to 59 *)
  let expenses_df1 := fst (tab1_add (w_add_btn w) (w_new_participant w) expenses_df0) in
  let msg1 := snd (tab1_add (w_add_btn w) (w_new_participant w) expenses_df0) in
  let file1 :=
    match msg1 with
    | Tab1_added => save_expenses expenses_df1
    | _ => file
    end in
  (* tab 1, lines 62 to 66 *)
  let edited_df := w_data_editor w expenses_df1 in
  let file2 := if w_save_btn w then save_expenses edited_df else file1 in
  let session2 := if w_save_btn w then edited_df else expenses_df1 in
  (* tab 2 *)
  let expenses_df2 :=
    fst (tab2 (w_expense_btn w) (w_amount w) (w_split_type w) (w_share_input w)
           expenses_df1) in
  let msg2 :=
    snd (tab2 (w_expense_btn w) (w_amount w) (w_split_type w) (w_share_input w)
           expenses_df1) in
  match msg2 with
  | Some Tab2_paid =>
      (* lines 101 and 102 *)
      {| r_session := Some expenses_df2; r_file := save_expenses expenses_df2;
         r_tab1 := msg1; r_saved_changes := w_save_btn w; r_tab2 := msg2;
         r_tab3_table := Some expenses_df2 |}
  | Some Tab2_percentages_must_sum =>
      (* line 98: [st.stop()] *)
      {| r_session := Some session2; r_file := file2;
         r_tab1 := msg1; r_saved_changes := w_save_btn w; r_tab2 := msg2;
         r_tab3_table := None |}
  | _ =>
      {| r_session := Some session2; r_file := file2;
         r_tab1 := msg1; r_saved_changes := w_save_btn w; r_tab2 := msg2;
         r_tab3_table := Some expenses_df2 |}
  end.



End Session.

End Page.

Arguments balance_message F : clear implicits.
Arguments settlement_view F : clear implicits.
Arguments tab3_output F : clear implicits.
Arguments widgets F : clear implicits.
Arguments run_result F csv : clear implicits.

(** Two rows that agree but for the representation of the rational in
    [Amount]. *)
Definition same_row (r r' : row Q) : Prop :=
  Participant r = Participant r' /\ (Amount r == Amount r')%Q.

(** What the run of tab 2 adds to the rows of a table of [n] rows, row
    by row; the empty list when the run adds nothing.  The tests are the
    ones of [tab2_add_expense], which look at the table only for its
    number of rows. *)
Definition expense_increments {F : Type} {A : Arith F} (amount : F)
    (split : split_type) (share_input : nat -> F) (n : nat) : list F :=
  match n with
  | O => []
  | S _ =>
      if f_leb amount (of_int 0) then []
      else
        match split with
        | Equal => repeat (f_div amount (of_int (Z.of_nat n))) n
        | Unequal =>
            let shares := map share_input (seq 0 n) in
            if f_ltb lit_0_01 (f_abs (f_sub (py_sum shares) (of_int 100)))
            then []
            else map (fun s => f_mul amount (f_div s (of_int 100))) shares
        end
  end.

(** ** Numbers with two decimals

    The page prints every number with the format [.2f] (lines 103, 121,
    123, 130 and 141): Python shows the decimal with two places that is
    nearest to the exact value of the double, the one with the even last
    digit when two are as near. *)

(** [num / den] rounded to the nearest integer, halves to even
    ([0 <= num], [0 < den]). *)
Definition round_half_even (num den : Z) : Z :=
  let q := (num / den)%Z in
  let r := (num mod den)%Z in
  match (2 * r ?= den)%Z with
  | Lt => q
  | Gt => (q + 1)%Z
  | Eq => if Z.even q then q else (q + 1)%Z
  end.

(** The hundredths shown for mantissa [m] and exponent [e]. *)
Definition cents (m : positive) (e : Z) : Z :=
  match e with
  | Zneg p => round_half_even (Zpos m * 100) (Zpos (2 ^ p))
  | _ => (Zpos m * 2 ^ e * 100)%Z
  end.

Definition decimal (n : Z) : string := NilZero.string_of_uint (N.to_uint (Z.to_N n)).

(** [c] hundredths as text: the whole part, a point, two digits. *)
Definition hundredths (c : Z) : string :=
  String.append (decimal (c / 100))
    (String.append "."
       (String.append (decimal (c mod 100 / 10)) (decimal (c mod 10)))).

(** [f"{x:.2f}"] *)
Definition format_2f (x : F64.t) : string :=
  match x with
  | S754_nan => "nan"
  | S754_infinity false => "inf"
  | S754_infinity true => "-inf"
  | S754_zero false => "0.00"
  | S754_zero true => "-0.00"
  | S754_finite false m e => hundredths (cents m e)
  | S754_finite true m e => String.append "-" (hundredths (cents m e))
  end.

(** ** The order law at the two instances *)

Lemma SFcompare_Lt_swap (x y : spec_float) :
  SFcompare x y = Some Lt -> SFcompare y x = Some Gt.
Proof.
  destruct x as [sx | sx | | sx mx ex], y as [sy | sy | | sy my ey];
    simpl; try discriminate;
    try (destruct sx; discriminate || reflexivity);
    try (destruct sy; discriminate || reflexivity);
    try (destruct sx, sy; discriminate || reflexivity).
  assert (Hm : Pos.compare_cont Eq my mx = CompOpp (Pos.compare_cont Eq mx my))
    by (symmetry; apply (Pos.compare_cont_antisym mx my Eq)).
  rewrite (Z.compare_antisym ex ey), Hm.
  destruct sx, sy; try discriminate; try reflexivity;
    destruct (ex ?= ey)%Z; simpl; try discriminate; try reflexivity;
    destruct (Pos.compare_cont Eq mx my); simpl; discriminate || reflexivity.
Qed.

#[export] Instance F64_ArithOrder : ArithOrder F64.t.
Proof.
  constructor; intros x y; simpl; unfold F64.ltb, F64.leb, SFltb, SFleb;
    destruct (SFcompare x y) as [[ | | ] | ] eqn:E; try discriminate;
    intros _; now rewrite (SFcompare_Lt_swap _ _ E).
Qed.

#[export] Instance Q_ArithOrder : ArithOrder Q.
Proof.
  constructor; intros x y; simpl; unfold Q_ltb.
  - now destruct (Qle_bool y x).
  - destruct (Qle_bool y x) eqn:Eyx; [discriminate |]. intros _.
    destruct (Qle_bool x y) eqn:Exy; [reflexivity |]. exfalso.
    destruct (Qlt_le_dec x y) as [Hlt | Hle].
    + apply Qlt_le_weak, Qle_bool_iff in Hlt. congruence.
    + apply Qle_bool_iff in Hle. congruence.
Qed.

(** ** Tab 1: adding a participant *)

Section Tab1.

Context {F : Type} {A : Arith F}.

Lemma name_in_spec (x : string) (df : DataFrame F) :
  name_in x df = true <-> In x (map Participant df).
Proof.
  unfold name_in. rewrite existsb_exists. split.
  - intros [y [Hy Heq]]. apply String.eqb_eq in Heq. now subst.
  - intros H. exists x. split; [assumption | apply String.eqb_refl].
Qed.

Lemma truthy_spec (s : string) : truthy s = false <-> s = EmptyString.
Proof. destruct s; simpl; split; congruence. Qed.

End Tab1.

(** C3, as the code has it: pressing "Add" with a name that is already in
    the table (exact, case-sensitive comparison) shows the warning and
    leaves the table unchanged; with the empty name nothing happens at all
    and the table is unchanged; every other name, blank ones included, is
    appended at the end with [Amount = 0.0]. *)
Theorem C3_add_participant :
  forall (F : Type) (A : Arith F) (new_participant : string) (df : DataFrame F),
    (new_participant = EmptyString ->
       tab1_add true new_participant df = (df, Tab1_silent)) /\
    (new_participant <> EmptyString ->
       In new_participant (map Participant df) ->
       tab1_add true new_participant df = (df, Tab1_already_exists)) /\
    (new_participant <> EmptyString ->
       ~ In new_participant (map Participant df) ->
       tab1_add true new_participant df
       = (df ++ [ {| Participant := new_participant; Amount := of_int 0 |} ],
          Tab1_added)).
Proof.
  intros F A x df. unfold tab1_add. simpl andb.
  destruct (truthy x) eqn:Et.
  - assert (Hne : x <> EmptyString).
    { intros H. apply truthy_spec in H. congruence. }
    destruct (name_in x df) eqn:En; simpl.
    + apply name_in_spec in En. repeat split; intros; try reflexivity; tauto.
    + assert (Hn : ~ In x (map Participant df)).
      { intros H. apply name_in_spec in H. congruence. }
      repeat split; intros; try reflexivity; tauto.
  - apply truthy_spec in Et. repeat split; intros; try reflexivity; congruence.
Qed.

(** The three cases of [C3_add_participant] on a table with "Ann": the
    same name again, the name in lower case, and the empty name. *)
Lemma C3_add_participant_witness :
  let ann : row F64.t := {| Participant := "Ann"; Amount := F64.of_Z 0 |} in
  tab1_add true "Ann" [ann] = ([ann], Tab1_already_exists) /\
  tab1_add true "ann" [ann]
  = ([ann; {| Participant := "ann"; Amount := F64.of_Z 0 |}], Tab1_added) /\
  tab1_add true EmptyString [ann] = ([ann], Tab1_silent).
Proof.
  intros ann.
  destruct (C3_add_participant F64_Arith "Ann" [ann]) as [_ [Hdup _]].
  destruct (C3_add_participant F64_Arith "ann" [ann]) as [_ [_ Hnew]].
  destruct (C3_add_participant F64_Arith EmptyString [ann]) as [Hempty _].
  split; [| split].
  - apply Hdup; [discriminate | simpl; left; reflexivity].
  - apply Hnew; [discriminate |].
    simpl. intros [H | []]. discriminate H.
  - apply Hempty. reflexivity.
Defined.

(** C3 as stated fails: a name made of one space is not rejected, it is
    appended to the empty table as a new participant. *)
Lemma C3_counterexample :
  tab1_add (F := F64.t) true " " []
  = ([ {| Participant := " "; Amount := F64.of_Z 0 |} ], Tab1_added) /\
  ~ (snd (tab1_add (F := F64.t) true " " []) = Tab1_already_exists /\
     fst (tab1_add (F := F64.t) true " " []) = []).
Proof.
  split; [reflexivity |].
  intros [H _]. discriminate H.
Qed.

(** ** Tab 2: adding an expense *)

Section Tab2.

Context {F : Type} {A : Arith F}.

Lemma nth_error_add_scalar (x : F) (df : DataFrame F) (k : nat) :
  nth_error (add_scalar x df) k
  = option_map (fun r => set_Amount r (f_add (Amount r) x)) (nth_error df k).
Proof. unfold add_scalar. apply nth_error_map. Qed.

Lemma nth_error_add_list (xs : list F) (df : DataFrame F) (k : nat) (r : row F) (x : F) :
  nth_error df k = Some r ->
  nth_error xs k = Some x ->
  nth_error (add_list xs df) k = Some (set_Amount r (f_add (Amount r) x)).
Proof.
  revert xs k. induction df as [| r0 df IH]; intros xs k Hr Hx.
  - destruct k; discriminate.
  - destruct xs as [| x0 xs]; [destruct k; discriminate |].
    destruct k as [| k]; simpl in *.
    + now inversion Hr; inversion Hx; subst.
    + now apply IH.
Qed.

Lemma length_add_list (xs : list F) (df : DataFrame F) :
  length (add_list xs df) = length df.
Proof.
  revert xs. induction df as [| r df IH]; intros [| x xs]; simpl; auto.
Qed.

Lemma nth_error_map_seq (B : Type) (g : nat -> B) (start len k : nat) :
  k < len -> nth_error (map g (seq start len)) k = Some (g (start + k)).
Proof.
  revert start k. induction len as [| len IH]; intros start k Hk; [lia |].
  destruct k as [| k]; simpl.
  - now rewrite Nat.add_0_r.
  - rewrite IH by lia. f_equal. f_equal. lia.
Qed.

Lemma nth_error_read_shares (share_input : nat -> F) (df : DataFrame F) (k : nat) :
  k < length df -> nth_error (read_shares share_input df) k = Some (share_input k).
Proof. intros Hk. unfold read_shares. now rewrite nth_error_map_seq. Qed.

(** No message but the success message goes with a change of the table. *)
Lemma tab2_failure_unchanged (amount : F) (split : split_type)
    (share_input : nat -> F) (df : DataFrame F) :
  snd (tab2_add_expense amount split share_input df) <> Tab2_paid ->
  fst (tab2_add_expense amount split share_input df) = df.
Proof.
  unfold tab2_add_expense. destruct df as [| r df]; [reflexivity |].
  destruct (f_leb amount (of_int 0)); [reflexivity |].
  destruct split; cbn [fst snd].
  - intros H. now contradiction H.
  - destruct (bad_percentages share_input (r :: df)); cbn [fst snd]; [reflexivity |].
    intros H. now contradiction H.
Qed.

End Tab2.

(** C4, as the code has it: with an amount that is zero or negative the
    table is never changed; on a table with at least one participant the
    message is "Enter a valid amount", while on the empty table the page
    stops earlier, at "Please add participants first". *)
Theorem C4_invalid_amount :
  forall (F : Type) (A : Arith F) (amount : F) (split : split_type)
         (share_input : nat -> F) (df : DataFrame F),
    f_leb amount (of_int 0) = true ->
    fst (tab2_add_expense amount split share_input df) = df /\
    (df <> [] ->
       snd (tab2_add_expense amount split share_input df) = Tab2_enter_valid_amount) /\
    (df = [] ->
       snd (tab2_add_expense amount split share_input df) = Tab2_add_participants_first).
Proof.
  intros F A amount split share_input df Hle.
  unfold tab2_add_expense. destruct df as [| r df].
  - repeat split; intros; try reflexivity. congruence.
  - rewrite Hle. repeat split; intros; try reflexivity. discriminate.
Qed.

(** [C4_invalid_amount] at amount [0.0] and at amount [-5.0], equal split,
    on a table with two participants. *)
Lemma C4_invalid_amount_witness :
  let df : DataFrame F64.t :=
    [ {| Participant := "Ann"; Amount := F64.of_Z 10 |};
      {| Participant := "Bob"; Amount := F64.of_Z 0 |} ] in
  tab2_add_expense (F64.of_Z 0) Equal (fun _ => F64.of_Z 0) df
    = (df, Tab2_enter_valid_amount) /\
  tab2_add_expense (F64.of_Z (-5)) Unequal (fun _ => F64.of_Z 50) df
    = (df, Tab2_enter_valid_amount).
Proof.
  intros df.
  assert (H0 : f_leb (F64.of_Z 0) (of_int 0) = true) by reflexivity.
  assert (H5 : f_leb (F64.of_Z (-5)) (of_int 0) = true) by reflexivity.
  destruct (C4_invalid_amount F64_Arith (F64.of_Z 0) Equal (fun _ => F64.of_Z 0) df H0)
    as [Hf0 [Hm0 _]].
  destruct (C4_invalid_amount F64_Arith (F64.of_Z (-5)) Unequal (fun _ => F64.of_Z 50) df H5)
    as [Hf5 [Hm5 _]].
  split; (apply injective_projections; [assumption |]).
  - apply Hm0. discriminate.
  - apply Hm5. discriminate.
Defined.

(** C4 as stated fails on the empty table: with amount [0.0] the message
    is "Please add participants first", not "Enter a valid amount". *)
Lemma C4_counterexample :
  f_leb (F64.of_Z 0) (of_int 0) = true /\
  tab2_add_expense (F64.of_Z 0) Equal (fun _ => F64.of_Z 0) []
    = ([], Tab2_add_participants_first) /\
  snd (tab2_add_expense (F64.of_Z 0) Equal (fun _ => F64.of_Z 0) [])
    <> Tab2_enter_valid_amount.
Proof. repeat split. discriminate. Qed.

(** C5, as the code has it: when the percentages miss 100 by more than
    0.01 no amount of the table is changed, whatever the other inputs are;
    the message is "Percentages must sum to 100!" when the table is not
    empty and the amount is positive (an amount that is not positive is
    reported first, see C4).  In every run of tab 2 that does not end in
    the success message the table is the one it started from. *)
Theorem C5_bad_percentages :
  forall (F : Type) (A : Arith F) (O : ArithOrder F) (amount : F) (share_input : nat -> F)
         (df : DataFrame F),
    bad_percentages share_input df = true ->
    fst (tab2_add_expense amount Unequal share_input df) = df /\
    snd (tab2_add_expense amount Unequal share_input df) <> Tab2_paid /\
    (df <> [] -> f_ltb (of_int 0) amount = true ->
       snd (tab2_add_expense amount Unequal share_input df)
       = Tab2_percentages_must_sum) /\
    (forall (split : split_type) (amount' : F) (share_input' : nat -> F),
       snd (tab2_add_expense amount' split share_input' df) <> Tab2_paid ->
       fst (tab2_add_expense amount' split share_input' df) = df).
Proof.
  intros F A O amount share_input df Hbad.
  assert (Hmsg : snd (tab2_add_expense amount Unequal share_input df) <> Tab2_paid).
  { unfold tab2_add_expense. destruct df as [| r df]; [discriminate |].
    destruct (f_leb amount (of_int 0)); [discriminate |].
    rewrite Hbad. discriminate. }
  split; [now apply tab2_failure_unchanged |].
  split; [exact Hmsg |].
  split.
  - intros Hne Hpos. unfold tab2_add_expense.
    destruct df as [| r df]; [congruence |].
    rewrite (f_ltb_not_leb _ _ Hpos). now rewrite Hbad.
  - intros split amount' share_input'. apply tab2_failure_unchanged.
Qed.

(** [C5_bad_percentages] on three participants, amount [100.0] and the
    percentages 50, 30 and 19, which sum to 99. *)
Lemma C5_bad_percentages_witness :
  let df : DataFrame F64.t :=
    [ {| Participant := "A"; Amount := F64.of_Z 0 |};
      {| Participant := "B"; Amount := F64.of_Z 0 |};
      {| Participant := "C"; Amount := F64.of_Z 0 |} ] in
  let shares := shares_of_list (map F64.of_Z [50; 30; 19]%Z) in
  tab2_add_expense (F64.of_Z 100) Unequal shares df = (df, Tab2_percentages_must_sum).
Proof.
  intros df shares.
  assert (Hbad : bad_percentages shares df = true) by (vm_compute; reflexivity).
  destruct (C5_bad_percentages F64_ArithOrder (F64.of_Z 100) shares df Hbad)
    as [Hfst [_ [Hmsg _]]].
  apply injective_projections; [exact Hfst |].
  apply Hmsg; [discriminate | vm_compute; reflexivity].
Defined.

(** C5 as stated fails when the amount is left at [0.0]: with the
    percentages 50 and 49 the message is "Enter a valid amount", not the
    one about the percentages. *)
Lemma C5_counterexample :
  let df : DataFrame F64.t :=
    [ {| Participant := "Ann"; Amount := F64.of_Z 0 |};
      {| Participant := "Bob"; Amount := F64.of_Z 0 |} ] in
  let shares := shares_of_list (map F64.of_Z [50; 49]%Z) in
  bad_percentages shares df = true /\
  tab2_add_expense (F64.of_Z 0) Unequal shares df = (df, Tab2_enter_valid_amount) /\
  snd (tab2_add_expense (F64.of_Z 0) Unequal shares df) <> Tab2_percentages_must_sum.
Proof.
  intros df shares. split; [vm_compute; reflexivity |].
  split; [vm_compute; reflexivity |].
  vm_compute. discriminate.
Qed.

(** C6: on a table with [N >= 1] participants and a positive amount, the
    equal split succeeds, keeps the rows and their order, and replaces
    every [Amount] by [Amount + amount / N]; with amount [90.0] and three
    participants the quotient is the double [30.0] and every [Amount]
    becomes [Amount + 30.0]. *)
Theorem C6_equal_split :
  (forall (F : Type) (A : Arith F) (O : ArithOrder F) (amount : F)
          (share_input : nat -> F) (df : DataFrame F),
     df <> [] ->
     f_ltb (of_int 0) amount = true ->
     let share_per_person := f_div amount (of_int (Z.of_nat (length df))) in
     let df' := fst (tab2_add_expense amount Equal share_input df) in
     snd (tab2_add_expense amount Equal share_input df) = Tab2_paid /\
     length df' = length df /\
     forall (k : nat) (r : row F),
       nth_error df k = Some r ->
       nth_error df' k
       = Some {| Participant := Participant r;
                 Amount := f_add (Amount r) share_per_person |}) /\
  F64.div (F64.of_Z 90) (F64.of_Z 3) = F64.of_Z 30 /\
  (forall (share_input : nat -> F64.t) (a b c : row F64.t),
     tab2_add_expense (F64.of_Z 90) Equal share_input [a; b; c]
     = ([ {| Participant := Participant a; Amount := F64.add (Amount a) (F64.of_Z 30) |};
          {| Participant := Participant b; Amount := F64.add (Amount b) (F64.of_Z 30) |};
          {| Participant := Participant c; Amount := F64.add (Amount c) (F64.of_Z 30) |} ],
        Tab2_paid)).
Proof.
  split; [| split].
  - intros F A O amount share_input df Hne Hpos share_per_person df'.
    subst df' share_per_person.
    destruct df as [| r0 df0]; [congruence |].
    unfold tab2_add_expense. rewrite (f_ltb_not_leb _ _ Hpos). cbn [fst snd].
    split; [reflexivity |]. split.
    + unfold add_scalar. apply length_map.
    + intros k r Hr. rewrite nth_error_add_scalar, Hr. reflexivity.
  - vm_compute. reflexivity.
  - intros share_input a b c. reflexivity.
Qed.

(** [C6_equal_split] at amount [90.0] on three new participants: each
    [Amount] goes from [0.0] to [30.0]. *)
Lemma C6_equal_split_witness :
  let df := [entry "A" 0 1; entry "B" 0 1; entry "C" 0 1] in
  let df' := fst (tab2_add_expense (F64.of_Z 90) Equal (fun _ => F64.of_Z 0) df) in
  snd (tab2_add_expense (F64.of_Z 90) Equal (fun _ => F64.of_Z 0) df) = Tab2_paid /\
  length df' = 3 /\
  nth_error df' 1
  = Some {| Participant := "B";
            Amount := F64.add (F64.of_Z 0) (F64.div (F64.of_Z 90) (F64.of_Z 3)) |} /\
  map Amount df' = [F64.of_Z 30; F64.of_Z 30; F64.of_Z 30].
Proof.
  intros df df'.
  assert (Hne : df <> []) by discriminate.
  assert (Hpos : f_ltb (of_int 0) (F64.of_Z 90) = true) by (vm_compute; reflexivity).
  destruct (proj1 C6_equal_split F64.t F64_Arith F64_ArithOrder (F64.of_Z 90)
              (fun _ => F64.of_Z 0) df Hne Hpos) as [Hmsg [Hlen Hnth]].
  split; [exact Hmsg |]. split; [exact Hlen |]. split.
  - apply (Hnth 1 (entry "B" 0 1)). reflexivity.
  - vm_compute. reflexivity.
Defined.

(** C7: with a positive amount and percentages that pass the test of line
    96, the percentage split keeps the rows and their order and replaces
    the [Amount] of row [k] by [Amount + amount * (share_k / 100)]; on a
    table that is not empty the run ends in the success message.  With
    amount [100.0] and the percentages 50, 30 and 20 the three products
    are the doubles [50.0], [30.0] and [20.0]. *)
Theorem C7_weighted_split :
  (forall (F : Type) (A : Arith F) (O : ArithOrder F) (amount : F)
          (share_input : nat -> F) (df : DataFrame F),
     f_ltb (of_int 0) amount = true ->
     bad_percentages share_input df = false ->
     let df' := fst (tab2_add_expense amount Unequal share_input df) in
     (df <> [] ->
        snd (tab2_add_expense amount Unequal share_input df) = Tab2_paid) /\
     length df' = length df /\
     forall (k : nat) (r : row F),
       nth_error df k = Some r ->
       nth_error df' k
       = Some {| Participant := Participant r;
                 Amount := f_add (Amount r)
                             (f_mul amount (f_div (share_input k) (of_int 100))) |}) /\
  map (fun s => F64.mul (F64.of_Z 100) (F64.div (F64.of_Z s) (F64.of_Z 100)))
      [50; 30; 20]%Z
  = map F64.of_Z [50; 30; 20]%Z /\
  (forall (a b c : row F64.t),
     tab2_add_expense (F64.of_Z 100) Unequal
       (shares_of_list (map F64.of_Z [50; 30; 20]%Z)) [a; b; c]
     = ([ {| Participant := Participant a; Amount := F64.add (Amount a) (F64.of_Z 50) |};
          {| Participant := Participant b; Amount := F64.add (Amount b) (F64.of_Z 30) |};
          {| Participant := Participant c; Amount := F64.add (Amount c) (F64.of_Z 20) |} ],
        Tab2_paid)).
Proof.
  split; [| split].
  - intros F A O amount share_input df Hpos Hok df'. subst df'.
    destruct df as [| r0 df0].
    + simpl. repeat split; try congruence. intros [| k] r; discriminate.
    + remember (r0 :: df0) as df eqn:Edf.
      assert (Hrun : tab2_add_expense amount Unequal share_input df
                     = (add_list
                          (map (fun s => f_mul amount (f_div s (of_int 100)))
                               (read_shares share_input df)) df,
                        Tab2_paid)).
      { unfold tab2_add_expense. rewrite Hok, (f_ltb_not_leb _ _ Hpos).
        now rewrite Edf at 1. }
      rewrite Hrun. cbn [fst snd].
      split; [reflexivity |]. split; [apply length_add_list |].
      intros k r Hr.
      assert (Hk : k < length df) by (apply nth_error_Some; congruence).
      rewrite (nth_error_add_list _ _ _ Hr
                 (x := f_mul amount (f_div (share_input k) (of_int 100)))).
      * reflexivity.
      * rewrite nth_error_map, nth_error_read_shares by exact Hk. reflexivity.
  - vm_compute. reflexivity.
  - intros a b c. vm_compute. reflexivity.
Qed.

(** [C7_weighted_split] at amount [100.0] with the percentages 50, 30 and
    20 on three new participants: the amounts become [50.0], [30.0] and
    [20.0]. *)
Lemma C7_weighted_split_witness :
  let df := [entry "A" 0 1; entry "B" 0 1; entry "C" 0 1] in
  let shares := shares_of_list (map F64.of_Z [50; 30; 20]%Z) in
  let df' := fst (tab2_add_expense (F64.of_Z 100) Unequal shares df) in
  snd (tab2_add_expense (F64.of_Z 100) Unequal shares df) = Tab2_paid /\
  length df' = 3 /\
  nth_error df' 2
  = Some {| Participant := "C";
            Amount := F64.add (F64.of_Z 0)
                        (F64.mul (F64.of_Z 100) (F64.div (F64.of_Z 20) (F64.of_Z 100))) |} /\
  map Amount df' = [F64.of_Z 50; F64.of_Z 30; F64.of_Z 20].
Proof.
  intros df shares df'.
  assert (Hpos : f_ltb (of_int 0) (F64.of_Z 100) = true) by (vm_compute; reflexivity).
  assert (Hok : bad_percentages shares df = false) by (vm_compute; reflexivity).
  destruct (proj1 C7_weighted_split F64.t F64_Arith F64_ArithOrder (F64.of_Z 100)
              shares df Hpos Hok) as [Hmsg [Hlen Hnth]].
  split; [apply Hmsg; discriminate |]. split; [exact Hlen |]. split.
  - apply (Hnth 2 (entry "C" 0 1)). reflexivity.
  - vm_compute. reflexivity.
Defined.

(** ** Tab 3: the frame of balances and its two parts *)

Section Frames.

Context {F : Type} {A : Arith F}.

Lemma balance_rows_cons (m : F) (start : nat) (r : row F) (df : DataFrame F) :
  balance_rows m start (r :: df)
  = {| label := start; name := Participant r; paid := Amount r;
       Balance := f_sub (Amount r) m |} :: balance_rows m (S start) df.
Proof. reflexivity. Qed.

Lemma labels_balance_rows (m : F) (start : nat) (df : DataFrame F) :
  map label (balance_rows m start df) = seq start (length df).
Proof.
  revert start. induction df as [| r df IH]; intros start; [reflexivity |].
  rewrite balance_rows_cons. simpl. now rewrite IH.
Qed.

Lemma Balance_balance_rows (m : F) (start : nat) (df : DataFrame F) :
  map Balance (balance_rows m start df) = map (fun r => f_sub (Amount r) m) df.
Proof.
  revert start. induction df as [| r df IH]; intros start; [reflexivity |].
  rewrite balance_rows_cons. simpl. now rewrite IH.
Qed.

Lemma length_balances (df : DataFrame F) : length (balances df) = length df.
Proof.
  unfold balances.
  now rewrite <- (length_map label), labels_balance_rows, length_seq.
Qed.

Lemma nth_error_balance_rows (m : F) (start : nat) (df : DataFrame F) (r : brow F) :
  In r (balance_rows m start df) ->
  start <= label r /\ nth_error (balance_rows m start df) (label r - start) = Some r.
Proof.
  revert start. induction df as [| r0 df IH]; intros start Hin; [contradiction |].
  rewrite balance_rows_cons in *. destruct Hin as [Heq | Hin].
  - subst r. simpl. split; [lia |]. now rewrite Nat.sub_diag.
  - destruct (IH _ Hin) as [Hle Hnth]. split; [lia |].
    replace (label r - start) with (S (label r - S start)) by lia. exact Hnth.
Qed.

Lemma StronglySorted_seq (start len : nat) : StronglySorted lt (seq start len).
Proof.
  revert start. induction len as [| len IH]; intros start; simpl.
  - constructor.
  - constructor; [apply IH |].
    apply Forall_forall. intros x Hx. apply in_seq in Hx. lia.
Qed.

Lemma StronglySorted_labels_filter (f : brow F -> bool) (l : list (brow F)) :
  StronglySorted lt (map label l) -> StronglySorted lt (map label (filter f l)).
Proof.
  induction l as [| r l IH]; simpl; intros H; [constructor |].
  apply StronglySorted_inv in H. destruct H as [Hl Hr].
  destruct (f r); simpl; [| now apply IH].
  constructor; [now apply IH |].
  rewrite Forall_forall in *. intros x Hx. apply Hr.
  apply in_map_iff in Hx. destruct Hx as [y [Hy Hin]].
  apply in_map_iff. exists y. split; [exact Hy |].
  apply filter_In in Hin. tauto.
Qed.

Lemma NoDup_labels_balances (df : DataFrame F) : NoDup (map label (balances df)).
Proof. unfold balances. rewrite labels_balance_rows. apply seq_NoDup. Qed.

Lemma NoDup_labels_filter (f : brow F -> bool) (l : list (brow F)) :
  NoDup (map label l) -> NoDup (map label (filter f l)).
Proof.
  induction l as [| r l IH]; simpl; intros H; [constructor |].
  inversion H as [| x xs Hnotin Hnd]; subst.
  destruct (f r); simpl; [| now apply IH].
  constructor; [| now apply IH].
  intros Hin. apply Hnotin.
  apply in_map_iff in Hin. destruct Hin as [y [Hy Hin]].
  apply in_map_iff. exists y. split; [exact Hy |].
  apply filter_In in Hin. tauto.
Qed.

(** With no debtor or no creditor the loop is left at once. *)
Lemma settle_loop_no_pair (fuel : nat) (s : loop_state F) :
  st_i s = 0 -> st_j s = 0 ->
  st_debtors s = [] \/ st_creditors s = [] ->
  settle_loop fuel s = Some s.
Proof.
  intros Hi Hj H. destruct fuel; simpl; rewrite Hi, Hj;
    destruct H as [H | H]; rewrite H; simpl;
    try reflexivity; now destruct (st_debtors s).
Qed.

Lemma filter_none (B : Type) (f : B -> bool) (l : list B) :
  (forall x, In x l -> f x = false) -> filter f l = [].
Proof.
  induction l as [| x l IH]; intros H; [reflexivity |].
  simpl. rewrite (H x) by (left; reflexivity).
  apply IH. intros y Hy. apply H. now right.
Qed.

End Frames.

(** C8, as the code has it: the debtors are the rows of [balances] with
    [Balance < 0], the creditors those with [Balance > 0] (the tolerance
    is not used here); both keep the order of the table, whose labels are
    the positions.  When no row has a negative balance, or none has a
    positive balance, the loop is not entered and there is no suggestion;
    in particular when no balance is negative and none is positive. *)
Theorem C8_partition :
  forall (F : Type) (A : Arith F) (df : DataFrame F),
    let bs := balances df in
    (forall r, In r (debtors_of bs) <-> In r bs /\ f_ltb (Balance r) (of_int 0) = true) /\
    (forall r, In r (creditors_of bs) <-> In r bs /\ f_ltb (of_int 0) (Balance r) = true) /\
    (forall r, In r bs -> nth_error bs (label r) = Some r) /\
    StronglySorted lt (map label (debtors_of bs)) /\
    StronglySorted lt (map label (creditors_of bs)) /\
    (forall fuel : nat,
       (forall r, In r bs -> f_ltb (Balance r) (of_int 0) = false) \/
       (forall r, In r bs -> f_ltb (of_int 0) (Balance r) = false) ->
       exists s, settle fuel df = Some s /\ st_suggestions s = []).
Proof.
  intros F A df bs.
  split; [intros r; apply filter_In |].
  split; [intros r; apply filter_In |].
  split.
  { intros r Hin. unfold bs, balances in *.
    destruct (nth_error_balance_rows _ _ _ _ Hin) as [_ H].
    now rewrite Nat.sub_0_r in H. }
  assert (Hsorted : StronglySorted lt (map label bs)).
  { unfold bs, balances. rewrite labels_balance_rows. apply StronglySorted_seq. }
  split; [now apply StronglySorted_labels_filter |].
  split; [now apply StronglySorted_labels_filter |].
  intros fuel H. exists (initial_state bs). split; [| reflexivity].
  unfold settle. fold bs. apply settle_loop_no_pair; try reflexivity.
  simpl. destruct H as [H | H]; [left | right]; now apply filter_none.
Qed.

(** [C8_partition] on the table A = 100, B = 0, C = 50 of the spec: B is
    the only debtor, A the only creditor, and on a table where everybody
    paid the same there is no suggestion. *)
Lemma C8_partition_witness :
  let df := [entry "A" 100 1; entry "B" 0 1; entry "C" 50 1] in
  let even := [entry "A" 20 1; entry "B" 20 1] in
  map name (debtors_of (balances df)) = ["B"%string] /\
  map name (creditors_of (balances df)) = ["A"%string] /\
  exists s, settle 0 even = Some s /\ st_suggestions s = [].
Proof.
  intros df even.
  split; [vm_compute; reflexivity |]. split; [vm_compute; reflexivity |].
  destruct (C8_partition F64_Arith even) as [_ [_ [_ [_ [_ H]]]]].
  apply (H 0). left. intros r Hin.
  vm_compute in Hin. destruct Hin as [<- | [<- | []]]; vm_compute; reflexivity.
Defined.

(** C8 as stated fails: with the amounts [0.0] and [2e-7] both balances
    are within [1e-6] of zero, yet the first row is a debtor (its balance
    is not below [-1e-6]), the second a creditor, and one suggestion is
    produced. *)
Lemma C8_counterexample :
  let df : DataFrame F64.t :=
    [ {| Participant := "A"; Amount := F64.of_Z 0 |};
      {| Participant := "B"; Amount := F64.dec 2 10000000 |} ] in
  Forall (fun r => F64.ltb (F64.abs (Balance r)) (F64.dec 1 1000000) = true) (balances df) /\
  map name (debtors_of (balances df)) = ["A"%string] /\
  Forall (fun r => F64.ltb (Balance r) (F64.neg (F64.dec 1 1000000)) = false)
         (debtors_of (balances df)) /\
  map name (creditors_of (balances df)) = ["B"%string] /\
  exists s, settle 2 df = Some s /\ length (st_suggestions s) = 1 /\
            map (fun t => (t_from t, t_to t)) (st_suggestions s) = [("A"%string, "B"%string)].
Proof.
  intros df.
  split; [repeat constructor |].
  split; [vm_compute; reflexivity |].
  split; [repeat constructor |].
  split; [vm_compute; reflexivity |].
  eexists. split; [vm_compute; reflexivity |]. split; reflexivity.
Qed.

(** ** Balances in exact arithmetic *)

Section ExactBalances.

Open Scope Q_scope.

Lemma Q_ltb_lt (x y : Q) : Q_ltb x y = true <-> x < y.
Proof.
  unfold Q_ltb. rewrite negb_true_iff. split; intros H.
  - apply Qnot_le_lt. intros Hle. apply Qle_bool_iff in Hle. congruence.
  - destruct (Qle_bool y x) eqn:E; [| reflexivity].
    apply Qle_bool_iff in E. exfalso. apply (Qlt_not_le _ _ H E).
Qed.

Lemma Q_ltb_ge (x y : Q) : Q_ltb x y = false <-> y <= x.
Proof.
  unfold Q_ltb. rewrite negb_false_iff. apply Qle_bool_iff.
Qed.

Lemma fold_left_Qplus (xs : list Q) (a : Q) :
  fold_left (fun acc x => if f_isnan x then acc else f_add acc x) xs a == a + Qsum xs.
Proof.
  revert a. induction xs as [| x xs IH]; intros a; simpl.
  - ring.
  - rewrite IH. ring.
Qed.

Lemma series_sum_Q (xs : list Q) : series_sum xs == Qsum xs.
Proof. unfold series_sum. rewrite fold_left_Qplus. simpl. ring. Qed.

Lemma Qsum_map_sub (m : Q) (df : DataFrame Q) :
  Qsum (map (fun r => f_sub (Amount r) m) df)
  == Qsum (map Amount df) - inject_Z (Z.of_nat (length df)) * m.
Proof.
  induction df as [| r df IH].
  - simpl. ring.
  - cbn [map Qsum fold_right length]. fold (Qsum (map (fun r => f_sub (Amount r) m) df)).
    fold (Qsum (map Amount df)). rewrite IH, Nat2Z.inj_succ.
    unfold Z.succ. rewrite inject_Z_plus. simpl f_sub. ring.
Qed.

Lemma Qsum_map_add (s : Q) (df : DataFrame Q) :
  Qsum (map Amount (add_scalar s df))
  == Qsum (map Amount df) + inject_Z (Z.of_nat (length df)) * s.
Proof.
  induction df as [| r df IH].
  - simpl. ring.
  - cbn [add_scalar map Qsum fold_right length set_Amount Amount].
    fold (add_scalar s df). fold (Qsum (map Amount (add_scalar s df))).
    fold (Qsum (map Amount df)). rewrite IH, Nat2Z.inj_succ.
    unfold Z.succ. rewrite inject_Z_plus. simpl f_add. ring.
Qed.

Lemma length_nonzero (B : Type) (l : list B) :
  l <> [] -> ~ inject_Z (Z.of_nat (length l)) == 0.
Proof.
  intros Hne H. destruct l as [| x l]; [congruence |].
  unfold Qeq in H. simpl in H. lia.
Qed.

Lemma per_person_Q (df : DataFrame Q) :
  per_person df == Qsum (map Amount df) / inject_Z (Z.of_nat (length df)).
Proof.
  unfold per_person, total_spent. simpl f_div. simpl of_int.
  now rewrite series_sum_Q.
Qed.

Lemma sum_balances_Q (df : DataFrame Q) :
  df <> [] -> Qsum (map Balance (balances df)) == 0.
Proof.
  intros Hne. unfold balances.
  rewrite Balance_balance_rows, Qsum_map_sub, per_person_Q.
  field. now apply length_nonzero.
Qed.

Lemma per_person_add_scalar (s : Q) (df : DataFrame Q) :
  df <> [] -> per_person (add_scalar s df) == per_person df + s.
Proof.
  intros Hne. rewrite !per_person_Q, Qsum_map_add.
  unfold add_scalar at 1. rewrite length_map.
  field. now apply length_nonzero.
Qed.


Lemma balance_rows_add_scalar (m m' s : Q) (start : nat) (df : DataFrame Q) :
  m' == m + s ->
  Forall2 same_balance (balance_rows m start df)
          (balance_rows m' start (add_scalar s df)).
Proof.
  intros Hm. revert start. induction df as [| r df IH]; intros start.
  - constructor.
  - cbn [add_scalar map]. fold (add_scalar s df).
    rewrite !balance_rows_cons. constructor; [| apply IH].
    unfold same_balance. cbn [label name Balance set_Amount Participant Amount].
    repeat split. simpl. rewrite Hm. ring.
Qed.

End ExactBalances.

(** C2, in exact arithmetic: on a table that is not empty the balances
    [Amount - per_person] sum to zero, hence to less than [1e-6] in
    absolute value. *)
Theorem C2_balances_sum_zero :
  forall df : DataFrame Q,
    df <> [] ->
    (Qsum (map Balance (balances df)) == 0)%Q /\
    (Qabs (Qsum (map Balance (balances df))) < 1 # 1000000)%Q.
Proof.
  intros df Hne. pose proof (sum_balances_Q Hne) as H.
  split; [exact H |]. rewrite H. reflexivity.
Qed.

(** [C2_balances_sum_zero] on the table A = 100, B = 0, C = 50. *)
Lemma C2_balances_sum_zero_witness :
  let df : DataFrame Q :=
    [ {| Participant := "A"; Amount := 100%Q |};
      {| Participant := "B"; Amount := 0%Q |};
      {| Participant := "C"; Amount := 50%Q |} ] in
  (Qsum (map Balance (balances df)) == 0)%Q /\
  (Qabs (Qsum (map Balance (balances df))) < 1 # 1000000)%Q.
Proof.
  intros df. apply C2_balances_sum_zero. discriminate.
Defined.

(** C2 as stated fails in binary64: with the amounts [2e10], [0.0] and
    [0.0] the three balances are finite doubles whose exact sum is
    [-1/524288], about [-1.9e-6]; summing them in binary64 gives the
    same number. *)
Lemma C2_counterexample :
  let df := [entry "A" 20000000000 1; entry "B" 0 1; entry "C" 0 1] in
  let bs := map Balance (balances df) in
  forallb F64.is_finite bs = true /\
  Qred (Qsum (map F64.to_Q bs)) = (-1 # 524288)%Q /\
  ~ (Qabs (Qsum (map F64.to_Q bs)) <= 1 # 1000000)%Q /\
  Qred (F64.to_Q (series_sum bs)) = (-1 # 524288)%Q /\
  F64.ltb (F64.dec 1 1000000) (F64.abs (series_sum bs)) = true.
Proof.
  intros df bs.
  split; [vm_compute; reflexivity |].
  split; [vm_compute; reflexivity |].
  split; [| split; vm_compute; reflexivity].
  intros H. apply Qle_bool_iff in H. vm_compute in H. discriminate.
Qed.

(** C10, in exact arithmetic: on a table that is not empty, an equal
    split of a positive amount leaves every balance as it was: the rows
    of [balances] keep their label and name, and the new [Balance] is
    the same rational as the old one. *)
Theorem C10_equal_split_keeps_balances :
  forall (amount : Q) (share_input : nat -> Q) (df : DataFrame Q),
    df <> [] ->
    (0 < amount)%Q ->
    Forall2 same_balance
            (balances df)
            (balances (fst (tab2_add_expense amount Equal share_input df))).
Proof.
  intros amount share_input df Hne Hpos.
  assert (Hrun : fst (tab2_add_expense amount Equal share_input df)
                 = add_scalar (f_div amount (of_int (Z.of_nat (length df)))) df).
  { unfold tab2_add_expense. destruct df as [| r df]; [congruence |].
    rewrite (f_ltb_not_leb (F := Q) (of_int 0) amount); [reflexivity |].
    apply Q_ltb_lt. exact Hpos. }
  rewrite Hrun. unfold balances.
  apply balance_rows_add_scalar. now apply per_person_add_scalar.
Qed.

(** [C10_equal_split_keeps_balances] on the table A = 100, B = 0, C = 50
    with the amount 100: the balances stay 50, -50 and 0. *)
Lemma C10_equal_split_keeps_balances_witness :
  let df : DataFrame Q :=
    [ {| Participant := "A"; Amount := 100%Q |};
      {| Participant := "B"; Amount := 0%Q |};
      {| Participant := "C"; Amount := 50%Q |} ] in
  Forall2 same_balance
          (balances df)
          (balances (fst (tab2_add_expense 100%Q Equal (fun _ => 0%Q) df))).
Proof.
  intros df. apply C10_equal_split_keeps_balances; [discriminate | reflexivity].
Defined.

(** C10 as stated fails in binary64: on the table A = 100, B = 0, C = 50
    the balances are 50, -50 and 0; after an equal split of 100 the
    balance of B is the next double below -50 (about -50.00000000000001),
    which is not equal to -50. *)
Lemma C10_counterexample :
  let df := [entry "A" 100 1; entry "B" 0 1; entry "C" 50 1] in
  let df' := fst (tab2_add_expense (F64.of_Z 100) Equal (fun _ => F64.of_Z 0) df) in
  snd (tab2_add_expense (F64.of_Z 100) Equal (fun _ => F64.of_Z 0) df) = Tab2_paid /\
  map Balance (balances df) = [F64.of_Z 50; F64.of_Z (-50); S754_zero false] /\
  map Balance (balances df')
  = [F64.of_Z 50; S754_finite true 7036874417766401 (-47); S754_zero false] /\
  F64.eqb (S754_finite true 7036874417766401 (-47)) (F64.of_Z (-50)) = false /\
  F64.ltb (S754_finite true 7036874417766401 (-47)) (F64.of_Z (-50)) = true.
Proof.
  intros df df'. repeat split; vm_compute; reflexivity.
Qed.

(** ** Tab 3: updates of a frame through its labels *)

Section FrameUpdates.

Context {F : Type} {A : Arith F}.

Lemma labels_at_update (lbl : nat) (f : F -> F) (fr : list (brow F)) :
  map label (at_update lbl f fr) = map label fr.
Proof.
  unfold at_update. rewrite map_map. apply map_ext.
  intros r. now destruct (Nat.eqb (label r) lbl).
Qed.

Lemma length_at_update (lbl : nat) (f : F -> F) (fr : list (brow F)) :
  length (at_update lbl f fr) = length fr.
Proof. unfold at_update. apply length_map. Qed.

Lemma same_label_same_row (fr : list (brow F)) (r r' : brow F) :
  NoDup (map label fr) -> In r fr -> In r' fr -> label r = label r' -> r = r'.
Proof.
  induction fr as [| x fr IH]; intros Hnd Hr Hr' Hl; [contradiction |].
  simpl in Hnd. inversion Hnd as [| y ys Hnotin Hnd']; subst.
  destruct Hr as [-> | Hr], Hr' as [-> | Hr'].
  - reflexivity.
  - exfalso. apply Hnotin. rewrite Hl. now apply in_map.
  - exfalso. apply Hnotin. rewrite <- Hl. now apply in_map.
  - now apply IH.
Qed.

Lemma at_update_absent (lbl : nat) (f : F -> F) (fr : list (brow F)) :
  ~ In lbl (map label fr) -> at_update lbl f fr = fr.
Proof.
  induction fr as [| x fr IH]; intros Hn; [reflexivity |].
  simpl in *. destruct (Nat.eqb_spec (label x) lbl) as [E | E].
  - exfalso. apply Hn. now left.
  - f_equal. apply IH. tauto.
Qed.

Lemma nth_error_at_update_same (f : F -> F) (fr : list (brow F)) (i : nat) (r : brow F) :
  nth_error fr i = Some r ->
  nth_error (at_update (label r) f fr) i = Some (set_Balance r (f (Balance r))).
Proof.
  intros H. unfold at_update. rewrite nth_error_map, H. simpl.
  now rewrite Nat.eqb_refl.
Qed.

Lemma nth_error_at_update_other (f : F -> F) (fr : list (brow F)) (i k : nat)
    (r : brow F) :
  NoDup (map label fr) ->
  nth_error fr i = Some r -> k <> i ->
  nth_error (at_update (label r) f fr) k = nth_error fr k.
Proof.
  intros Hnd Hi Hk. unfold at_update. rewrite nth_error_map.
  destruct (nth_error fr k) as [r' |] eqn:Ek; [| reflexivity]. simpl.
  destruct (Nat.eqb_spec (label r') (label r)) as [E | E]; [| reflexivity].
  exfalso. apply Hk.
  assert (Hlk : nth_error (map label fr) k = Some (label r'))
    by (rewrite nth_error_map, Ek; reflexivity).
  assert (Hli : nth_error (map label fr) i = Some (label r))
    by (rewrite nth_error_map, Hi; reflexivity).
  rewrite NoDup_nth_error in Hnd. apply Hnd.
  - apply nth_error_Some. congruence.
  - congruence.
Qed.

Lemma find_label (fr : list (brow F)) (r : brow F) :
  NoDup (map label fr) -> In r fr ->
  find (fun x => Nat.eqb (label x) (label r)) fr = Some r.
Proof.
  induction fr as [| x fr IH]; intros Hnd Hin; [contradiction |].
  simpl. destruct (Nat.eqb_spec (label x) (label r)) as [E | E].
  - f_equal. apply (same_label_same_row (x :: fr)); auto. now left.
  - destruct Hin as [-> | Hin]; [congruence |].
    inversion Hnd; subst. now apply IH.
Qed.

Lemma at_get_at_update (f : F -> F) (fr : list (brow F)) (i : nat) (r : brow F)
    (dflt : F) :
  NoDup (map label fr) ->
  nth_error fr i = Some r ->
  at_get (label r) (at_update (label r) f fr) dflt = f (Balance r).
Proof.
  intros Hnd Hi. unfold at_get.
  pose proof (nth_error_at_update_same f fr i Hi) as Hi'.
  apply nth_error_In in Hi'.
  assert (Hf : find (fun x => Nat.eqb (label x) (label r)) (at_update (label r) f fr)
               = Some (set_Balance r (f (Balance r)))).
  { apply (@find_label (at_update (label r) f fr) (set_Balance r (f (Balance r)))).
    - now rewrite labels_at_update.
    - exact Hi'. }
  now rewrite Hf.
Qed.

Lemma filter_at_update (p : brow F -> bool) (lbl : nat) (f : F -> F)
    (fr : list (brow F)) :
  (forall r b, p (set_Balance r b) = p r) ->
  filter p (at_update lbl f fr) = at_update lbl f (filter p fr).
Proof.
  intros Hp. induction fr as [| x fr IH]; [reflexivity |].
  simpl. destruct (Nat.eqb (label x) lbl) eqn:E.
  - rewrite Hp. destruct (p x); simpl; [rewrite E |]; now rewrite IH.
  - destruct (p x); simpl; [rewrite E |]; now rewrite IH.
Qed.

Lemma has_label_set_Balance (ls : list nat) (r : brow F) (b : F) :
  has_label ls (set_Balance r b) = has_label ls r.
Proof. reflexivity. Qed.

Lemma has_label_spec (ls : list nat) (r : brow F) :
  has_label ls r = true <-> In (label r) ls.
Proof.
  unfold has_label. rewrite existsb_exists. split.
  - intros [x [Hx E]]. apply Nat.eqb_eq in E. now subst.
  - intros H. exists (label r). split; [exact H | apply Nat.eqb_refl].
Qed.

Lemma labels_apply_transfers (ts : list (transfer F)) (bs : list (brow F)) :
  map label (apply_transfers ts bs) = map label bs.
Proof.
  revert bs. induction ts as [| t ts IH]; intros bs; [reflexivity |].
  simpl. rewrite IH. unfold apply_transfer. now rewrite !labels_at_update.
Qed.

Lemma apply_transfers_snoc (ts : list (transfer F)) (t : transfer F)
    (bs : list (brow F)) :
  apply_transfers (ts ++ [t]) bs = apply_transfer (apply_transfers ts bs) t.
Proof. unfold apply_transfers. now rewrite fold_left_app. Qed.

(** *** The loop body, row by row *)

Lemma loop_body_suggestions (d c : brow F) (s : loop_state F) :
  st_suggestions (loop_body d c s)
  = st_suggestions s
    ++ [ {| t_from := name d; t_to := name c;
            t_pay := py_min (f_neg (Balance d)) (Balance c);
            t_from_label := label d; t_to_label := label c |} ].
Proof. reflexivity. Qed.

Lemma loop_body_debtors (d c : brow F) (s : loop_state F) :
  st_debtors (loop_body d c s)
  = at_update (label d)
      (fun b => f_add b (py_min (f_neg (Balance d)) (Balance c))) (st_debtors s).
Proof. reflexivity. Qed.

Lemma loop_body_creditors (d c : brow F) (s : loop_state F) :
  st_creditors (loop_body d c s)
  = at_update (label c)
      (fun b => f_sub b (py_min (f_neg (Balance d)) (Balance c))) (st_creditors s).
Proof. reflexivity. Qed.

Lemma loop_body_i (d c : brow F) (s : loop_state F) :
  NoDup (map label (st_debtors s)) ->
  nth_error (st_debtors s) (st_i s) = Some d ->
  st_i (loop_body d c s)
  = if f_ltb (f_abs (f_add (Balance d) (py_min (f_neg (Balance d)) (Balance c))))
             lit_1e_6
    then S (st_i s) else st_i s.
Proof.
  intros Hnd Hd. unfold loop_body. cbn [st_i].
  now rewrite (at_get_at_update _ _ _ _ Hnd Hd).
Qed.

Lemma loop_body_j (d c : brow F) (s : loop_state F) :
  NoDup (map label (st_creditors s)) ->
  nth_error (st_creditors s) (st_j s) = Some c ->
  st_j (loop_body d c s)
  = if f_ltb (f_abs (f_sub (Balance c) (py_min (f_neg (Balance d)) (Balance c))))
             lit_1e_6
    then S (st_j s) else st_j s.
Proof.
  intros Hnd Hc. unfold loop_body. cbn [st_j].
  now rewrite (at_get_at_update _ _ _ _ Hnd Hc).
Qed.

(** *** Two rules for the loop *)

(** A property kept by the body holds when the loop is left. *)
Lemma settle_loop_invariant (P : loop_state F -> Prop) :
  (forall s d c,
     P s ->
     nth_error (st_debtors s) (st_i s) = Some d ->
     nth_error (st_creditors s) (st_j s) = Some c ->
     P (loop_body d c s)) ->
  forall fuel s s', P s -> settle_loop fuel s = Some s' -> P s'.
Proof.
  intros Hstep. induction fuel as [| fuel IH]; intros s s' HP Hrun; simpl in Hrun;
    destruct (nth_error (st_debtors s) (st_i s)) as [d |] eqn:Ed;
    try (inversion Hrun; subst; exact HP);
    destruct (nth_error (st_creditors s) (st_j s)) as [c |] eqn:Ec;
    try (inversion Hrun; subst; exact HP).
  apply (IH _ _ (Hstep _ _ _ HP Ed Ec) Hrun).
Qed.

(** The loop is left with one of the two pointers past its frame. *)
Lemma settle_loop_exit (fuel : nat) (s s' : loop_state F) :
  settle_loop fuel s = Some s' ->
  nth_error (st_debtors s') (st_i s') = None \/
  nth_error (st_creditors s') (st_j s') = None.
Proof.
  revert s. induction fuel as [| fuel IH]; intros s Hrun; simpl in Hrun;
    destruct (nth_error (st_debtors s) (st_i s)) as [d |] eqn:Ed;
    try (inversion Hrun; subst; left; exact Ed);
    destruct (nth_error (st_creditors s) (st_j s)) as [c |] eqn:Ec;
    try (inversion Hrun; subst; right; exact Ec).
  apply (IH _ Hrun).
Qed.

(** A property kept by the body under which every pass moves a pointer
    gives the result of the loop, with fuel for the passes left. *)
Lemma settle_loop_terminates (P : loop_state F -> Prop) :
  (forall s d c,
     P s ->
     nth_error (st_debtors s) (st_i s) = Some d ->
     nth_error (st_creditors s) (st_j s) = Some c ->
     P (loop_body d c s) /\ passes_left (loop_body d c s) < passes_left s) ->
  forall fuel s, P s -> passes_left s <= fuel ->
                 exists s', settle_loop fuel s = Some s' /\ P s'.
Proof.
  intros Hstep. induction fuel as [| fuel IH]; intros s HP Hfuel; simpl;
    destruct (nth_error (st_debtors s) (st_i s)) as [d |] eqn:Ed;
    try (exists s; split; [reflexivity | exact HP]);
    destruct (nth_error (st_creditors s) (st_j s)) as [c |] eqn:Ec;
    try (exists s; split; [reflexivity | exact HP]);
    destruct (Hstep _ _ _ HP Ed Ec) as [HP' Hlt].
  - lia.
  - apply IH; [exact HP' | lia].
Qed.

Lemma settle_loop_more_fuel (fuel fuel' : nat) (s s' : loop_state F) :
  settle_loop fuel s = Some s' -> fuel <= fuel' -> settle_loop fuel' s = Some s'.
Proof.
  revert fuel' s. induction fuel as [| fuel IH]; intros fuel' s Hrun Hle;
    simpl in Hrun;
    destruct (nth_error (st_debtors s) (st_i s)) as [d |] eqn:Ed;
    try (destruct fuel'; simpl; rewrite Ed; exact Hrun);
    destruct (nth_error (st_creditors s) (st_j s)) as [c |] eqn:Ec;
    try (destruct fuel'; simpl; rewrite Ed, Ec; exact Hrun).
  - discriminate.
  - destruct fuel' as [| fuel']; [lia |]. simpl. rewrite Ed, Ec.
    apply IH; [exact Hrun | lia].
Qed.

End FrameUpdates.

(** ** Tab 3: the frames of the loop and the suggestions carried out *)

Section Applied.

Context {F : Type} {A : Arith F} {O : ArithOrder F}.

Variable bs0 : list (brow F).
Hypothesis bs0_labels : NoDup (map label bs0).

Lemma debtor_creditor_disjoint (l : nat) :
  In l (debtor_labels bs0) -> In l (creditor_labels bs0) -> False.
Proof.
  unfold debtor_labels, creditor_labels, debtors_of, creditors_of.
  intros Hd Hc.
  apply in_map_iff in Hd. destruct Hd as [r [Hl Hr]].
  apply in_map_iff in Hc. destruct Hc as [r' [Hl' Hr']].
  apply filter_In in Hr. destruct Hr as [Hin Hdeb].
  apply filter_In in Hr'. destruct Hr' as [Hin' Hcred].
  assert (r = r') by (apply (same_label_same_row bs0); auto; congruence).
  subst r'. unfold is_debtor, is_creditor in *.
  rewrite (f_ltb_asym _ _ Hdeb) in Hcred. discriminate.
Qed.

Lemma was_debtor_is_debtor (r : brow F) :
  In r bs0 -> was_debtor bs0 r = is_debtor r.
Proof.
  intros Hin. apply Bool.eq_iff_eq_true.
  unfold was_debtor. rewrite has_label_spec. unfold debtor_labels, debtors_of. split.
  - intros H. apply in_map_iff in H. destruct H as [r' [Hl Hr']].
    apply filter_In in Hr'. destruct Hr' as [Hin' Hdeb].
    assert (r' = r) by (apply (same_label_same_row bs0); auto).
    now subst.
  - intros H. apply in_map. apply filter_In. now split.
Qed.

Lemma was_creditor_is_creditor (r : brow F) :
  In r bs0 -> was_creditor bs0 r = is_creditor r.
Proof.
  intros Hin. apply Bool.eq_iff_eq_true.
  unfold was_creditor. rewrite has_label_spec. unfold creditor_labels, creditors_of.
  split.
  - intros H. apply in_map_iff in H. destruct H as [r' [Hl Hr']].
    apply filter_In in Hr'. destruct Hr' as [Hin' Hcred].
    assert (r' = r) by (apply (same_label_same_row bs0); auto).
    now subst.
  - intros H. apply in_map. apply filter_In. now split.
Qed.

Lemma frames_applied_initial : frames_applied bs0 (initial_state bs0).
Proof.
  unfold frames_applied, initial_state. cbn [st_suggestions st_debtors st_creditors].
  cbn [apply_transfers fold_left]. repeat split.
  - apply filter_ext_in. intros r Hr. now apply was_debtor_is_debtor.
  - apply filter_ext_in. intros r Hr. now apply was_creditor_is_creditor.
Qed.

Lemma labels_filter_has_label (ls : list nat) (fr : list (brow F)) (l : nat) :
  In l (map label (filter (has_label ls) fr)) -> In l ls.
Proof.
  intros H. apply in_map_iff in H. destruct H as [r [Hl Hr]].
  apply filter_In in Hr. destruct Hr as [_ Hr].
  apply has_label_spec in Hr. now subst.
Qed.

Lemma frames_applied_step (s : loop_state F) (d c : brow F) :
  frames_applied bs0 s ->
  nth_error (st_debtors s) (st_i s) = Some d ->
  nth_error (st_creditors s) (st_j s) = Some c ->
  frames_applied bs0 (loop_body d c s).
Proof.
  intros [Hd [Hc Hn]] Hnd Hnc.
  set (X := apply_transfers (st_suggestions s) bs0) in *.
  assert (Hld : In (label d) (debtor_labels bs0)).
  { apply (labels_filter_has_label (debtor_labels bs0) X).
    change (In (label d) (map label (filter (was_debtor bs0) X))).
    rewrite Hd. apply in_map.
    now apply nth_error_In with (n := st_i s). }
  assert (Hlc : In (label c) (creditor_labels bs0)).
  { apply (labels_filter_has_label (creditor_labels bs0) X).
    change (In (label c) (map label (filter (was_creditor bs0) X))).
    rewrite Hc. apply in_map.
    now apply nth_error_In with (n := st_j s). }
  unfold frames_applied.
  rewrite loop_body_suggestions, apply_transfers_snoc. fold X.
  unfold apply_transfer. cbn [t_to_label t_from_label t_pay].
  rewrite loop_body_debtors, loop_body_creditors.
  set (pay := py_min (f_neg (Balance d)) (Balance c)).
  repeat split.
  - rewrite !filter_at_update by reflexivity. rewrite Hd.
    apply at_update_absent. rewrite labels_at_update, <- Hd.
    intros H. apply labels_filter_has_label in H.
    now apply (debtor_creditor_disjoint (label c)).
  - rewrite !filter_at_update by reflexivity. rewrite Hc. f_equal.
    apply at_update_absent. rewrite <- Hc.
    intros H. apply labels_filter_has_label in H.
    now apply (debtor_creditor_disjoint (label d)).
  - rewrite !filter_at_update by reflexivity.
    rewrite Hn.
    assert (Hset : forall l, In l (debtor_labels bs0) \/ In l (creditor_labels bs0) ->
                             ~ In l (map label (filter (was_settled bs0) bs0))).
    { intros l Hl Hin. apply in_map_iff in Hin. destruct Hin as [r [El Hr]].
      apply filter_In in Hr. destruct Hr as [_ Hr]. unfold was_settled in Hr.
      apply andb_true_iff in Hr. destruct Hr as [H1 H2].
      apply negb_true_iff in H1, H2. subst l.
      destruct Hl as [Hl | Hl]; apply has_label_spec in Hl.
      - unfold was_debtor in H1. congruence.
      - unfold was_creditor in H2. congruence. }
    rewrite (at_update_absent (label d)) by (apply Hset; now left).
    apply at_update_absent. apply Hset. now right.
Qed.

Lemma frames_applied_result (fuel : nat) (s : loop_state F) :
  settle_loop fuel (initial_state bs0) = Some s -> frames_applied bs0 s.
Proof.
  apply (settle_loop_invariant (frames_applied bs0)).
  - intros s0 d c. apply frames_applied_step.
  - apply frames_applied_initial.
Qed.

End Applied.

(** ** The settlement loop in exact arithmetic *)

Section ExactSettlement.

Open Scope Q_scope.



Lemma within_eps (x : Q) :
  f_ltb (f_abs x) lit_1e_6 = true <-> - eps < x /\ x < eps.
Proof. simpl. rewrite Q_ltb_lt. apply Qabs_Qlt_condition. Qed.

Lemma not_within_eps (x : Q) :
  f_ltb (f_abs x) lit_1e_6 = false <-> eps <= Qabs x.
Proof. simpl. apply Q_ltb_ge. Qed.

Lemma py_min_cases (bd bc : Q) :
  (py_min (f_neg bd) bc = bc /\ bc < - bd) \/
  (py_min (f_neg bd) bc = - bd /\ - bd <= bc).
Proof.
  unfold py_min. simpl. destruct (Q_ltb bc (- bd)) eqn:E.
  - left. split; [reflexivity | now apply Q_ltb_lt].
  - right. split; [reflexivity | now apply Q_ltb_ge].
Qed.

(** The payment is positive, moves neither balance past zero and
    brings one of the two to zero. *)
Lemma pay_spec (bd bc : Q) :
  bd < 0 -> 0 < bc ->
  let pay := py_min (f_neg bd) bc in
  0 < pay /\ bd + pay <= 0 /\ 0 <= bc - pay /\ (bd + pay == 0 \/ bc - pay == 0).
Proof.
  intros Hd Hc pay. subst pay.
  destruct (py_min_cases bd bc) as [[-> H] | [-> H]]; repeat split; lra.
Qed.

Lemma Qsum_at_update (f : Q -> Q) (fr : list (brow Q)) (i : nat) (r : brow Q) :
  NoDup (map label fr) ->
  nth_error fr i = Some r ->
  Qsum (map Balance (at_update (label r) f fr))
  == Qsum (map Balance fr) + f (Balance r) - Balance r.
Proof.
  revert i. induction fr as [| x fr IH]; intros i Hnd Hi.
  - destruct i; discriminate.
  - simpl in Hnd. inversion Hnd as [| y ys Hnotin Hnd']; subst.
    destruct i as [| i]; simpl in Hi.
    + inversion Hi; subst x. cbn [at_update map]. rewrite Nat.eqb_refl.
      fold (at_update (label r) f fr). rewrite (at_update_absent _ _ _ Hnotin).
      cbn [Qsum fold_right map set_Balance Balance]. fold (Qsum (map Balance fr)). ring.
    + cbn [at_update map]. fold (at_update (label r) f fr).
      destruct (Nat.eqb_spec (label x) (label r)) as [E | E].
      * exfalso. apply Hnotin. rewrite E. apply in_map.
        now apply nth_error_In with (n := i).
      * cbn [Qsum fold_right]. fold (Qsum (map Balance (at_update (label r) f fr))).
        fold (Qsum (map Balance fr)). rewrite (IH i Hnd' Hi). ring.
Qed.

Lemma loop_inv_step (D C : nat) (total : Q) (s : loop_state Q) (d c : brow Q) :
  loop_inv D C total s ->
  nth_error (st_debtors s) (st_i s) = Some d ->
  nth_error (st_creditors s) (st_j s) = Some c ->
  loop_inv D C total (loop_body d c s) /\
  (passes_left (loop_body d c s) < passes_left s)%nat.
Proof.
  intros Inv Hd Hc.
  pose proof (inv_nodup_d Inv) as Hndd. pose proof (inv_nodup_c Inv) as Hndc.
  assert (Hbd : Balance d < 0) by (apply (inv_debtors Inv _ Hd); apply Nat.le_refl).
  assert (Hbc : 0 < Balance c) by (apply (inv_creditors Inv _ Hc); apply Nat.le_refl).
  assert (HiD : (st_i s < D)%nat).
  { rewrite <- (inv_len_d Inv). apply nth_error_Some. congruence. }
  assert (HjC : (st_j s < C)%nat).
  { rewrite <- (inv_len_c Inv). apply nth_error_Some. congruence. }
  pose proof (loop_body_i c s Hndd Hd) as Hi'.
  pose proof (loop_body_j d s Hndc Hc) as Hj'.
  pose proof (loop_body_debtors d c s) as Hds.
  pose proof (loop_body_creditors d c s) as Hcs.
  pose proof (loop_body_suggestions d c s) as Hsg.
  destruct (pay_spec Hbd Hbc) as [Hpay [Hd' [Hc' Hzero]]].
  set (pay := py_min (f_neg (Balance d)) (Balance c)) in *.
  set (s' := loop_body d c s) in *.
  simpl f_add in Hi', Hds. simpl f_sub in Hj', Hcs.
  (* the two pointers *)
  assert (Hi_cases :
            (st_i s' = S (st_i s) /\ - eps < Balance d + pay) \/
            (st_i s' = st_i s /\ Balance d + pay < 0)).
  { destruct (f_ltb (f_abs (Balance d + pay)) lit_1e_6) eqn:E.
    - left. apply within_eps in E. tauto.
    - right. split; [exact Hi' |]. apply not_within_eps in E.
      rewrite Qabs_neg in E by exact Hd'. unfold eps in E. lra. }
  assert (Hj_cases :
            (st_j s' = S (st_j s) /\ Balance c - pay < eps) \/
            (st_j s' = st_j s /\ 0 < Balance c - pay)).
  { destruct (f_ltb (f_abs (Balance c - pay)) lit_1e_6) eqn:E.
    - left. apply within_eps in E. tauto.
    - right. split; [exact Hj' |]. apply not_within_eps in E.
      rewrite Qabs_pos in E by exact Hc'. unfold eps in E. lra. }
  assert (Hmove : (st_i s' = S (st_i s) \/ st_j s' = S (st_j s))).
  { destruct Hi_cases as [[H _] | [_ Hlt]]; [now left |].
    destruct Hj_cases as [[H _] | [_ Hgt]]; [now right |].
    exfalso. destruct Hzero; lra. }
  assert (Hlen_d : length (st_debtors s') = D)
    by (rewrite Hds, length_at_update; apply (inv_len_d Inv)).
  assert (Hlen_c : length (st_creditors s') = C)
    by (rewrite Hcs, length_at_update; apply (inv_len_c Inv)).
  split.
  - constructor.
    + rewrite Hds, labels_at_update. exact Hndd.
    + rewrite Hcs, labels_at_update. exact Hndc.
    + exact Hlen_d.
    + exact Hlen_c.
    + destruct Hi_cases as [[H _] | [H _]]; rewrite H; lia.
    + destruct Hj_cases as [[H _] | [H _]]; rewrite H; lia.
    + intros k r Hk. rewrite Hds in Hk.
      destruct (Nat.eq_dec k (st_i s)) as [-> | Hne].
      * rewrite (nth_error_at_update_same _ _ _ Hd) in Hk.
        inversion Hk; subst r. cbn [set_Balance Balance].
        destruct Hi_cases as [[H Hlo] | [H Hlt]]; rewrite H; split; intros Hcmp;
          solve [lia | lra | split; lra].
      * rewrite (nth_error_at_update_other _ _ Hndd Hd Hne) in Hk.
        destruct (inv_debtors Inv _ Hk) as [Hlow Hhigh].
        destruct Hi_cases as [[H _] | [H _]]; rewrite H;
          split; intros Hcmp; (apply Hlow; lia) || (apply Hhigh; lia).
    + intros k r Hk. rewrite Hcs in Hk.
      destruct (Nat.eq_dec k (st_j s)) as [-> | Hne].
      * rewrite (nth_error_at_update_same _ _ _ Hc) in Hk.
        inversion Hk; subst r. cbn [set_Balance Balance].
        destruct Hj_cases as [[H Hhi] | [H Hgt]]; rewrite H; split; intros Hcmp;
          solve [lia | lra | split; lra].
      * rewrite (nth_error_at_update_other _ _ Hndc Hc Hne) in Hk.
        destruct (inv_creditors Inv _ Hk) as [Hlow Hhigh].
        destruct Hj_cases as [[H _] | [H _]]; rewrite H;
          split; intros Hcmp; (apply Hlow; lia) || (apply Hhigh; lia).
    + rewrite Hsg. apply Forall_app. split; [apply (inv_pay Inv) |].
      constructor; [exact Hpay | constructor].
    + rewrite Hsg, length_app. cbn [length].
      destruct (inv_count Inv) as [H1 H2].
      split; [destruct Hmove as [H | H]; destruct Hi_cases as [[Hi _] | [Hi _]];
              destruct Hj_cases as [[Hj _] | [Hj _]]; lia | lia].
    + rewrite Hds, Hcs.
      rewrite (Qsum_at_update _ _ _ Hndd Hd), (Qsum_at_update _ _ _ Hndc Hc).
      rewrite <- (inv_total Inv). ring.
  - unfold passes_left. rewrite Hlen_d, Hlen_c, (inv_len_d Inv), (inv_len_c Inv).
    destruct Hmove as [H | H]; destruct Hi_cases as [[Hi _] | [Hi _]];
      destruct Hj_cases as [[Hj _] | [Hj _]]; lia.
Qed.

(** *** Sums over frames *)

Lemma Qsum_ge_element (l : list Q) (x : Q) :
  (forall y, In y l -> 0 <= y) -> In x l -> x <= Qsum l.
Proof.
  induction l as [| y l IH]; intros Hpos Hin; [contradiction |].
  cbn [Qsum fold_right]. fold (Qsum l).
  assert (Hl : 0 <= Qsum l).
  { clear IH Hin. induction l as [| z l IHl]; [simpl; lra |].
    cbn [Qsum fold_right]. fold (Qsum l).
    assert (0 <= z) by (apply Hpos; right; left; reflexivity).
    assert (0 <= Qsum l).
    { apply IHl. intros w [Hw | Hw]; apply Hpos; [left | right; right]; assumption. }
    lra. }
  assert (Hy : 0 <= y) by (apply Hpos; left; reflexivity).
  destruct Hin as [-> | Hin]; [lra |].
  assert (x <= Qsum l) by (apply IH; [intros w Hw; apply Hpos; now right | exact Hin]).
  lra.
Qed.

Lemma Qsum_le_bound (l : list Q) (e : Q) :
  (forall y, In y l -> y <= e) ->
  Qsum l <= inject_Z (Z.of_nat (length l)) * e.
Proof.
  induction l as [| y l IH]; intros Hb.
  - change (0 <= 0 * e). lra.
  - cbn [Qsum fold_right length]. fold (Qsum l).
    rewrite Nat2Z.inj_succ. unfold Z.succ. rewrite inject_Z_plus.
    assert (y <= e) by (apply Hb; left; reflexivity).
    assert (Qsum l <= inject_Z (Z.of_nat (length l)) * e)
      by (apply IH; intros w Hw; apply Hb; now right).
    change (inject_Z 1) with 1. lra.
Qed.

Lemma Qsum_map_opp (l : list Q) : Qsum (map Qopp l) == - Qsum l.
Proof.
  induction l as [| y l IH]; [simpl; lra |].
  cbn [map Qsum fold_right]. fold (Qsum (map Qopp l)). fold (Qsum l).
  rewrite IH. ring.
Qed.

Lemma Qsum_all_zero (l : list Q) : (forall y, In y l -> y == 0) -> Qsum l == 0.
Proof.
  induction l as [| y l IH]; intros Hz; [reflexivity |].
  cbn [Qsum fold_right]. fold (Qsum l).
  rewrite (Hz y) by (left; reflexivity).
  rewrite IH by (intros w Hw; apply Hz; now right). ring.
Qed.

(** A frame splits into its debtors, its creditors and the rest. *)
Lemma Qsum_partition (p q : brow Q -> bool) (l : list (brow Q)) :
  (forall r, In r l -> p r = true -> q r = true -> False) ->
  Qsum (map Balance l)
  == Qsum (map Balance (filter p l)) + Qsum (map Balance (filter q l))
     + Qsum (map Balance (filter (fun r => negb (p r) && negb (q r)) l)).
Proof.
  induction l as [| r l IH]; intros Hpq; [simpl; lra |].
  specialize (IH (fun r' Hr' => Hpq r' (or_intror Hr'))).
  unfold Qsum in *. cbn [filter map fold_right].
  destruct (p r) eqn:Ep, (q r) eqn:Eq;
    cbn [negb andb map fold_right]; try (rewrite IH; ring).
  exfalso. apply (Hpq r); auto. now left.
Qed.

Lemma inject_nat_le (n m : nat) :
  (n <= m)%nat -> inject_Z (Z.of_nat n) <= inject_Z (Z.of_nat m).
Proof. intros H. rewrite <- Zle_Qle. lia. Qed.

(** *** The loop on a frame of balances *)

Section OnFrame.

Variable bs : list (brow Q).
Hypothesis bs_labels : NoDup (map label bs).

Let D : nat := length (debtors_of bs).
Let C : nat := length (creditors_of bs).
Let T0 : Q :=
  Qsum (map Balance (debtors_of bs)) + Qsum (map Balance (creditors_of bs)).

Lemma initial_loop_inv : loop_inv D C T0 (initial_state bs).
Proof.
  constructor; cbn [initial_state st_i st_j st_debtors st_creditors st_suggestions].
  - now apply NoDup_labels_filter.
  - now apply NoDup_labels_filter.
  - reflexivity.
  - reflexivity.
  - lia.
  - lia.
  - intros k r Hk. split; [lia |]. intros _.
    apply nth_error_In in Hk. apply filter_In in Hk. destruct Hk as [_ Hk].
    unfold is_debtor in Hk. now apply Q_ltb_lt in Hk.
  - intros k r Hk. split; [lia |]. intros _.
    apply nth_error_In in Hk. apply filter_In in Hk. destruct Hk as [_ Hk].
    unfold is_creditor in Hk. now apply Q_ltb_lt in Hk.
  - constructor.
  - simpl. lia.
  - reflexivity.
Qed.

Lemma settle_loop_exact :
  exists s,
    settle_loop (D + C) (initial_state bs) = Some s /\
    loop_inv D C T0 s /\
    ((D <= st_i s)%nat \/ (C <= st_j s)%nat).
Proof.
  assert (H : exists s, settle_loop (D + C) (initial_state bs) = Some s /\
                        loop_inv D C T0 s).
  { apply settle_loop_terminates.
    - intros s d c. apply loop_inv_step.
    - apply initial_loop_inv.
    - unfold passes_left. simpl. fold D C. lia. }
  destruct H as [s [Hrun Hinv]].
  exists s. split; [exact Hrun |]. split; [exact Hinv |].
  destruct (settle_loop_exit _ _ Hrun) as [H | H];
    apply nth_error_None in H; [left | right].
  - now rewrite <- (inv_len_d Hinv).
  - now rewrite <- (inv_len_c Hinv).
Qed.

Lemma settled_zero (r : brow Q) :
  In r bs -> was_settled bs r = true -> Balance r == 0.
Proof.
  intros Hin H. unfold was_settled in H. apply andb_true_iff in H.
  destruct H as [H1 H2]. apply negb_true_iff in H1, H2.
  rewrite was_debtor_is_debtor in H1 by assumption.
  rewrite was_creditor_is_creditor in H2 by assumption.
  unfold is_debtor in H1. unfold is_creditor in H2.
  apply Q_ltb_ge in H1, H2.
  change (0 <= Balance r) in H1. change (Balance r <= 0) in H2. lra.
Qed.

Lemma was_both_absurd (X : list (brow Q)) (r : brow Q) :
  In r X -> was_debtor bs r = true -> was_creditor bs r = true -> False.
Proof.
  intros _ H1 H2. apply has_label_spec in H1, H2.
  eapply debtor_creditor_disjoint; eassumption.
Qed.

Lemma frames_total : T0 == Qsum (map Balance bs).
Proof.
  rewrite (Qsum_partition (was_debtor bs) (was_creditor bs) bs)
    by (apply was_both_absurd).
  rewrite (filter_ext_in (was_debtor bs) is_debtor bs)
    by (intros r Hr; now apply was_debtor_is_debtor).
  rewrite (filter_ext_in (was_creditor bs) is_creditor bs)
    by (intros r Hr; now apply was_creditor_is_creditor).
  fold (debtors_of bs). fold (creditors_of bs). fold T0.
  rewrite (Qsum_all_zero (map Balance (filter _ bs))); [ring |].
  intros y Hy. apply in_map_iff in Hy. destruct Hy as [r [<- Hr]].
  apply filter_In in Hr. destruct Hr as [Hin Hs].
  now apply settled_zero.
Qed.

(** *** The frames when the loop is left *)

Lemma final_debtor (s : loop_state Q) (r : brow Q) :
  loop_inv D C T0 s -> In r (st_debtors s) ->
  Balance r <= 0 /\ ((D <= st_i s)%nat -> - eps < Balance r).
Proof.
  intros Hinv Hin. apply In_nth_error in Hin. destruct Hin as [k Hk].
  destruct (inv_debtors Hinv _ Hk) as [Hlow Hhigh].
  assert (Hlt : (k < D)%nat).
  { rewrite <- (inv_len_d Hinv). apply nth_error_Some. congruence. }
  split.
  - destruct (Nat.lt_ge_cases k (st_i s)) as [H | H].
    + now apply Hlow.
    + apply Qlt_le_weak. now apply Hhigh.
  - intros HD. apply Hlow. lia.
Qed.

Lemma final_creditor (s : loop_state Q) (r : brow Q) :
  loop_inv D C T0 s -> In r (st_creditors s) ->
  0 <= Balance r /\ ((C <= st_j s)%nat -> Balance r < eps).
Proof.
  intros Hinv Hin. apply In_nth_error in Hin. destruct Hin as [k Hk].
  destruct (inv_creditors Hinv _ Hk) as [Hlow Hhigh].
  assert (Hlt : (k < C)%nat).
  { rewrite <- (inv_len_c Hinv). apply nth_error_Some. congruence. }
  split.
  - destruct (Nat.lt_ge_cases k (st_j s)) as [H | H].
    + now apply Hlow.
    + apply Qlt_le_weak. now apply Hhigh.
  - intros HC. apply Hlow. lia.
Qed.


Lemma final_bound (s : loop_state Q) (r : brow Q) :
  loop_inv D C T0 s -> T0 == 0 ->
  (D <= st_i s)%nat \/ (C <= st_j s)%nat ->
  In r (st_debtors s) \/ In r (st_creditors s) ->
  Qabs (Balance r) <= residual_bound D C.
Proof.
  intros Hinv HT Hexit Hin. pose proof (inv_total Hinv) as Htot. rewrite HT in Htot.
  set (Sd := Qsum (map Balance (st_debtors s))) in *.
  set (Sc := Qsum (map Balance (st_creditors s))) in *.
  assert (HD : inject_Z (Z.of_nat D) <= inject_Z (Z.of_nat (Nat.max D C)))
    by (apply inject_nat_le; lia).
  assert (HC : inject_Z (Z.of_nat C) <= inject_Z (Z.of_nat (Nat.max D C)))
    by (apply inject_nat_le; lia).
  assert (Hone : forall (l : list (brow Q)) x, In x l ->
                   1 <= inject_Z (Z.of_nat (length l))).
  { intros l x Hx. destruct l as [| y l]; [contradiction |].
    change 1 with (inject_Z 1). rewrite <- Zle_Qle. simpl length. lia. }
  assert (Hsd : Sd <= 0).
  { assert (H : Sd <= inject_Z (Z.of_nat (length (map Balance (st_debtors s)))) * 0).
    { apply Qsum_le_bound. intros y Hy.
      apply in_map_iff in Hy. destruct Hy as [r0 [<- Hr0]].
      now destruct (final_debtor _ Hinv Hr0). }
    lra. }
  unfold residual_bound. apply Qabs_Qle_condition. unfold eps in *.
  destruct Hexit as [Hexit | Hexit].
  - (* every debtor is within the tolerance *)
    assert (Hbound : - Sd <= inject_Z (Z.of_nat D) * (1 # 1000000)).
    { unfold Sd. rewrite <- Qsum_map_opp, <- (inv_len_d Hinv).
      rewrite <- (length_map Balance), <- (length_map Qopp).
      apply Qsum_le_bound. intros y Hy.
      apply in_map_iff in Hy. destruct Hy as [b [<- Hb]].
      apply in_map_iff in Hb. destruct Hb as [r0 [<- Hr0]].
      destruct (final_debtor _ Hinv Hr0) as [_ H]. specialize (H Hexit).
      unfold eps in H. lra. }
    destruct Hin as [Hin | Hin].
    + destruct (final_debtor _ Hinv Hin) as [H1 H2]. specialize (H2 Hexit).
      pose proof (Hone _ _ Hin) as H3. rewrite (inv_len_d Hinv) in H3.
      unfold eps in H2. split; lra.
    + destruct (final_creditor _ Hinv Hin) as [H1 _].
      assert (Balance r <= Sc).
      { unfold Sc. apply Qsum_ge_element; [| now apply in_map].
        intros y Hy. apply in_map_iff in Hy. destruct Hy as [r0 [<- Hr0]].
        now destruct (final_creditor _ Hinv Hr0). }
      split; lra.
  - (* every creditor is within the tolerance *)
    assert (Hbound : Sc <= inject_Z (Z.of_nat C) * (1 # 1000000)).
    { unfold Sc. rewrite <- (inv_len_c Hinv), <- (length_map Balance).
      apply Qsum_le_bound. intros y Hy.
      apply in_map_iff in Hy. destruct Hy as [r0 [<- Hr0]].
      destruct (final_creditor _ Hinv Hr0) as [_ H]. specialize (H Hexit).
      unfold eps in H. lra. }
    destruct Hin as [Hin | Hin].
    + destruct (final_debtor _ Hinv Hin) as [H1 _].
      assert (- Balance r <= - Sd).
      { unfold Sd. rewrite <- Qsum_map_opp.
        apply Qsum_ge_element.
        - intros y Hy. apply in_map_iff in Hy. destruct Hy as [b [<- Hb]].
          apply in_map_iff in Hb. destruct Hb as [r0 [<- Hr0]].
          destruct (final_debtor _ Hinv Hr0). lra.
        - apply in_map. now apply in_map. }
      split; lra.
    + destruct (final_creditor _ Hinv Hin) as [H1 H2]. specialize (H2 Hexit).
      pose proof (Hone _ _ Hin) as H3. rewrite (inv_len_c Hinv) in H3.
      unfold eps in H2. split; lra.
Qed.

(** What the loop gives on a frame whose balances sum to zero. *)
Lemma settlement_on_frame :
  Qsum (map Balance bs) == 0 ->
  exists s,
    settle_loop (D + C) (initial_state bs) = Some s /\
    ((D <= st_i s)%nat \/ (C <= st_j s)%nat) /\
    (length (st_suggestions s) <= D + C - 1)%nat /\
    Forall (fun t => 0 < t_pay t) (st_suggestions s) /\
    ((forall r, In r (apply_transfers (st_suggestions s) bs) ->
                was_debtor bs r = true -> - eps < Balance r /\ Balance r <= 0) \/
     (forall r, In r (apply_transfers (st_suggestions s) bs) ->
                was_creditor bs r = true -> 0 <= Balance r /\ Balance r < eps)) /\
    (forall r, In r (apply_transfers (st_suggestions s) bs) ->
               was_settled bs r = true -> Balance r == 0) /\
    Qsum (map Balance (apply_transfers (st_suggestions s) bs)) == 0 /\
    (forall r, In r (apply_transfers (st_suggestions s) bs) ->
               Qabs (Balance r) <= residual_bound D C).
Proof.
  intros Hzero.
  destruct settle_loop_exact as [s [Hrun [Hinv Hexit]]].
  assert (Happ : frames_applied bs s)
    by (eapply frames_applied_result; eassumption).
  destruct Happ as [HXd [HXc HXn]].
  assert (HT : T0 == 0) by (rewrite frames_total; exact Hzero).
  exists s. set (X := apply_transfers (st_suggestions s) bs) in *.
  assert (Hdeb : forall r, In r X -> was_debtor bs r = true -> In r (st_debtors s)).
  { intros r Hr H. rewrite <- HXd. apply filter_In. now split. }
  assert (Hcred : forall r, In r X -> was_creditor bs r = true -> In r (st_creditors s)).
  { intros r Hr H. rewrite <- HXc. apply filter_In. now split. }
  assert (Hset : forall r, In r X -> was_settled bs r = true -> Balance r == 0).
  { intros r Hr H. apply settled_zero; [| exact H].
    assert (Hin : In r (filter (was_settled bs) bs))
      by (rewrite <- HXn; apply filter_In; now split).
    apply filter_In in Hin. tauto. }
  split; [exact Hrun |]. split; [exact Hexit |].
  split; [apply (inv_count Hinv) |]. split; [apply (inv_pay Hinv) |].
  split; [| split; [exact Hset | split]].
  - destruct Hexit as [Hexit | Hexit]; [left | right]; intros r Hr H.
    + destruct (final_debtor _ Hinv (Hdeb _ Hr H)) as [H1 H2]. split; auto.
    + destruct (final_creditor _ Hinv (Hcred _ Hr H)) as [H1 H2]. split; auto.
  - rewrite (Qsum_partition (was_debtor bs) (was_creditor bs) X)
      by (apply was_both_absurd).
    change (filter (fun r => negb (was_debtor bs r) && negb (was_creditor bs r)) X)
      with (filter (was_settled bs) X).
    rewrite HXd, HXc, HXn, (inv_total Hinv), HT.
    rewrite (Qsum_all_zero (map Balance (filter (was_settled bs) bs))); [ring |].
    intros y Hy. apply in_map_iff in Hy. destruct Hy as [r [<- Hr]].
    apply filter_In in Hr. destruct Hr as [Hin Hs]. now apply settled_zero.
  - intros r Hr.
    destruct (was_debtor bs r) eqn:Ed.
    { apply (final_bound _ Hinv HT Hexit). left. now apply Hdeb. }
    destruct (was_creditor bs r) eqn:Ec.
    { apply (final_bound _ Hinv HT Hexit). right. now apply Hcred. }
    assert (Hz : Balance r == 0).
    { apply Hset; [exact Hr |]. unfold was_settled. now rewrite Ed, Ec. }
    rewrite Hz. unfold residual_bound, eps.
    assert (0 <= inject_Z (Z.of_nat (Nat.max D C))).
    { change 0 with (inject_Z (Z.of_nat 0)). apply inject_nat_le. lia. }
    change (Qabs 0) with 0. lra.
Qed.

End OnFrame.

End ExactSettlement.


(** ** Every pass of the loop moves a pointer *)

Section Progress.

Context {F : Type} {A : Arith F}.

Lemma py_min_either (a b : F) : py_min a b = a \/ py_min a b = b.
Proof. unfold py_min. destruct (f_ltb b a); auto. Qed.

(** When a balance minus itself, and a balance plus its opposite, are
    within the tolerance, the pass pays off the debtor or the creditor
    in full and moves the pointer of that side; no pointer goes back. *)
Lemma loop_body_advances (s : loop_state F) (d c : brow F) :
  NoDup (map label (st_debtors s)) ->
  NoDup (map label (st_creditors s)) ->
  nth_error (st_debtors s) (st_i s) = Some d ->
  nth_error (st_creditors s) (st_j s) = Some c ->
  f_ltb (f_abs (f_add (Balance d) (f_neg (Balance d)))) lit_1e_6 = true ->
  f_ltb (f_abs (f_sub (Balance c) (Balance c))) lit_1e_6 = true ->
  let pay := py_min (f_neg (Balance d)) (Balance c) in
  (pay = f_neg (Balance d) \/ pay = Balance c) /\
  (st_i (loop_body d c s) = S (st_i s) \/ st_j (loop_body d c s) = S (st_j s)) /\
  st_i s <= st_i (loop_body d c s) /\
  st_j s <= st_j (loop_body d c s).
Proof.
  intros Hndd Hndc Hd Hc Hdz Hcz pay.
  rewrite (loop_body_i c s Hndd Hd), (loop_body_j d s Hndc Hc). fold pay.
  split; [apply py_min_either |].
  split.
  - destruct (py_min_either (f_neg (Balance d)) (Balance c)) as [E | E];
      fold pay in E; rewrite E.
    + left. now rewrite Hdz.
    + right. now rewrite Hcz.
  - split.
    + destruct (f_ltb (f_abs (f_add (Balance d) pay)) lit_1e_6); lia.
    + destruct (f_ltb (f_abs (f_sub (Balance c) pay)) lit_1e_6); lia.
Qed.

End Progress.

Lemma Q_cancel_within (x : Q) :
  f_ltb (f_abs (f_add x (f_neg x))) lit_1e_6 = true /\
  f_ltb (f_abs (f_sub x x)) lit_1e_6 = true.
Proof.
  split; apply within_eps; simpl; unfold eps; split; lra.
Qed.

Lemma cond_Zopp_cancel (s : bool) (z : Z) :
  (cond_Zopp s z + cond_Zopp (negb s) z = 0)%Z /\
  (cond_Zopp s z - cond_Zopp s z = 0)%Z.
Proof. destruct s; simpl; lia. Qed.

(** In binary64 a finite [x] gives [x + (-x) = +0.0] and [x - x = +0.0]. *)
Lemma F64_cancel (x : F64.t) :
  F64.is_finite x = true ->
  F64.add x (F64.neg x) = S754_zero false /\ F64.sub x x = S754_zero false.
Proof.
  destruct x as [s | s | | s m e]; simpl; try discriminate; intros _.
  - destruct s; split; reflexivity.
  - unfold F64.add, F64.sub, F64.neg, SFadd, SFsub, SFopp.
    cbv zeta.
    destruct (cond_Zopp_cancel s
                (Z.pos (fst (shl_align m e (Z.min e e))))) as [H1 H2].
    rewrite H1, H2. split; reflexivity.
Qed.

Lemma F64_cancel_within (x : F64.t) :
  F64.is_finite x = true ->
  f_ltb (f_abs (f_add x (f_neg x))) lit_1e_6 = true /\
  f_ltb (f_abs (f_sub x x)) lit_1e_6 = true.
Proof.
  intros H. destruct (F64_cancel x H) as [H1 H2]. simpl.
  rewrite H1, H2. split; vm_compute; reflexivity.
Qed.

(** ** Binary64: rounding a value that needs no rounding *)

Section Binary64Rounding.

Local Open Scope Z_scope.
Local Unset Implicit Arguments.

(** The exponent of the last place of a value with [k] digits. *)
Lemma fexp64 (k : Z) : fexp F64.prec F64.emax k = Z.max (k - 53) (-1074).
Proof. reflexivity. Qed.

(** [digits] against the binary logarithm. *)
Lemma digits_log2 (m : positive) : digits m = Z.log2 (Zpos m) + 1.
Proof.
  unfold digits. induction m as [m IH | m IH |]; simpl digits2_pos; try reflexivity.
  - rewrite Pos2Z.inj_succ, IH. destruct m; simpl; try reflexivity;
      rewrite ?Pos2Z.inj_succ; simpl in IH |- *; lia.
  - rewrite Pos2Z.inj_succ, IH. destruct m; simpl; try reflexivity;
      rewrite ?Pos2Z.inj_succ; simpl in IH |- *; lia.
Qed.

Lemma digits_pos (m : positive) : 0 < digits m.
Proof. unfold digits. lia. Qed.

Lemma digits_bounds (m : positive) : 2 ^ (digits m - 1) <= Zpos m < 2 ^ digits m.
Proof.
  rewrite digits_log2. replace (Z.log2 (Z.pos m) + 1 - 1) with (Z.log2 (Zpos m)) by lia.
  apply Z.log2_spec. lia.
Qed.

Lemma digits_le (m : positive) (k : Z) : 0 <= k -> Zpos m < 2 ^ k -> digits m <= k.
Proof.
  intros Hk H. rewrite digits_log2.
  assert (Z.log2 (Zpos m) < k) by (apply Z.log2_lt_pow2; lia). lia.
Qed.

Lemma digits_ge (m : positive) (k : Z) : 0 <= k -> 2 ^ k <= Zpos m -> k < digits m.
Proof.
  intros Hk H. rewrite digits_log2.
  assert (k <= Z.log2 (Zpos m)) by (apply Z.log2_le_pow2; lia). lia.
Qed.

(** Shifting a mantissa right divides it by a power of two. *)
Lemma shr_1_m (mrs : shr_record) :
  0 <= shr_m mrs -> shr_m (shr_1 mrs) = shr_m mrs / 2 /\ 0 <= shr_m (shr_1 mrs).
Proof.
  destruct mrs as [m r s]. simpl. intros Hm.
  destruct m as [| p | p]; [| | lia].
  - simpl. split; [reflexivity | lia].
  - destruct p as [p | p |]; simpl shr_m.
    + split; [| lia]. rewrite Pos2Z.inj_xI.
      apply Z.div_unique with 1; lia.
    + split; [| lia]. rewrite Pos2Z.inj_xO.
      apply Z.div_unique with 0; lia.
    + split; [reflexivity | lia].
Qed.

Lemma iter_pos_shr_m (n : positive) (mrs : shr_record) :
  0 <= shr_m mrs ->
  shr_m (iter_pos shr_1 n mrs) = shr_m mrs / 2 ^ Zpos n /\
  0 <= shr_m (iter_pos shr_1 n mrs).
Proof.
  revert mrs. induction n as [n IH | n IH |]; intros mrs Hm; simpl iter_pos.
  - destruct (shr_1_m mrs Hm) as [E1 P1].
    destruct (IH _ P1) as [E2 P2]. destruct (IH _ P2) as [E3 P3].
    split; [| exact P3]. rewrite E3, E2, E1.
    rewrite !Z.div_div by lia. f_equal.
    assert (H : Z.pos n~1 = 1 + Z.pos n + Z.pos n) by lia.
    rewrite H, !Z.pow_add_r by lia. change (2 ^ 1) with 2. ring.
  - destruct (IH _ Hm) as [E2 P2]. destruct (IH _ P2) as [E3 P3].
    split; [| exact P3]. rewrite E3, E2.
    rewrite !Z.div_div by lia. f_equal.
    assert (H : Z.pos n~0 = Z.pos n + Z.pos n) by lia.
    rewrite H, Z.pow_add_r by lia. reflexivity.
  - apply shr_1_m. exact Hm.
Qed.

Lemma shr_record_of_loc_m (m : Z) (l : location) : shr_m (shr_record_of_loc m l) = m.
Proof. destruct l as [| []]; reflexivity. Qed.

(** The mantissa and exponent after [shr_fexp]. *)
Lemma shr_fexp_spec (m e : Z) (l : location) :
  0 <= m ->
  let n := fexp F64.prec F64.emax (Zdigits2 m + e) - e in
  shr_m (fst (shr_fexp F64.prec F64.emax m e l)) = (if 0 <? n then m / 2 ^ n else m) /\
  snd (shr_fexp F64.prec F64.emax m e l) = (if 0 <? n then e + n else e) /\
  0 <= shr_m (fst (shr_fexp F64.prec F64.emax m e l)).
Proof.
  intros Hm n. unfold shr_fexp. fold n. unfold shr.
  destruct n as [| p | p] eqn:En; simpl Z.ltb; cbv iota; cbn [fst snd].
  - rewrite shr_record_of_loc_m. auto.
  - destruct (iter_pos_shr_m p (shr_record_of_loc m l)) as [E P].
    { now rewrite shr_record_of_loc_m. }
    rewrite shr_record_of_loc_m in E. auto.
  - rewrite shr_record_of_loc_m. auto.
Qed.

(** Rounding to nearest moves a truncated mantissa by one at most. *)
Lemma round_nearest_even_bounds (m : Z) (l : location) :
  m <= round_nearest_even m l <= m + 1.
Proof.
  unfold round_nearest_even. destruct l as [| []]; try lia.
  destruct (Z.even m); lia.
Qed.

Lemma round_nearest_even_exact (m : Z) : round_nearest_even m loc_Exact = m.
Proof. reflexivity. Qed.

(** [bounded]: the exponent is the one of the last place, and in range. *)
Lemma bounded_spec (m : positive) (e : Z) :
  bounded F64.prec F64.emax m e = true
  <-> fexp F64.prec F64.emax (digits m + e) = e /\ e <= 971.
Proof.
  unfold bounded, canonical_mantissa, digits.
  rewrite andb_true_iff, Z.eqb_eq, Z.leb_le. reflexivity.
Qed.

Lemma pow2_pos (k : Z) : 0 <= k -> 0 < 2 ^ k.
Proof. intros. apply Z.pow_pos_nonneg; lia. Qed.

(** Rounding an exact positive value below the largest double gives a
    finite double. *)
Lemma binary_round_aux_exact (s : bool) (p : positive) (e : Z) :
  -1074 <= e ->
  e <= fexp F64.prec F64.emax (digits p + e) ->
  Zpos p * 2 ^ (e + 1074) < max_scaled ->
  exists m' e',
    binary_round_aux F64.prec F64.emax s (Zpos p) e loc_Exact = S754_finite s m' e' /\
    bounded F64.prec F64.emax m' e' = true.
Proof.
  intros He Hpre Hmax.
  set (k := digits p + e) in *.
  set (fk := fexp F64.prec F64.emax k) in *.
  assert (Hfk : fk = Z.max (k - 53) (-1074)) by reflexivity.
  pose proof (digits_bounds p) as Hdig. pose proof (digits_pos p) as Hdpos.
  (* the exponent is below 1024 *)
  assert (He1024 : e < 1024).
  { assert (H2 : 2 ^ (e + 1074) < 2 ^ 2098).
    { assert (1 * 2 ^ (e + 1074) <= Zpos p * 2 ^ (e + 1074)).
      { apply Z.mul_le_mono_nonneg_r; [apply Z.lt_le_incl, pow2_pos |]; lia. }
      assert (max_scaled < 2 ^ 2098) by (vm_compute; reflexivity). lia. }
    apply Z.pow_lt_mono_r_iff in H2; lia. }
  assert (Hk : k <= 1024).
  { unfold k. assert (digits p <= 1024 - e); [| lia].
    apply digits_le; [lia |].
    assert (H : Zpos p * 2 ^ (e + 1074) < 2 ^ (1024 - e) * 2 ^ (e + 1074)).
    { rewrite <- Z.pow_add_r by lia. replace (1024 - e + (e + 1074)) with 2098 by lia.
      assert (max_scaled < 2 ^ 2098) by (vm_compute; reflexivity). lia. }
    apply Z.mul_lt_mono_pos_r in H; [exact H | apply pow2_pos; lia]. }
  set (n := fk - e).
  assert (Hn : 0 <= n) by (unfold n; lia).
  (* first shift *)
  destruct (shr_fexp_spec (Zpos p) e loc_Exact) as [Hm1 [He1 Hp1]]; [lia |].
  cbv zeta in Hm1, He1. change (Zdigits2 (Z.pos p)) with (digits p) in Hm1, He1.
  fold k in Hm1, He1. fold fk in Hm1, He1. fold n in Hm1, He1.
  assert (Hm1' : shr_m (fst (shr_fexp F64.prec F64.emax (Zpos p) e loc_Exact)) = Zpos p / 2 ^ n).
  { rewrite Hm1. destruct (0 <? n) eqn:E; [reflexivity |].
    apply Z.ltb_ge in E. assert (n = 0) by lia.
    replace n with 0 by lia. now rewrite Z.div_1_r. }
  assert (He1' : snd (shr_fexp F64.prec F64.emax (Zpos p) e loc_Exact) = fk).
  { rewrite He1. destruct (0 <? n) eqn:E; [unfold n; lia |].
    apply Z.ltb_ge in E. unfold n in *. lia. }
  clear Hm1 He1.
  unfold binary_round_aux.
  destruct (shr_fexp F64.prec F64.emax (Zpos p) e loc_Exact) as [mrs1 e1] eqn:E1.
  cbn [fst snd] in Hm1', He1', Hp1. subst e1.
  set (m1 := shr_m mrs1) in *.
  set (r1 := round_nearest_even m1 (loc_of_shr_record mrs1)).
  pose proof (round_nearest_even_bounds m1 (loc_of_shr_record mrs1)) as Hr1. fold r1 in Hr1.
  (* the size of the shifted mantissa *)
  assert (Hpow : 0 < 2 ^ n) by (apply pow2_pos; lia).
  assert (Hm1lo : 1 <= m1 /\ (-1074 <= k - 53 -> 2 ^ 52 <= m1 < 2 ^ 53) /\
                  (k - 53 < -1074 -> m1 < 2 ^ 52) /\
                  (k = 1024 -> m1 <= 2 ^ 53 - 2)).
  { rewrite Hm1'. split; [| split; [| split]].
    - apply Z.div_le_lower_bound; [lia |].
      destruct (Z.le_gt_cases (-1074) (k - 53)) as [Hc | Hc].
      + assert (n = digits p - 53) by (unfold n, k in *; lia).
        assert (2 ^ n <= 2 ^ (digits p - 1)) by (apply Z.pow_le_mono_r; lia). lia.
      + assert (n = 0) by (unfold n; lia). replace n with 0 by lia.
        change (2 ^ 0) with 1. lia.
    - intros Hc. assert (Hnd : n = digits p - 53) by (unfold n, k in *; lia).
      split.
      + apply Z.div_le_lower_bound; [lia |].
        rewrite <- Z.pow_add_r by lia. replace (n + 52) with (digits p - 1) by lia. lia.
      + apply Z.div_lt_upper_bound; [lia |].
        rewrite <- Z.pow_add_r by lia. replace (n + 53) with (digits p) by lia. lia.
    - intros Hc. assert (n = 0) by (unfold n; lia). replace n with 0 by lia.
      rewrite Z.div_1_r.
      assert (digits p < 53) by (unfold k in *; lia).
      assert (2 ^ digits p <= 2 ^ 52) by (apply Z.pow_le_mono_r; lia). lia.
    - intros Hc. assert (Hn971 : n = 971 - e) by (unfold n; lia).
      assert (Zpos p / 2 ^ n < 2 ^ 53 - 1); [| lia].
      apply Z.div_lt_upper_bound; [lia |].
      assert (H : Zpos p * 2 ^ (e + 1074) < 2 ^ n * (2 ^ 53 - 1) * 2 ^ (e + 1074)).
      { replace (2 ^ n * (2 ^ 53 - 1) * 2 ^ (e + 1074))
          with ((2 ^ 53 - 1) * (2 ^ n * 2 ^ (e + 1074))) by ring.
        rewrite <- Z.pow_add_r by lia. replace (n + (e + 1074)) with 2045 by lia.
        exact Hmax. }
      apply Z.mul_lt_mono_pos_r in H; [exact H | apply pow2_pos; lia]. }
  destruct Hm1lo as [Hm1pos [Hnorm [Hsub Htop]]].
  assert (Hr1pos : 1 <= r1) by lia.
  (* second shift *)
  destruct (shr_fexp_spec r1 fk loc_Exact) as [Hm2 [He2 Hp2]]; [lia |].
  cbv zeta in Hm2, He2.
  destruct (shr_fexp F64.prec F64.emax r1 fk loc_Exact) as [mrs2 e2] eqn:E2.
  cbn [fst snd] in Hm2, He2, Hp2.
  destruct r1 as [| q | q] eqn:Er1; [lia | | lia].
  change (Zdigits2 (Z.pos q)) with (digits q) in Hm2, He2.
  pose proof (digits_bounds q) as Hdq. pose proof (digits_pos q) as Hdqpos.
  destruct (Z.le_gt_cases (-1074) (k - 53)) as [Hc | Hc].
  - (* normal *)
    specialize (Hnorm Hc). assert (Hfk' : fk = k - 53) by lia.
    destruct (Z.eq_dec (Zpos q) (2 ^ 53)) as [Hcarry | Hno].
    + (* the rounding carries into a new binade *)
      assert (Hdq54 : digits q = 54).
      { assert (digits q <= 54) by (apply digits_le; [lia | rewrite Hcarry; reflexivity]).
        assert (53 < digits q) by (apply digits_ge; [lia | rewrite Hcarry; lia]). lia. }
      assert (k <> 1024) by (intros H; specialize (Htop H); lia).
      rewrite Hdq54 in Hm2, He2.
      assert (Hfx : fexp F64.prec F64.emax (54 + fk) = fk + 1) by (rewrite fexp64; lia).
      rewrite Hfx in Hm2, He2.
      replace (fk + 1 - fk) with 1 in Hm2, He2 by lia.
      change (0 <? 1) with true in Hm2, He2. cbv iota in Hm2, He2.
      rewrite Hcarry in Hm2. change (2 ^ 53 / 2 ^ 1) with (2 ^ 52) in Hm2.
      rewrite Hm2. change (2 ^ 52) with (Zpos (4503599627370496)).
      assert (Hle : (e2 <=? F64.emax - F64.prec) = true)
        by (apply Z.leb_le; unfold F64.emax, F64.prec; lia).
      rewrite Hle. eexists. eexists. split; [reflexivity |].
      apply bounded_spec. change (digits 4503599627370496) with 53.
      rewrite fexp64. lia.
    + assert (Hq53 : Zpos q < 2 ^ 53) by lia.
      assert (Hdq53 : digits q = 53).
      { assert (digits q <= 53) by (apply digits_le; lia).
        assert (52 < digits q) by (apply digits_ge; lia). lia. }
      rewrite Hdq53 in Hm2, He2.
      assert (Hfx : fexp F64.prec F64.emax (53 + fk) = fk) by (rewrite fexp64; lia).
      rewrite Hfx in Hm2, He2. rewrite Z.sub_diag in Hm2, He2.
      change (0 <? 0) with false in Hm2, He2. cbv iota in Hm2, He2.
      rewrite Hm2.
      assert (Hle : (e2 <=? F64.emax - F64.prec) = true)
        by (apply Z.leb_le; unfold F64.emax, F64.prec; lia).
      rewrite Hle. eexists. eexists. split; [reflexivity |].
      apply bounded_spec. rewrite Hdq53, fexp64. lia.
  - (* subnormal *)
    specialize (Hsub Hc). assert (Hfk' : fk = -1074) by lia.
    assert (Hdq53 : digits q <= 53) by (apply digits_le; lia).
    assert (Hfx : fexp F64.prec F64.emax (digits q + fk) = fk) by (rewrite fexp64; lia).
    rewrite Hfx in Hm2, He2. rewrite Z.sub_diag in Hm2, He2.
    change (0 <? 0) with false in Hm2, He2. cbv iota in Hm2, He2.
    rewrite Hm2.
    assert (Hle : (e2 <=? F64.emax - F64.prec) = true)
      by (apply Z.leb_le; unfold F64.emax, F64.prec; lia).
    rewrite Hle. eexists. eexists. split; [reflexivity |].
    apply bounded_spec. rewrite fexp64. lia.
Qed.

(** Shifting a mantissa left multiplies it by a power of two. *)
Lemma iter_xO_value (m d : positive) : Zpos (Pos.iter xO m d) = Zpos m * 2 ^ Zpos d.
Proof.
  revert m. induction d as [| d IH] using Pos.peano_ind; intros m.
  - simpl. lia.
  - rewrite Pos.iter_succ, Pos2Z.inj_xO, IH, Pos2Z.inj_succ, Z.pow_succ_r by lia. ring.
Qed.

Lemma digits_mul_pow2 (m q : positive) (d : Z) :
  0 <= d -> Zpos q = Zpos m * 2 ^ d -> digits q = digits m + d.
Proof.
  intros Hd H. rewrite !digits_log2, H, Z.log2_mul_pow2 by lia. lia.
Qed.

Lemma binary_round_exact (s : bool) (p : positive) (e : Z) :
  -1074 <= e ->
  scaled p e < max_scaled ->
  exists m' e',
    binary_round F64.prec F64.emax s p e = S754_finite s m' e' /\
    bounded F64.prec F64.emax m' e' = true.
Proof.
  intros He Hmax. unfold binary_round, shl_align.
  change (Z.pos (digits2_pos p)) with (digits p).
  set (fk := fexp F64.prec F64.emax (digits p + e)).
  assert (Hfk : fk = Z.max (digits p + e - 53) (-1074)) by reflexivity.
  destruct (fk - e) as [| d | d] eqn:Ed.
  - apply binary_round_aux_exact; auto. fold fk. lia.
  - apply binary_round_aux_exact; auto. fold fk. lia.
  - assert (Hde : Zpos d = e - fk) by lia.
    assert (Hv : Zpos (Pos.iter xO p d) = Zpos p * 2 ^ Zpos d) by apply iter_xO_value.
    assert (Hdg : digits (Pos.iter xO p d) = digits p + Zpos d)
      by (apply digits_mul_pow2; [lia | exact Hv]).
    apply binary_round_aux_exact.
    + lia.
    + rewrite Hdg. replace (digits p + Z.pos d + fk) with (digits p + e) by lia.
      fold fk. lia.
    + rewrite Hv. unfold scaled in Hmax.
      replace (Z.pos p * 2 ^ Z.pos d * 2 ^ (fk + 1074))
        with (Z.pos p * (2 ^ Z.pos d * 2 ^ (fk + 1074))) by ring.
      rewrite <- Z.pow_add_r by lia.
      replace (Z.pos d + (fk + 1074)) with (e + 1074) by lia. exact Hmax.
Qed.

(** What [bounded] says of the mantissa, the exponent and the value. *)
Lemma bounded_facts (m : positive) (e : Z) :
  bounded F64.prec F64.emax m e = true ->
  -1074 <= e <= 971 /\ digits m <= 53 /\ (-1074 < e -> digits m = 53) /\
  scaled m e <= max_scaled.
Proof.
  intros H. apply bounded_spec in H. destruct H as [Hc He].
  rewrite fexp64 in Hc.
  assert (H1 : -1074 <= e <= 971) by lia.
  assert (H2 : digits m <= 53) by lia.
  split; [exact H1 |]. split; [exact H2 |]. split; [lia |].
  unfold scaled, max_scaled.
  pose proof (digits_bounds m) as Hd.
  assert (Zpos m < 2 ^ 53).
  { assert (2 ^ digits m <= 2 ^ 53) by (apply Z.pow_le_mono_r; lia). lia. }
  assert (2 ^ (e + 1074) <= 2 ^ 2045) by (apply Z.pow_le_mono_r; lia).
  assert (0 < 2 ^ (e + 1074)) by (apply pow2_pos; lia).
  apply Z.mul_le_mono_nonneg; lia.
Qed.

(** The order of [SFcompare] on positive doubles is the order of the values. *)
Lemma compare_scaled (m1 m2 : positive) (e1 e2 : Z) :
  bounded F64.prec F64.emax m1 e1 = true ->
  bounded F64.prec F64.emax m2 e2 = true ->
  match (e1 ?= e2) with
  | Lt => Lt
  | Gt => Gt
  | Eq => Pos.compare_cont Eq m1 m2
  end = (scaled m1 e1 ?= scaled m2 e2).
Proof.
  intros H1 H2.
  destruct (bounded_facts _ _ H1) as [He1 [Hd1 [Hn1 _]]].
  destruct (bounded_facts _ _ H2) as [He2 [Hd2 [Hn2 _]]].
  pose proof (digits_bounds m1) as Hb1. pose proof (digits_bounds m2) as Hb2.
  assert (Hlt : forall ma mb ea eb,
             -1074 <= ea -> ea < eb -> digits ma <= 53 -> digits mb = 53 ->
             scaled ma ea < scaled mb eb).
  { intros ma mb ea eb Hea Hlt Hda Hdb. unfold scaled.
    pose proof (digits_bounds ma) as Ha. pose proof (digits_bounds mb) as Hb.
    rewrite Hdb in Hb. change (53 - 1) with 52 in Hb.
    assert (Zpos ma < 2 ^ 53).
    { assert (2 ^ digits ma <= 2 ^ 53) by (apply Z.pow_le_mono_r; lia). lia. }
    assert (Hp : 0 < 2 ^ (ea + 1074)) by (apply pow2_pos; lia).
    assert (Hstep : 2 ^ (eb + 1074) = 2 ^ (eb - ea - 1) * 2 * 2 ^ (ea + 1074)).
    { replace (2 ^ (eb - ea - 1) * 2) with (2 ^ (eb - ea - 1) * 2 ^ 1) by reflexivity.
      rewrite <- !Z.pow_add_r by lia. f_equal. lia. }
    assert (Hq : 1 <= 2 ^ (eb - ea - 1))
      by (assert (0 < 2 ^ (eb - ea - 1)) by (apply pow2_pos; lia); lia).
    rewrite Hstep.
    assert (Z.pos ma * 2 ^ (ea + 1074) < 2 ^ 53 * 2 ^ (ea + 1074))
      by (apply Z.mul_lt_mono_pos_r; lia).
    assert (2 ^ 53 * 2 ^ (ea + 1074) <= Z.pos mb * (2 ^ (eb - ea - 1) * 2 * 2 ^ (ea + 1074))).
    { replace (Z.pos mb * (2 ^ (eb - ea - 1) * 2 * 2 ^ (ea + 1074)))
        with ((Z.pos mb * 2 * 2 ^ (eb - ea - 1)) * 2 ^ (ea + 1074)) by ring.
      apply Z.mul_le_mono_nonneg_r; [lia |].
      change (2 ^ 53) with (2 ^ 52 * 2 * 1).
      apply Z.mul_le_mono_nonneg; lia. }
    lia. }
  destruct (e1 ?= e2) eqn:Ec.
  - apply Z.compare_eq in Ec. subst e2. unfold scaled.
    assert (Hp : 0 < 2 ^ (e1 + 1074)) by (apply pow2_pos; lia).
    change (Pos.compare_cont Eq m1 m2) with (Z.compare (Zpos m1) (Zpos m2)).
    symmetry.
    destruct (Z.compare_spec (Zpos m1) (Zpos m2)) as [E | E | E].
    + rewrite E. apply Z.compare_refl.
    + apply Z.compare_lt_iff. apply Z.mul_lt_mono_pos_r; lia.
    + apply Z.compare_gt_iff. apply Z.mul_lt_mono_pos_r; lia.
  - assert (e1 < e2) by (apply Z.compare_lt_iff; exact Ec).
    symmetry. apply Z.compare_lt_iff.
    apply Hlt; lia.
  - assert (e2 < e1) by (apply Z.compare_gt_iff; exact Ec).
    symmetry. apply Z.compare_gt_iff.
    apply Hlt; lia.
Qed.

End Binary64Rounding.

(** ** Binary64: the loop on doubles *)

Section Binary64Loop.

Local Open Scope Z_scope.

Lemma shl_align_scaled (m : positive) (e ez : Z) :
  -1074 <= ez -> ez <= e ->
  Zpos (fst (shl_align m e ez)) * 2 ^ (ez + 1074) = scaled m e.
Proof.
  intros Hz Hle. unfold shl_align, scaled.
  destruct (ez - e) as [| d | d] eqn:Ed; cbn [fst].
  - replace ez with e by lia. reflexivity.
  - lia.
  - rewrite iter_xO_value.
    replace (Z.pos m * 2 ^ Z.pos d * 2 ^ (ez + 1074))
      with (Z.pos m * (2 ^ Z.pos d * 2 ^ (ez + 1074))) by ring.
    rewrite <- Z.pow_add_r by lia. do 2 f_equal. lia.
Qed.

Lemma ltb_scaled (m1 m2 : positive) (e1 e2 : Z) :
  bounded F64.prec F64.emax m1 e1 = true ->
  bounded F64.prec F64.emax m2 e2 = true ->
  SFltb (S754_finite false m1 e1) (S754_finite false m2 e2)
  = (scaled m1 e1 <? scaled m2 e2).
Proof.
  intros H1 H2. unfold SFltb, SFcompare, Z.ltb.
  rewrite <- (compare_scaled _ _ _ _ H1 H2).
  destruct (e1 ?= e2); try reflexivity.
Qed.

Section Aligned.

Variables (md mc : positive) (ed ec : Z).
Hypothesis Hd : bounded F64.prec F64.emax md ed = true.
Hypothesis Hc : bounded F64.prec F64.emax mc ec = true.

Let ez := Z.min ed ec.
Let Ad := Zpos (fst (shl_align md ed ez)).
Let Ac := Zpos (fst (shl_align mc ec ez)).

Lemma aligned_facts :
  -1074 <= ez /\ 0 < 2 ^ (ez + 1074) /\
  Ad * 2 ^ (ez + 1074) = scaled md ed /\
  Ac * 2 ^ (ez + 1074) = scaled mc ec /\
  scaled md ed <= max_scaled /\ scaled mc ec <= max_scaled.
Proof.
  destruct (bounded_facts _ _ Hd) as [He1 [_ [_ Hm1]]].
  destruct (bounded_facts _ _ Hc) as [He2 [_ [_ Hm2]]].
  assert (Hz : -1074 <= ez) by (unfold ez; lia).
  split; [exact Hz |]. split; [apply pow2_pos; lia |].
  split; [apply shl_align_scaled; unfold ez; lia |].
  split; [apply shl_align_scaled; unfold ez; lia |].
  split; assumption.
Qed.

(** A creditor owed less than the debtor owes: the debtor stays a debtor. *)
Lemma add_debtor_creditor :
  SFltb (S754_finite false mc ec) (S754_finite false md ed) = true ->
  neg_double (F64.add (S754_finite true md ed) (S754_finite false mc ec)) = true.
Proof.
  intros Hlt. rewrite (ltb_scaled _ _ _ _ Hc Hd) in Hlt.
  apply Z.ltb_lt in Hlt.
  destruct aligned_facts as [Hz [Hp [HAd [HAc [Hmd Hmc]]]]].
  unfold F64.add, SFadd. fold ez. fold Ad. fold Ac. cbn [cond_Zopp].
  assert (Hcmp : Ac < Ad) by nia.
  destruct (- Ad + Ac) as [| q | q] eqn:Eq; try lia.
  unfold binary_normalize.
  destruct (binary_round_exact true q ez Hz) as [m' [e' [Hr Hb]]].
  - unfold scaled. assert (Zpos q = Ad - Ac) by lia.
    assert (Z.pos q * 2 ^ (ez + 1074) = scaled md ed - scaled mc ec) by nia.
    assert (0 < scaled mc ec) by (unfold scaled; nia).
    lia.
  - rewrite Hr. exact Hb.
Qed.

(** A creditor owed at least what the debtor owes: the creditor is paid
    off exactly or stays a creditor. *)
Lemma sub_creditor_debtor :
  SFltb (S754_finite false mc ec) (S754_finite false md ed) = false ->
  F64.sub (S754_finite false mc ec) (S754_finite false md ed) = S754_zero false \/
  pos_double (F64.sub (S754_finite false mc ec) (S754_finite false md ed)) = true.
Proof.
  intros Hge. rewrite (ltb_scaled _ _ _ _ Hc Hd) in Hge.
  apply Z.ltb_ge in Hge.
  destruct aligned_facts as [Hz [Hp [HAd [HAc [Hmd Hmc]]]]].
  unfold F64.sub, SFsub.
  replace (Z.min ec ed) with ez by (unfold ez; lia).
  fold Ad. fold Ac. cbn [cond_Zopp].
  assert (Hcmp : Ad <= Ac) by nia.
  destruct (Ac - Ad) as [| q | q] eqn:Eq; try lia.
  - left. reflexivity.
  - right. unfold binary_normalize.
    destruct (binary_round_exact false q ez Hz) as [m' [e' [Hr Hb]]].
    + unfold scaled. assert (Zpos q = Ac - Ad) by lia.
      assert (Z.pos q * 2 ^ (ez + 1074) = scaled mc ec - scaled md ed) by nia.
      assert (0 < scaled md ed) by (unfold scaled; nia).
      lia.
    + rewrite Hr. exact Hb.
Qed.

End Aligned.

(** ** The loop on finite doubles *)

Lemma debtor_neg_double (x : F64.t) :
  finite_double x = true -> f_ltb x (of_int 0) = true -> neg_double x = true.
Proof.
  destruct x as [s | s | | s m e]; cbn [finite_double neg_double]; try discriminate.
  intros Hb H. destruct s; [exact Hb | vm_compute in H; discriminate H].
Qed.

Lemma creditor_pos_double (x : F64.t) :
  finite_double x = true -> f_ltb (of_int 0) x = true -> pos_double x = true.
Proof.
  destruct x as [s | s | | s m e]; cbn [finite_double pos_double]; try discriminate.
  intros Hb H. destruct s; [vm_compute in H; discriminate H | exact Hb].
Qed.

Lemma zero_within :
  @f_ltb F64.t _ (@f_abs F64.t _ (S754_zero false)) lit_1e_6 = true.
Proof. vm_compute. reflexivity. Qed.

(** One pass on a debtor and a creditor that are doubles of the right
    sign: the payment is positive, one of the two is paid off exactly, and
    the other stays on its side or is paid off as well. *)
Lemma pay_spec_F64 (bd bc : F64.t) :
  neg_double bd = true -> pos_double bc = true ->
  let pay := py_min (f_neg bd) bc in
  pos_double pay = true /\
  (neg_double (f_add bd pay) = true \/ f_add bd pay = S754_zero false) /\
  (pos_double (f_sub bc pay) = true \/ f_sub bc pay = S754_zero false) /\
  (f_add bd pay = S754_zero false \/ f_sub bc pay = S754_zero false).
Proof.
  destruct bd as [| | | sd md ed]; try discriminate.
  destruct sd; try discriminate.
  destruct bc as [| | | sc mc ec]; try discriminate.
  destruct sc; try discriminate.
  cbn [neg_double pos_double]. intros Hd Hc.
  unfold py_min. cbn [f_neg f_ltb f_add f_sub F64_Arith F64.neg SFopp negb].
  unfold F64.ltb.
  destruct (SFltb (S754_finite false mc ec) (S754_finite false md ed)) eqn:E.
  - split; [exact Hc |].
    destruct (F64_cancel (S754_finite false mc ec) eq_refl) as [_ Hz].
    split; [left; now apply add_debtor_creditor |].
    split; right; exact Hz.
  - split; [exact Hd |].
    destruct (F64_cancel (S754_finite true md ed) eq_refl) as [Hz _].
    cbn [F64.neg SFopp negb] in Hz.
    split; [right; exact Hz |].
    split; [| left; exact Hz].
    destruct (sub_creditor_debtor md mc ed ec Hd Hc E) as [H | H]; [right | left]; exact H.
Qed.

Lemma f64_inv_step (D C : nat) (s : loop_state F64.t) (d c : brow F64.t) :
  f64_inv D C s ->
  nth_error (st_debtors s) (st_i s) = Some d ->
  nth_error (st_creditors s) (st_j s) = Some c ->
  f64_inv D C (loop_body d c s) /\
  (passes_left (loop_body d c s) < passes_left s)%nat.
Proof.
  intros Inv Hd Hc.
  pose proof (f64_nodup_d Inv) as Hndd. pose proof (f64_nodup_c Inv) as Hndc.
  assert (Hbd : neg_double (Balance d) = true)
    by (apply (f64_debtors Inv Hd); apply Nat.le_refl).
  assert (Hbc : pos_double (Balance c) = true)
    by (apply (f64_creditors Inv Hc); apply Nat.le_refl).
  assert (HiD : (st_i s < D)%nat).
  { rewrite <- (f64_len_d Inv). apply nth_error_Some. congruence. }
  assert (HjC : (st_j s < C)%nat).
  { rewrite <- (f64_len_c Inv). apply nth_error_Some. congruence. }
  pose proof (loop_body_i c s Hndd Hd) as Hi'.
  pose proof (loop_body_j d s Hndc Hc) as Hj'.
  pose proof (loop_body_debtors d c s) as Hds.
  pose proof (loop_body_creditors d c s) as Hcs.
  pose proof (loop_body_suggestions d c s) as Hsg.
  destruct (pay_spec_F64 _ _ Hbd Hbc) as [Hpay [Hd' [Hc' Hzero]]].
  set (pay := py_min (f_neg (Balance d)) (Balance c)) in *.
  set (s' := loop_body d c s) in *.
  assert (Hi_cases :
            st_i s' = S (st_i s) \/
            (st_i s' = st_i s /\ neg_double (f_add (Balance d) pay) = true)).
  { destruct Hd' as [Hn | Hz].
    - destruct (f_ltb (f_abs (f_add (Balance d) pay)) lit_1e_6); [left | right; split];
        assumption.
    - left. rewrite Hz, zero_within in Hi'. exact Hi'. }
  assert (Hj_cases :
            st_j s' = S (st_j s) \/
            (st_j s' = st_j s /\ pos_double (f_sub (Balance c) pay) = true)).
  { destruct Hc' as [Hn | Hz].
    - destruct (f_ltb (f_abs (f_sub (Balance c) pay)) lit_1e_6); [left | right; split];
        assumption.
    - left. rewrite Hz, zero_within in Hj'. exact Hj'. }
  assert (Hmove : (st_i s' = S (st_i s) \/ st_j s' = S (st_j s))).
  { destruct Hzero as [Hz | Hz].
    - left. rewrite Hz, zero_within in Hi'. exact Hi'.
    - right. rewrite Hz, zero_within in Hj'. exact Hj'. }
  assert (Hlen_d : length (st_debtors s') = D)
    by (rewrite Hds, length_at_update; apply (f64_len_d Inv)).
  assert (Hlen_c : length (st_creditors s') = C)
    by (rewrite Hcs, length_at_update; apply (f64_len_c Inv)).
  split.
  - constructor.
    + rewrite Hds, labels_at_update. exact Hndd.
    + rewrite Hcs, labels_at_update. exact Hndc.
    + exact Hlen_d.
    + exact Hlen_c.
    + destruct Hi_cases as [H | [H _]]; rewrite H; lia.
    + destruct Hj_cases as [H | [H _]]; rewrite H; lia.
    + intros k r Hk Hge. rewrite Hds in Hk.
      destruct (Nat.eq_dec k (st_i s)) as [-> | Hne].
      * rewrite (nth_error_at_update_same _ _ _ Hd) in Hk.
        inversion Hk; subst r. cbn [set_Balance Balance].
        destruct Hi_cases as [H | [H Hn]]; [rewrite H in Hge; lia | exact Hn].
      * rewrite (nth_error_at_update_other _ _ Hndd Hd Hne) in Hk.
        apply (f64_debtors Inv Hk).
        destruct Hi_cases as [H | [H _]]; rewrite H in Hge; lia.
    + intros k r Hk Hge. rewrite Hcs in Hk.
      destruct (Nat.eq_dec k (st_j s)) as [-> | Hne].
      * rewrite (nth_error_at_update_same _ _ _ Hc) in Hk.
        inversion Hk; subst r. cbn [set_Balance Balance].
        destruct Hj_cases as [H | [H Hn]]; [rewrite H in Hge; lia | exact Hn].
      * rewrite (nth_error_at_update_other _ _ Hndc Hc Hne) in Hk.
        apply (f64_creditors Inv Hk).
        destruct Hj_cases as [H | [H _]]; rewrite H in Hge; lia.
    + rewrite Hsg. apply Forall_app. split; [apply (f64_pay Inv) |].
      constructor; [exact Hpay | constructor].
    + rewrite Hsg, length_app. cbn [length].
      destruct (f64_count Inv) as [H1 H2].
      split; [destruct Hmove as [H | H]; destruct Hi_cases as [Hi | [Hi _]];
              destruct Hj_cases as [Hj | [Hj _]]; lia | lia].
  - unfold passes_left. rewrite Hlen_d, Hlen_c, (f64_len_d Inv), (f64_len_c Inv).
    destruct Hmove as [H | H]; destruct Hi_cases as [Hi | [Hi _]];
      destruct Hj_cases as [Hj | [Hj _]]; lia.
Qed.

Section OnDoubles.

Variable bs : list (brow F64.t).
Hypothesis bs_labels : NoDup (map (@label F64.t) bs).
Hypothesis bs_finite : forallb (fun r => finite_double (Balance r)) bs = true.

Let D := length (debtors_of bs).
Let C := length (creditors_of bs).

Lemma initial_f64_inv : f64_inv D C (initial_state bs).
Proof.
  assert (Hfin : forall r, In r bs -> finite_double (Balance r) = true).
  { intros r Hr. rewrite forallb_forall in bs_finite. now apply bs_finite. }
  constructor; cbn [initial_state st_i st_j st_debtors st_creditors st_suggestions].
  - now apply NoDup_labels_filter.
  - now apply NoDup_labels_filter.
  - reflexivity.
  - reflexivity.
  - lia.
  - lia.
  - intros k r Hk _.
    apply nth_error_In in Hk. apply filter_In in Hk. destruct Hk as [Hin Hk].
    apply debtor_neg_double; [now apply Hfin | exact Hk].
  - intros k r Hk _.
    apply nth_error_In in Hk. apply filter_In in Hk. destruct Hk as [Hin Hk].
    apply creditor_pos_double; [now apply Hfin | exact Hk].
  - constructor.
  - simpl. lia.
Qed.

Lemma settle_loop_F64 :
  exists s,
    settle_loop (D + C) (initial_state bs) = Some s /\
    f64_inv D C s /\
    ((D <= st_i s)%nat \/ (C <= st_j s)%nat).
Proof.
  assert (H : exists s, settle_loop (D + C) (initial_state bs) = Some s /\
                        f64_inv D C s).
  { apply settle_loop_terminates.
    - intros s d c. apply f64_inv_step.
    - apply initial_f64_inv.
    - unfold passes_left. simpl. fold D C. lia. }
  destruct H as [s [Hrun Hinv]].
  exists s. split; [exact Hrun |]. split; [exact Hinv |].
  destruct (settle_loop_exit _ _ Hrun) as [H | H];
    apply nth_error_None in H; [left | right].
  - now rewrite <- (f64_len_d Hinv).
  - now rewrite <- (f64_len_c Hinv).
Qed.

End OnDoubles.

End Binary64Loop.

(** * Binary64: every value of the format *)

(** ** Rounding *)

Section Binary64General.

Local Open Scope Z_scope.
Local Unset Implicit Arguments.

(** The second half of [binary_round_aux]: the rounded mantissa is put
    back in normal form, and the exponent is checked. *)
Lemma round_second_stage (s : bool) (r1 fk : Z) :
  -1074 <= fk -> 0 <= r1 ->
  (fk = -1074 /\ r1 <= 2 ^ 52) \/ (2 ^ 52 <= r1 <= 2 ^ 53) ->
  round_result s (r1 * 2 ^ (fk + 1074))
    (let '(mrs2, e2) := shr_fexp F64.prec F64.emax r1 fk loc_Exact in
     match shr_m mrs2 with
     | Z0 => S754_zero s
     | Zpos m => if e2 <=? F64.emax - F64.prec then S754_finite s m e2
                 else S754_infinity s
     | Zneg _ => S754_nan
     end).
Proof.
  intros Hfk Hr1 Hsize.
  destruct (shr_fexp_spec r1 fk loc_Exact Hr1) as [Hm2 [He2 Hp2]].
  cbv zeta in Hm2, He2.
  destruct (shr_fexp F64.prec F64.emax r1 fk loc_Exact) as [mrs2 e2] eqn:E2.
  cbn [fst snd] in Hm2, He2, Hp2.
  destruct r1 as [| q | q]; [| | lia].
  - (* the mantissa is zero *)
    change (Zdigits2 0) with 0 in Hm2, He2.
    assert (Hn : (0 <? fexp F64.prec F64.emax (0 + fk) - fk) = false).
    { apply Z.ltb_ge. rewrite fexp64. lia. }
    rewrite Hn in Hm2. rewrite Hm2. cbn [round_result]. split; [reflexivity | lia].
  - change (Zdigits2 (Z.pos q)) with (digits q) in Hm2, He2.
    pose proof (digits_bounds q) as Hdq. pose proof (digits_pos q) as Hdqpos.
    destruct (Z.eq_dec (Zpos q) (2 ^ 53)) as [Hcarry | Hno].
    + (* the rounding carried into a new binade *)
      assert (Hdq54 : digits q = 54).
      { assert (digits q <= 54) by (apply digits_le; [lia | rewrite Hcarry; reflexivity]).
        assert (53 < digits q) by (apply digits_ge; [lia | rewrite Hcarry; lia]). lia. }
      rewrite Hdq54 in Hm2, He2.
      assert (Hfx : fexp F64.prec F64.emax (54 + fk) = fk + 1) by (rewrite fexp64; lia).
      rewrite Hfx in Hm2, He2.
      replace (fk + 1 - fk) with 1 in Hm2, He2 by lia.
      change (0 <? 1) with true in Hm2, He2. cbv iota in Hm2, He2.
      rewrite Hcarry in Hm2. change (2 ^ 53 / 2 ^ 1) with (2 ^ 52) in Hm2.
      rewrite Hm2. change (2 ^ 52) with (Zpos (4503599627370496)).
      assert (Hval : scaled 4503599627370496 e2 = Z.pos q * 2 ^ (fk + 1074)).
      { unfold scaled. rewrite Hcarry, He2.
        replace (fk + 1 + 1074) with (1 + (fk + 1074)) by lia.
        rewrite Z.pow_add_r by lia. change (Z.pos 4503599627370496) with (2 ^ 52).
        change (2 ^ 53) with (2 ^ 52 * 2 ^ 1). ring. }
      destruct (e2 <=? F64.emax - F64.prec) eqn:Ele; cbn [round_result].
      * apply Z.leb_le in Ele. unfold F64.emax, F64.prec in Ele.
        split; [reflexivity |]. split; [| exact Hval].
        apply bounded_spec. change (digits 4503599627370496) with 53.
        rewrite fexp64. lia.
      * apply Z.leb_gt in Ele. unfold F64.emax, F64.prec in Ele.
        split; [reflexivity |]. rewrite <- Hval. unfold scaled, max_scaled.
        assert (2 ^ 2046 <= 2 ^ (e2 + 1074)) by (apply Z.pow_le_mono_r; lia).
        change (Z.pos 4503599627370496) with (2 ^ 52).
        assert ((2 ^ 53 - 1) * 2 ^ 2045 < 2 ^ 52 * 2 ^ 2046) by (vm_compute; reflexivity).
        assert (2 ^ 52 * 2 ^ 2046 <= 2 ^ 52 * 2 ^ (e2 + 1074))
          by (apply Z.mul_le_mono_nonneg_l; lia).
        lia.
    + assert (Hd53 : digits q <= 53) by (apply digits_le; lia).
      assert (Hfx : fexp F64.prec F64.emax (digits q + fk) = fk).
      { rewrite fexp64. destruct Hsize as [[Hs _] | [Hs _]]; [lia |].
        assert (52 < digits q) by (apply digits_ge; lia). lia. }
      rewrite Hfx in Hm2, He2. rewrite Z.sub_diag in Hm2, He2.
      change (0 <? 0) with false in Hm2, He2. cbv iota in Hm2, He2.
      rewrite Hm2. subst e2.
      destruct (fk <=? F64.emax - F64.prec) eqn:Ele; cbn [round_result].
      * apply Z.leb_le in Ele. unfold F64.emax, F64.prec in Ele.
        split; [reflexivity |]. split; [| reflexivity].
        apply bounded_spec. rewrite Hfx. lia.
      * apply Z.leb_gt in Ele. unfold F64.emax, F64.prec in Ele.
        split; [reflexivity |].
        destruct Hsize as [[Hs _] | [Hs _]]; [lia |].
        unfold max_scaled.
        assert (2 ^ 2046 <= 2 ^ (fk + 1074)) by (apply Z.pow_le_mono_r; lia).
        assert ((2 ^ 53 - 1) * 2 ^ 2045 < 2 ^ 52 * 2 ^ 2046) by (vm_compute; reflexivity).
        assert (2 ^ 52 * 2 ^ 2046 <= Z.pos q * 2 ^ (fk + 1074))
          by (apply Z.mul_le_mono_nonneg; lia).
        lia.
Qed.

(** [binary_round_aux] on a mantissa that is long enough for its exponent:
    the mantissa is cut to the last place of the format, rounded by one at
    most, and the result is a value of the format with the sign [s]. *)
Lemma binary_round_aux_spec (s : bool) (m e : Z) (l : location) :
  0 <= m ->
  e <= fexp F64.prec F64.emax (Zdigits2 m + e) ->
  let e1 := fexp F64.prec F64.emax (Zdigits2 m + e) in
  exists r,
    m / 2 ^ (e1 - e) <= r <= m / 2 ^ (e1 - e) + 1 /\
    (l = loc_Exact -> e1 = e -> r = m) /\
    round_result s (r * 2 ^ (e1 + 1074)) (binary_round_aux F64.prec F64.emax s m e l).
Proof.
  intros Hm Hpre e1.
  set (n := e1 - e).
  assert (Hn : 0 <= n) by (unfold n, e1; lia).
  assert (He1 : -1074 <= e1) by (unfold e1; rewrite fexp64; lia).
  destruct (shr_fexp_spec m e l Hm) as [Hm1 [Hx1 Hp1]].
  cbv zeta in Hm1, Hx1. fold e1 in Hm1, Hx1. fold n in Hm1, Hx1.
  assert (Hm1' : shr_m (fst (shr_fexp F64.prec F64.emax m e l)) = m / 2 ^ n).
  { rewrite Hm1. destruct (0 <? n) eqn:E; [reflexivity |].
    apply Z.ltb_ge in E. replace n with 0 by lia. now rewrite Z.div_1_r. }
  assert (Hx1' : snd (shr_fexp F64.prec F64.emax m e l) = e1).
  { rewrite Hx1. destruct (0 <? n) eqn:E; [unfold n; lia |].
    apply Z.ltb_ge in E. unfold n in *. lia. }
  clear Hm1 Hx1.
  unfold binary_round_aux.
  destruct (shr_fexp F64.prec F64.emax m e l) as [mrs1 x1] eqn:E1.
  cbn [fst snd] in Hm1', Hx1', Hp1. subst x1.
  set (m1 := shr_m mrs1) in *.
  set (r1 := round_nearest_even m1 (loc_of_shr_record mrs1)).
  pose proof (round_nearest_even_bounds m1 (loc_of_shr_record mrs1)) as Hr1.
  fold r1 in Hr1.
  exists r1. split; [rewrite <- Hm1'; exact Hr1 |].
  split.
  { intros Hl Hee. unfold shr_fexp in E1. fold e1 in E1. rewrite Hee, Z.sub_diag in E1.
    cbn [shr] in E1. inversion E1; subst mrs1. subst l.
    unfold r1, m1. reflexivity. }
  assert (Hpow : 0 < 2 ^ n) by (apply pow2_pos; lia).
  apply round_second_stage; [exact He1 | lia |].
  destruct m as [| p | p]; [| | lia].
  - (* a zero mantissa *)
    left. change (Zdigits2 0) with 0 in e1, Hpre.
    assert (e1 = -1074).
    { unfold e1 in *. rewrite fexp64 in Hpre. rewrite fexp64. lia. }
    split; [assumption |].
    assert (m1 = 0) by (rewrite Hm1'; apply Z.div_0_l; lia). lia.
  - change (Zdigits2 (Z.pos p)) with (digits p) in e1.
    pose proof (digits_bounds p) as Hdig. pose proof (digits_pos p) as Hdpos.
    assert (Hfk : e1 = Z.max (digits p + e - 53) (-1074)) by reflexivity.
    destruct (Z.le_gt_cases (-1074) (digits p + e - 53)) as [Hc | Hc].
    + right. assert (Hnd : n = digits p - 53) by (unfold n; lia).
      assert (2 ^ 52 <= m1 < 2 ^ 53); [| lia].
      rewrite Hm1'. split.
      * apply Z.div_le_lower_bound; [lia |].
        rewrite <- Z.pow_add_r by lia. replace (n + 52) with (digits p - 1) by lia. lia.
      * apply Z.div_lt_upper_bound; [lia |].
        rewrite <- Z.pow_add_r by lia. replace (n + 53) with (digits p) by lia. lia.
    + left. split; [lia |].
      assert (m1 < 2 ^ 52); [| lia].
      rewrite Hm1'. apply Z.div_lt_upper_bound; [lia |].
      destruct (Z.le_gt_cases (digits p) (n + 52)) as [Hle | Hgt].
      * rewrite <- Z.pow_add_r by lia.
        assert (2 ^ digits p <= 2 ^ (n + 52)) by (apply Z.pow_le_mono_r; lia). lia.
      * unfold n in Hgt. lia.
Qed.

End Binary64General.

Section Binary64Valid.

Local Open Scope Z_scope.
Local Unset Implicit Arguments.

Lemma round_result_double (s : bool) (R : Z) (x : F64.t) :
  round_result s R x -> is_double x = true.
Proof.
  destruct x as [s' | s' | | s' m e]; unfold is_double;
    cbn [round_result valid_binary]; intros H; try reflexivity; try contradiction.
  apply H.
Qed.

Lemma last_place_scaled (p : positive) (e : Z) :
  -1074 <= e ->
  last_place (scaled p e) = 2 ^ (fexp F64.prec F64.emax (digits p + e) + 1074).
Proof.
  intros He. unfold last_place, scaled.
  rewrite Z.log2_mul_pow2 by lia. rewrite fexp64, digits_log2. f_equal. lia.
Qed.

Lemma last_place_pos (v : Z) : 0 < last_place v.
Proof. unfold last_place. apply pow2_pos. lia. Qed.

(** [binary_round]: the magnitude is cut to its last place and moved by
    one unit at most; a mantissa of 53 digits or fewer is not moved. *)
Lemma binary_round_spec (s : bool) (p : positive) (e : Z) :
  -1074 <= e ->
  let v := scaled p e in
  let U := last_place v in
  exists r,
    v / U <= r <= v / U + 1 /\
    (digits p <= 53 -> r * U = v) /\
    round_result s (r * U) (binary_round F64.prec F64.emax s p e).
Proof.
  intros He v U.
  assert (HU : U = 2 ^ (fexp F64.prec F64.emax (digits p + e) + 1074))
    by (apply last_place_scaled; exact He).
  unfold binary_round, shl_align.
  change (Z.pos (digits2_pos p)) with (digits p).
  set (fk := fexp F64.prec F64.emax (digits p + e)) in *.
  assert (Hfk : fk = Z.max (digits p + e - 53) (-1074)) by reflexivity.
  assert (Hcase : e <= fk ->
            exists r, v / U <= r <= v / U + 1 /\ (digits p <= 53 -> r * U = v) /\
              round_result s (r * U)
                (binary_round_aux F64.prec F64.emax s (Z.pos p) e loc_Exact)).
  { intros Hle.
    destruct (binary_round_aux_spec s (Zpos p) e loc_Exact) as [r [Hb [Hex Hr]]].
    - lia.
    - change (Zdigits2 (Z.pos p)) with (digits p). fold fk. exact Hle.
    - change (Zdigits2 (Z.pos p)) with (digits p) in Hb, Hex, Hr. fold fk in Hb, Hex, Hr.
      exists r. rewrite HU.
      assert (Hdiv : v / 2 ^ (fk + 1074) = Z.pos p / 2 ^ (fk - e)).
      { unfold v, scaled.
        replace (2 ^ (fk + 1074)) with (2 ^ (fk - e) * 2 ^ (e + 1074)).
        - apply Z.div_mul_cancel_r; apply Z.pow_nonzero; lia.
        - rewrite <- Z.pow_add_r by lia. f_equal. lia. }
      rewrite Hdiv. split; [exact Hb |]. split; [| exact Hr].
      intros Hd. assert (fk = e) by lia.
      rewrite (Hex eq_refl H). unfold v, scaled. now rewrite H. }
  destruct (fk - e) as [| d | d] eqn:Ed.
  - apply Hcase. lia.
  - apply Hcase. lia.
  - assert (Hde : Zpos d = e - fk) by lia.
    assert (Hv : Zpos (Pos.iter xO p d) = Zpos p * 2 ^ Zpos d) by apply iter_xO_value.
    assert (Hdg : digits (Pos.iter xO p d) = digits p + Zpos d)
      by (apply digits_mul_pow2; [lia | exact Hv]).
    destruct (binary_round_aux_spec s (Zpos (Pos.iter xO p d)) fk loc_Exact)
      as [r [Hb [Hex Hr]]].
    + lia.
    + change (Zdigits2 (Z.pos (Pos.iter xO p d))) with (digits (Pos.iter xO p d)).
      rewrite Hdg. replace (digits p + Z.pos d + fk) with (digits p + e) by lia.
      fold fk. lia.
    + change (Zdigits2 (Z.pos (Pos.iter xO p d))) with (digits (Pos.iter xO p d))
        in Hb, Hex, Hr.
      rewrite Hdg in Hb, Hex, Hr.
      replace (digits p + Z.pos d + fk) with (digits p + e) in Hb, Hex, Hr by lia.
      fold fk in Hb, Hex, Hr.
      specialize (Hex eq_refl eq_refl).
      assert (HrU : r * U = v).
      { rewrite Hex, Hv, HU. unfold v, scaled.
        replace (e + 1074) with (Z.pos d + (fk + 1074)) by lia.
        rewrite (Z.pow_add_r 2 (Z.pos d) (fk + 1074)) by lia. ring. }
      exists r. rewrite <- HU in Hr.
      split; [| split; [intros _; exact HrU | exact Hr]].
      rewrite <- HrU. rewrite Z.div_mul by (rewrite HU; apply Z.pow_nonzero; lia). lia.
Qed.

(** [binary_normalize] of a non-zero integer at an exponent of the format. *)
Lemma binary_normalize_spec (z ez : Z) :
  -1074 <= ez -> z <> 0 ->
  let v := Z.abs z * 2 ^ (ez + 1074) in
  let U := last_place v in
  exists r,
    v / U <= r <= v / U + 1 /\
    (Z.abs z < 2 ^ 53 -> r * U = v) /\
    round_result (z <? 0) (r * U) (binary_normalize F64.prec F64.emax z ez false).
Proof.
  intros He Hz v U.
  destruct z as [| p | p]; [contradiction | |]; cbn [binary_normalize Z.abs] in *.
  - destruct (binary_round_spec false p ez He) as [r [H1 [H2 H3]]].
    exists r. split; [exact H1 |]. split; [| exact H3].
    intros Hlt. apply H2. apply digits_le; lia.
  - destruct (binary_round_spec true p ez He) as [r [H1 [H2 H3]]].
    exists r. split; [exact H1 |]. split; [| exact H3].
    intros Hlt. apply H2. apply digits_le; lia.
Qed.

Lemma binary_normalize_double (z ez : Z) (sz : bool) :
  -1074 <= ez -> is_double (binary_normalize F64.prec F64.emax z ez sz) = true.
Proof.
  intros He. destruct z as [| p | p]; [reflexivity | |]; cbn [binary_normalize].
  - destruct (binary_round_spec false p ez He) as [r [_ [_ H]]].
    exact (round_result_double _ _ _ H).
  - destruct (binary_round_spec true p ez He) as [r [_ [_ H]]].
    exact (round_result_double _ _ _ H).
Qed.

Lemma of_Z_double (z : Z) : is_double (F64.of_Z z) = true.
Proof. apply binary_normalize_double. lia. Qed.

Lemma is_double_exponent (s : bool) (m : positive) (e : Z) :
  is_double (S754_finite s m e) = true -> -1074 <= e.
Proof. intros H. apply bounded_facts in H. lia. Qed.

Lemma add_double (x y : F64.t) :
  is_double x = true -> is_double y = true -> is_double (F64.add x y) = true.
Proof.
  intros Hx Hy.
  destruct x as [sx | sx | | sx mx ex]; destruct y as [sy | sy | | sy my ey];
    try reflexivity; try exact Hx; try exact Hy;
    try (destruct sx, sy; reflexivity).
  unfold F64.add, SFadd. apply binary_normalize_double.
  apply is_double_exponent in Hx. apply is_double_exponent in Hy. lia.
Qed.

Lemma sub_double (x y : F64.t) :
  is_double x = true -> is_double y = true -> is_double (F64.sub x y) = true.
Proof.
  intros Hx Hy.
  destruct x as [sx | sx | | sx mx ex]; destruct y as [sy | sy | | sy my ey];
    try reflexivity; try exact Hx; try exact Hy;
    try (destruct sx, sy; reflexivity).
  unfold F64.sub, SFsub. apply binary_normalize_double.
  apply is_double_exponent in Hx. apply is_double_exponent in Hy. lia.
Qed.

Lemma fexp_mono (a b : Z) :
  a <= b -> fexp F64.prec F64.emax a <= fexp F64.prec F64.emax b.
Proof. intros H. rewrite !fexp64. lia. Qed.

(** The quotient of [SFdiv_core_binary] is long enough for its exponent. *)
Lemma div_core_spec (m1 m2 : positive) (e1 e2 : Z) :
  let '(q, e', l) := SFdiv_core_binary F64.prec F64.emax (Zpos m1) e1 (Zpos m2) e2 in
  0 <= q /\ e' <= fexp F64.prec F64.emax (Zdigits2 q + e').
Proof.
  unfold SFdiv_core_binary.
  change (Zdigits2 (Z.pos m1)) with (digits m1).
  change (Zdigits2 (Z.pos m2)) with (digits m2).
  set (D := digits m1 + e1 - (digits m2 + e2)).
  set (e' := Z.min (fexp F64.prec F64.emax D) (e1 - e2)).
  set (s := e1 - e2 - e').
  assert (Hs : 0 <= s) by (unfold s, e'; lia).
  set (m' := match s with
             | 0 => Z.pos m1
             | Z.pos _ => Z.shiftl (Z.pos m1) s
             | Z.neg _ => 0
             end).
  assert (Hm' : m' = Zpos m1 * 2 ^ s).
  { unfold m'. destruct s as [| p | p] eqn:Es.
    - simpl. lia.
    - apply Z.shiftl_mul_pow2. lia.
    - lia. }
  pose proof (Z_div_mod m' (Zpos m2) eq_refl) as Hdm.
  destruct (Z.div_eucl m' (Z.pos m2)) as [q r] eqn:Eq.
  destruct Hdm as [Hmq Hr].
  pose proof (digits_bounds m1) as Hb1. pose proof (digits_bounds m2) as Hb2.
  pose proof (digits_pos m1) as Hp1. pose proof (digits_pos m2) as Hp2.
  assert (Hpow : 0 < 2 ^ s) by (apply pow2_pos; lia).
  assert (Hq0 : 0 <= q) by nia.
  split; [exact Hq0 |].
  assert (Hdq : digits m1 + s - digits m2 <= Zdigits2 q).
  { destruct q as [| qq | qq]; [| | lia].
    - change (Zdigits2 0) with 0.
      destruct (Z.le_gt_cases (digits m1 + s - digits m2) 0) as [Hle | Hgt]; [exact Hle |].
      exfalso.
      assert (H1 : 2 ^ (digits m1 - 1 + s) <= m').
      { rewrite Hm', Z.pow_add_r by lia. apply Z.mul_le_mono_nonneg_r; lia. }
      assert (H2 : 2 ^ digits m2 <= 2 ^ (digits m1 - 1 + s))
        by (apply Z.pow_le_mono_r; lia).
      lia.
    - change (Zdigits2 (Z.pos qq)) with (digits qq).
      destruct (Z.le_gt_cases (digits m1 + s - digits m2) 0) as [Hle | Hgt].
      + pose proof (digits_pos qq). lia.
      + assert (digits m1 + s - digits m2 - 1 < digits qq); [| lia].
        apply digits_ge; [lia |].
        assert (H1 : 2 ^ (digits m1 - 1 + s) <= m').
        { rewrite Hm', Z.pow_add_r by lia. apply Z.mul_le_mono_nonneg_r; lia. }
        assert (H2 : 2 ^ (digits m1 - 1 + s)
                     = 2 ^ (digits m1 + s - digits m2 - 1) * 2 ^ digits m2).
        { rewrite <- Z.pow_add_r by lia. f_equal. lia. }
        assert (H3 : 0 < 2 ^ (digits m1 + s - digits m2 - 1)) by (apply pow2_pos; lia).
        destruct (Z.le_gt_cases (2 ^ (digits m1 + s - digits m2 - 1)) (Z.pos qq))
          as [Hok | Hbad]; [exact Hok | exfalso].
        assert (Z.pos qq + 1 <= 2 ^ (digits m1 + s - digits m2 - 1)) by lia.
        assert (Z.pos m2 * (Z.pos qq + 1)
                <= Z.pos m2 * 2 ^ (digits m1 + s - digits m2 - 1))
          by (apply Z.mul_le_mono_nonneg_l; lia).
        assert (Z.pos m2 * 2 ^ (digits m1 + s - digits m2 - 1)
                < 2 ^ digits m2 * 2 ^ (digits m1 + s - digits m2 - 1))
          by (apply Z.mul_lt_mono_pos_r; lia).
        lia. }
  apply Z.le_trans with (fexp F64.prec F64.emax D); [unfold e'; lia |].
  apply fexp_mono. unfold D, s in *. lia.
Qed.

Lemma div_double (x y : F64.t) :
  is_double x = true -> is_double y = true -> is_double (F64.div x y) = true.
Proof.
  intros Hx Hy.
  destruct x as [sx | sx | | sx mx ex]; destruct y as [sy | sy | | sy my ey];
    try reflexivity.
  unfold F64.div, SFdiv.
  pose proof (div_core_spec mx my ex ey) as H.
  destruct (SFdiv_core_binary F64.prec F64.emax (Z.pos mx) ex (Z.pos my) ey)
    as [[q e'] l].
  destruct H as [Hq He].
  destruct (binary_round_aux_spec (xorb sx sy) q e' l Hq He) as [r [_ [_ Hr]]].
  exact (round_result_double _ _ _ Hr).
Qed.

End Binary64Valid.

(** ** Tables of doubles *)

Section Binary64Tables.

Local Open Scope Z_scope.
Local Unset Implicit Arguments.

(** The sum of a column of doubles is a double, and so are the fair share
    and every balance. *)
Lemma sum_from_double (xs : list F64.t) (acc : F64.t) :
  is_double acc = true ->
  Forall (fun x => is_double x = true) xs ->
  is_double (fold_left (fun a x => if f_isnan x then a else f_add a x) xs acc) = true.
Proof.
  revert acc. induction xs as [| x xs IH]; intros acc Hacc Hxs; [exact Hacc |].
  inversion Hxs as [| y ys Hx Hrest]; subst. cbn [fold_left].
  apply IH; [| exact Hrest].
  destruct (f_isnan x); [exact Hacc | now apply add_double].
Qed.

Lemma Forall_amounts (df : DataFrame F64.t) :
  doubles df = true -> Forall (fun x => is_double x = true) (map Amount df).
Proof.
  unfold doubles. rewrite forallb_forall, Forall_forall.
  intros H x Hx. apply in_map_iff in Hx. destruct Hx as [r [<- Hr]]. now apply H.
Qed.

Lemma total_spent_double (df : DataFrame F64.t) :
  doubles df = true -> is_double (total_spent df) = true.
Proof.
  intros H. unfold total_spent, series_sum.
  apply sum_from_double; [apply of_Z_double | now apply Forall_amounts].
Qed.

Lemma per_person_double (df : DataFrame F64.t) :
  doubles df = true -> is_double (per_person df) = true.
Proof.
  intros H. unfold per_person.
  apply div_double; [now apply total_spent_double | apply of_Z_double].
Qed.

(** Every balance is the amount of a row of the table minus the fair
    share. *)
Lemma balance_of_row (df : DataFrame F64.t) (b : brow F64.t) :
  In b (balances df) ->
  exists r, In r df /\ Balance b = F64.sub (Amount r) (per_person df).
Proof.
  intros Hb. apply (in_map Balance) in Hb.
  unfold balances in Hb. rewrite Balance_balance_rows in Hb.
  apply in_map_iff in Hb. destruct Hb as [r [Hr Hin]].
  exists r. split; [exact Hin | now rewrite <- Hr].
Qed.

Lemma balances_double (df : DataFrame F64.t) (b : brow F64.t) :
  doubles df = true -> In b (balances df) -> is_double (Balance b) = true.
Proof.
  intros H Hb. destruct (balance_of_row df b Hb) as [r [Hr ->]].
  apply sub_double; [| now apply per_person_double].
  unfold doubles in H. rewrite forallb_forall in H. now apply H.
Qed.

(** A sum that has left the finite numbers does not come back, and an
    infinite amount takes it there. *)
Lemma sum_step_not_finite (acc x : F64.t) :
  F64.is_finite acc = false ->
  F64.is_finite (if f_isnan x then acc else f_add acc x) = false.
Proof.
  intros H. destruct acc as [sa | sa | | sa ma ea]; try discriminate;
    destruct x as [sx | sx | | sx mx ex]; try reflexivity;
    destruct sa, sx; reflexivity.
Qed.

Lemma sum_from_not_finite (xs : list F64.t) (acc : F64.t) :
  F64.is_finite acc = false ->
  F64.is_finite (fold_left (fun a x => if f_isnan x then a else f_add a x) xs acc)
  = false.
Proof.
  revert acc. induction xs as [| x xs IH]; intros acc H; [exact H |].
  cbn [fold_left]. apply IH. now apply sum_step_not_finite.
Qed.

Lemma sum_from_infinite (xs : list F64.t) (acc : F64.t) (s : bool) :
  In (S754_infinity s) xs ->
  F64.is_finite (fold_left (fun a x => if f_isnan x then a else f_add a x) xs acc)
  = false.
Proof.
  revert acc. induction xs as [| x xs IH]; intros acc Hin; [contradiction |].
  cbn [fold_left]. destruct Hin as [-> | Hin]; [| now apply IH].
  apply sum_from_not_finite.
  destruct acc as [sa | sa | | sa ma ea]; try reflexivity; destruct sa, s; reflexivity.
Qed.

Lemma div_not_finite (x y : F64.t) :
  F64.is_finite x = false -> F64.is_finite (F64.div x y) = false.
Proof.
  intros H. destruct x as [sx | sx | | sx mx ex]; try discriminate;
    destruct y as [sy | sy | | sy my ey]; reflexivity.
Qed.

Lemma finite_share_finite_amounts (df : DataFrame F64.t) (r : row F64.t) (s : bool) :
  F64.is_finite (per_person df) = true -> In r df -> Amount r <> S754_infinity s.
Proof.
  intros Hfin Hr Heq.
  assert (H : F64.is_finite (per_person df) = false); [| congruence].
  unfold per_person. apply div_not_finite.
  unfold total_spent, series_sum. apply sum_from_infinite with s.
  rewrite <- Heq. now apply in_map.
Qed.

(** A difference of two doubles of the same sign does not overflow: when
    [x - p] is an infinity, [p] has the other sign. *)
Lemma sub_overflow_sign (sx sp s : bool) (mx mp : positive) (ex ep : Z) :
  bounded F64.prec F64.emax mx ex = true ->
  bounded F64.prec F64.emax mp ep = true ->
  F64.sub (S754_finite sx mx ex) (S754_finite sp mp ep) = S754_infinity s ->
  sp = negb s.
Proof.
  intros Hx Hp.
  destruct (aligned_facts mx mp ex ep Hx Hp) as [Hz [Hpow [HAx [HAp [Hmx Hmp]]]]].
  unfold F64.sub, SFsub. cbv zeta.
  set (ez := Z.min ex ep) in *.
  set (Ax := Z.pos (fst (shl_align mx ex ez))) in *.
  set (Ap := Z.pos (fst (shl_align mp ep ez))) in *.
  assert (HAxpos : 0 < Ax) by (unfold Ax; lia).
  assert (HAppos : 0 < Ap) by (unfold Ap; lia).
  assert (Hsame : forall q sq, Z.pos q < Z.max Ax Ap ->
            binary_round F64.prec F64.emax sq q ez <> S754_infinity s).
  { intros q sq Hq Heq.
    destruct (binary_round_exact sq q ez Hz) as [m' [e' [Hr _]]]; [| congruence].
    unfold scaled.
    assert (Z.pos q * 2 ^ (ez + 1074) < Z.max Ax Ap * 2 ^ (ez + 1074))
      by (apply Z.mul_lt_mono_pos_r; lia).
    assert (Z.max Ax Ap * 2 ^ (ez + 1074) <= max_scaled).
    { destruct (Z.max_spec Ax Ap) as [[_ ->] | [_ ->]]; lia. }
    lia. }
  assert (Hsign : forall q sq,
            binary_round F64.prec F64.emax sq q ez = S754_infinity s -> s = sq).
  { intros q sq Heq. destruct (binary_round_spec sq q ez Hz) as [r [_ [_ Hr]]].
    rewrite Heq in Hr. cbn [round_result] in Hr. apply Hr. }
  destruct sx, sp; cbn [cond_Zopp]; intros H.
  - (* both negative *)
    destruct (- Ax - - Ap) as [| q | q] eqn:Eq; cbn [binary_normalize] in H;
      [discriminate | |]; exfalso; apply (Hsame q _) in H; auto; lia.
  - destruct (- Ax - Ap) as [| q | q] eqn:Eq; cbn [binary_normalize] in H;
      [discriminate | lia |].
    now rewrite (Hsign _ _ H).
  - destruct (Ax - - Ap) as [| q | q] eqn:Eq; cbn [binary_normalize] in H;
      [discriminate | | lia].
    now rewrite (Hsign _ _ H).
  - destruct (Ax - Ap) as [| q | q] eqn:Eq; cbn [binary_normalize] in H;
      [discriminate | |]; exfalso; apply (Hsame q _) in H; auto; lia.
Qed.

(** An infinite balance has the sign opposite to the fair share, which
    is then an infinity or a finite number other than zero. *)
Lemma infinite_balance_sign (df : DataFrame F64.t) (b : brow F64.t) (s : bool) :
  doubles df = true -> In b (balances df) -> Balance b = S754_infinity s ->
  match per_person df with
  | S754_infinity sp | S754_finite sp _ _ => sp = negb s
  | _ => False
  end.
Proof.
  intros Hdf Hb Hinf.
  destruct (balance_of_row df b Hb) as [r [Hr Hbal]]. rewrite Hbal in Hinf.
  pose proof (per_person_double df Hdf) as Hp.
  assert (Ha : is_double (Amount r) = true).
  { unfold doubles in Hdf. rewrite forallb_forall in Hdf. now apply Hdf. }
  pose proof (fun H s' => finite_share_finite_amounts df r s' H Hr) as Hfin.
  destruct (per_person df) as [sp | sp | | sp mp ep];
    destruct (Amount r) as [sa | sa | | sa ma ea];
    try (match type of Hinf with
         | F64.sub (S754_finite ?a ?ma ?ea) (S754_finite ?p ?mp ?ep) = _ =>
             exact (sub_overflow_sign a p s ma mp ea ep Ha Hp Hinf)
         end);
    cbn in Hinf; try discriminate;
    try (exfalso; now apply (Hfin eq_refl sa));
    try (destruct sa, sp; try discriminate; inversion Hinf; reflexivity);
    try (destruct sp; inversion Hinf; reflexivity).
Qed.

Lemma no_opposite_infinities (df : DataFrame F64.t) (b1 b2 : brow F64.t) :
  doubles df = true -> In b1 (balances df) -> In b2 (balances df) ->
  Balance b1 = S754_infinity true -> Balance b2 = S754_infinity false -> False.
Proof.
  intros Hdf H1 H2 E1 E2.
  pose proof (infinite_balance_sign df b1 true Hdf H1 E1) as P1.
  pose proof (infinite_balance_sign df b2 false Hdf H2 E2) as P2.
  destruct (per_person df); try contradiction; rewrite P1 in P2; discriminate.
Qed.

End Binary64Tables.

(** ** Binary64: the loop on every table of doubles *)

Section Binary64AllDoubles.

Lemma neg_double_or_inf (x : F64.t) : neg_double x = true -> neg_or_inf x = true.
Proof. destruct x as [| [] | | [] m e]; simpl; auto. Qed.

Lemma pos_double_or_inf (x : F64.t) : pos_double x = true -> pos_or_inf x = true.
Proof. destruct x as [| [] | | [] m e]; simpl; auto. Qed.

(** A negative double is below zero, and a double below zero is a
    negative number or minus infinity. *)
Lemma debtor_neg_or_inf (x : F64.t) :
  is_double x = true -> f_ltb x (of_int 0) = true -> neg_or_inf x = true.
Proof.
  destruct x as [s | s | | s m e]; unfold is_double; cbn [valid_binary neg_or_inf neg_double];
    intros Hb H; try destruct s; try exact Hb; try reflexivity; vm_compute in H; discriminate H.
Qed.

Lemma creditor_pos_or_inf (x : F64.t) :
  is_double x = true -> f_ltb (of_int 0) x = true -> pos_or_inf x = true.
Proof.
  destruct x as [s | s | | s m e]; unfold is_double; cbn [valid_binary pos_or_inf pos_double];
    intros Hb H; try destruct s; try exact Hb; try reflexivity; vm_compute in H; discriminate H.
Qed.

(** One pass on a debtor and a creditor of which one at most is
    infinite: the payment is a positive number, one of the two is paid off
    exactly, and the other stays on its side or is paid off as well. *)
Lemma pay_spec_doubles (bd bc : F64.t) :
  neg_or_inf bd = true -> pos_or_inf bc = true ->
  neg_double bd = true \/ pos_double bc = true ->
  let pay := py_min (f_neg bd) bc in
  pos_double pay = true /\
  (neg_or_inf (f_add bd pay) = true \/ f_add bd pay = S754_zero false) /\
  (neg_double bd = true ->
   neg_double (f_add bd pay) = true \/ f_add bd pay = S754_zero false) /\
  (pos_or_inf (f_sub bc pay) = true \/ f_sub bc pay = S754_zero false) /\
  (pos_double bc = true ->
   pos_double (f_sub bc pay) = true \/ f_sub bc pay = S754_zero false) /\
  (f_add bd pay = S754_zero false \/ f_sub bc pay = S754_zero false).
Proof.
  intros Hd Hc Hone.
  destruct (neg_double bd) eqn:End; destruct (pos_double bc) eqn:Epc.
  - (* both finite *)
    destruct (pay_spec_F64 bd bc End Epc) as [Hpay [Hd' [Hc' Hz]]].
    cbv zeta. split; [exact Hpay |].
    split; [destruct Hd' as [H | H]; [left; now apply neg_double_or_inf | now right] |].
    split; [intros _; exact Hd' |].
    split; [destruct Hc' as [H | H]; [left; now apply pos_double_or_inf | now right] |].
    split; [intros _; exact Hc' | exact Hz].
  - (* the creditor is owed an infinite amount *)
    destruct bc as [| [] | | sc mc ec]; try discriminate;
      [| cbn [pos_or_inf] in Hc; congruence].
    destruct bd as [| | | sd md ed]; try discriminate.
    destruct sd; try discriminate. cbn [neg_double] in End.
    destruct (F64_cancel (S754_finite true md ed) eq_refl) as [Hz _].
    cbn [F64.neg SFopp negb] in Hz.
    cbv zeta. unfold py_min.
    cbn [f_neg f_ltb f_add f_sub F64_Arith F64.neg SFopp negb].
    change (F64.ltb (S754_infinity false) (S754_finite false md ed)) with false.
    cbv iota. rewrite Hz.
    split; [exact End |]. split; [now right |]. split; [intros _; now right |].
    split; [left; reflexivity |]. split; [discriminate | now left].
  - (* the debtor owes an infinite amount *)
    destruct bd as [| [] | | sd md ed]; try discriminate;
      [| cbn [neg_or_inf] in Hd; congruence].
    destruct bc as [| | | sc mc ec]; try discriminate.
    destruct sc; try discriminate. cbn [pos_double] in Epc.
    destruct (F64_cancel (S754_finite false mc ec) eq_refl) as [_ Hz].
    cbv zeta. unfold py_min.
    cbn [f_neg f_ltb f_add f_sub F64_Arith F64.neg SFopp negb].
    change (F64.ltb (S754_finite false mc ec) (S754_infinity false)) with true.
    cbv iota. rewrite Hz.
    split; [exact Epc |]. split; [left; reflexivity |]. split; [discriminate |].
    split; [now right |]. split; [intros _; now right | now right].
  - destruct Hone; discriminate.
Qed.

Lemma infinity_not_within (s : bool) :
  @f_ltb F64.t _ (@f_abs F64.t _ (S754_infinity s)) lit_1e_6 = false.
Proof. destruct s; vm_compute; reflexivity. Qed.

Lemma double_inv_step (D C : nat) (s : loop_state F64.t) (d c : brow F64.t) :
  double_inv D C s ->
  nth_error (st_debtors s) (st_i s) = Some d ->
  nth_error (st_creditors s) (st_j s) = Some c ->
  double_inv D C (loop_body d c s) /\
  (passes_left (loop_body d c s) < passes_left s)%nat.
Proof.
  intros Inv Hd Hc.
  pose proof (dbl_nodup_d Inv) as Hndd. pose proof (dbl_nodup_c Inv) as Hndc.
  assert (Hbd : neg_or_inf (Balance d) = true)
    by (apply (dbl_debtors Inv Hd); apply Nat.le_refl).
  assert (Hbc : pos_or_inf (Balance c) = true)
    by (apply (dbl_creditors Inv Hc); apply Nat.le_refl).
  assert (Hone : neg_double (Balance d) = true \/ pos_double (Balance c) = true).
  { destruct (dbl_one_side Inv) as [H | H]; [left | right].
    - apply (H _ _ Hd). apply Nat.le_refl.
    - apply (H _ _ Hc). apply Nat.le_refl. }
  assert (HiD : (st_i s < D)%nat).
  { rewrite <- (dbl_len_d Inv). apply nth_error_Some. congruence. }
  assert (HjC : (st_j s < C)%nat).
  { rewrite <- (dbl_len_c Inv). apply nth_error_Some. congruence. }
  pose proof (loop_body_i c s Hndd Hd) as Hi'.
  pose proof (loop_body_j d s Hndc Hc) as Hj'.
  pose proof (loop_body_debtors d c s) as Hds.
  pose proof (loop_body_creditors d c s) as Hcs.
  pose proof (loop_body_suggestions d c s) as Hsg.
  destruct (pay_spec_doubles _ _ Hbd Hbc Hone) as [Hpay [Hd' [Hdf' [Hc' [Hcf' Hzero]]]]].
  set (pay := py_min (f_neg (Balance d)) (Balance c)) in *.
  set (s' := loop_body d c s) in *.
  assert (Hi_cases :
            st_i s' = S (st_i s) \/
            (st_i s' = st_i s /\ neg_or_inf (f_add (Balance d) pay) = true /\
             (neg_double (Balance d) = true ->
              neg_double (f_add (Balance d) pay) = true))).
  { destruct (f_ltb (f_abs (f_add (Balance d) pay)) lit_1e_6) eqn:Et;
      [left; exact Hi' | right].
    split; [exact Hi' |]. split.
    - destruct Hd' as [Hn | Hz]; [exact Hn |].
      rewrite Hz, zero_within in Et. discriminate.
    - intros Hf. destruct (Hdf' Hf) as [Hn | Hz]; [exact Hn |].
      rewrite Hz, zero_within in Et. discriminate. }
  assert (Hj_cases :
            st_j s' = S (st_j s) \/
            (st_j s' = st_j s /\ pos_or_inf (f_sub (Balance c) pay) = true /\
             (pos_double (Balance c) = true ->
              pos_double (f_sub (Balance c) pay) = true))).
  { destruct (f_ltb (f_abs (f_sub (Balance c) pay)) lit_1e_6) eqn:Et;
      [left; exact Hj' | right].
    split; [exact Hj' |]. split.
    - destruct Hc' as [Hn | Hz]; [exact Hn |].
      rewrite Hz, zero_within in Et. discriminate.
    - intros Hf. destruct (Hcf' Hf) as [Hn | Hz]; [exact Hn |].
      rewrite Hz, zero_within in Et. discriminate. }
  assert (Hmove : (st_i s' = S (st_i s) \/ st_j s' = S (st_j s))).
  { destruct Hzero as [Hz | Hz].
    - left. rewrite Hz, zero_within in Hi'. exact Hi'.
    - right. rewrite Hz, zero_within in Hj'. exact Hj'. }
  assert (Hlen_d : length (st_debtors s') = D)
    by (rewrite Hds, length_at_update; apply (dbl_len_d Inv)).
  assert (Hlen_c : length (st_creditors s') = C)
    by (rewrite Hcs, length_at_update; apply (dbl_len_c Inv)).
  assert (Hrows_d : forall (P : F64.t -> bool),
            (forall k r, nth_error (st_debtors s) k = Some r -> (st_i s <= k)%nat ->
                         P (Balance r) = true) ->
            (st_i s' = st_i s -> P (f_add (Balance d) pay) = true) ->
            forall k r, nth_error (st_debtors s') k = Some r -> (st_i s' <= k)%nat ->
                        P (Balance r) = true).
  { intros P Hold Hnew k r Hk Hge. rewrite Hds in Hk.
    destruct (Nat.eq_dec k (st_i s)) as [-> | Hne].
    - rewrite (nth_error_at_update_same _ _ _ Hd) in Hk.
      inversion Hk; subst r. cbn [set_Balance Balance].
      apply Hnew. destruct Hi_cases as [H | [H _]]; [rewrite H in Hge; lia | exact H].
    - rewrite (nth_error_at_update_other _ _ Hndd Hd Hne) in Hk.
      apply (Hold _ _ Hk).
      destruct Hi_cases as [H | [H _]]; rewrite H in Hge; lia. }
  assert (Hrows_c : forall (P : F64.t -> bool),
            (forall k r, nth_error (st_creditors s) k = Some r -> (st_j s <= k)%nat ->
                         P (Balance r) = true) ->
            (st_j s' = st_j s -> P (f_sub (Balance c) pay) = true) ->
            forall k r, nth_error (st_creditors s') k = Some r -> (st_j s' <= k)%nat ->
                        P (Balance r) = true).
  { intros P Hold Hnew k r Hk Hge. rewrite Hcs in Hk.
    destruct (Nat.eq_dec k (st_j s)) as [-> | Hne].
    - rewrite (nth_error_at_update_same _ _ _ Hc) in Hk.
      inversion Hk; subst r. cbn [set_Balance Balance].
      apply Hnew. destruct Hj_cases as [H | [H _]]; [rewrite H in Hge; lia | exact H].
    - rewrite (nth_error_at_update_other _ _ Hndc Hc Hne) in Hk.
      apply (Hold _ _ Hk).
      destruct Hj_cases as [H | [H _]]; rewrite H in Hge; lia. }
  split.
  - constructor.
    + rewrite Hds, labels_at_update. exact Hndd.
    + rewrite Hcs, labels_at_update. exact Hndc.
    + exact Hlen_d.
    + exact Hlen_c.
    + destruct Hi_cases as [H | [H _]]; rewrite H; lia.
    + destruct Hj_cases as [H | [H _]]; rewrite H; lia.
    + apply Hrows_d; [apply (dbl_debtors Inv) |].
      intros Hst. destruct Hi_cases as [H | [_ [H _]]]; [lia | exact H].
    + apply Hrows_c; [apply (dbl_creditors Inv) |].
      intros Hst. destruct Hj_cases as [H | [_ [H _]]]; [lia | exact H].
    + destruct (dbl_one_side Inv) as [Hall | Hall]; [left | right].
      * apply Hrows_d; [exact Hall |].
        intros Hst. destruct Hi_cases as [H | [_ [_ H]]]; [lia |].
        apply H. apply (Hall _ _ Hd). apply Nat.le_refl.
      * apply Hrows_c; [exact Hall |].
        intros Hst. destruct Hj_cases as [H | [_ [_ H]]]; [lia |].
        apply H. apply (Hall _ _ Hc). apply Nat.le_refl.
    + rewrite Hsg. apply Forall_app. split; [apply (dbl_pay Inv) |].
      constructor; [exact Hpay | constructor].
    + rewrite Hsg, length_app. cbn [length].
      destruct (dbl_count Inv) as [H1 H2].
      split; [destruct Hmove as [H | H]; destruct Hi_cases as [Hi | [Hi _]];
              destruct Hj_cases as [Hj | [Hj _]]; lia | lia].
  - unfold passes_left. rewrite Hlen_d, Hlen_c, (dbl_len_d Inv), (dbl_len_c Inv).
    destruct Hmove as [H | H]; destruct Hi_cases as [Hi | [Hi _]];
      destruct Hj_cases as [Hj | [Hj _]]; lia.
Qed.

Section OnTable.

Variable df : DataFrame F64.t.
Hypothesis df_doubles : doubles df = true.

Let bs := balances df.
Let D := length (debtors_of bs).
Let C := length (creditors_of bs).

Lemma initial_double_inv : double_inv D C (initial_state bs).
Proof.
  assert (Hdbl : forall r, In r bs -> is_double (Balance r) = true).
  { intros r Hr. now apply (balances_double df). }
  assert (Hdeb : forall k r, nth_error (debtors_of bs) k = Some r ->
                             In r bs /\ neg_or_inf (Balance r) = true).
  { intros k r Hk. apply nth_error_In in Hk. apply filter_In in Hk.
    destruct Hk as [Hin Hk]. split; [exact Hin |].
    apply debtor_neg_or_inf; [now apply Hdbl | exact Hk]. }
  assert (Hcre : forall k r, nth_error (creditors_of bs) k = Some r ->
                             In r bs /\ pos_or_inf (Balance r) = true).
  { intros k r Hk. apply nth_error_In in Hk. apply filter_In in Hk.
    destruct Hk as [Hin Hk]. split; [exact Hin |].
    apply creditor_pos_or_inf; [now apply Hdbl | exact Hk]. }
  constructor; cbn [initial_state st_i st_j st_debtors st_creditors st_suggestions].
  - apply NoDup_labels_filter. apply NoDup_labels_balances.
  - apply NoDup_labels_filter. apply NoDup_labels_balances.
  - reflexivity.
  - reflexivity.
  - lia.
  - lia.
  - intros k r Hk _. now apply (Hdeb k).
  - intros k r Hk _. now apply (Hcre k).
  - destruct (forallb (fun r => neg_double (Balance r)) (debtors_of bs)) eqn:Eall.
    + left. intros k r Hk _. rewrite forallb_forall in Eall.
      apply Eall. now apply nth_error_In with k.
    + right. intros k r Hk _.
      destruct (Hcre k r Hk) as [Hin Hpos].
      destruct (pos_double (Balance r)) eqn:Ep; [reflexivity | exfalso].
      assert (Hinf : Balance r = S754_infinity false).
      { destruct (Balance r) as [| [] | | ]; cbn [pos_or_inf] in Hpos; congruence. }
      assert (Hex : exists r', In r' (debtors_of bs) /\ neg_double (Balance r') = false).
      { clear - Eall. induction (debtors_of bs) as [| x l IH]; [discriminate |].
        cbn [forallb] in Eall. apply andb_false_iff in Eall.
        destruct Eall as [H | H].
        - exists x. split; [now left | exact H].
        - destruct (IH H) as [r' [Hin H']]. exists r'. split; [now right | exact H']. }
      destruct Hex as [r' [Hin' Hneg]].
      destruct (In_nth_error _ _ Hin') as [k' Hk'].
      destruct (Hdeb k' r' Hk') as [Hinbs Hni].
      assert (Hinf' : Balance r' = S754_infinity true).
      { destruct (Balance r') as [| [] | | ]; cbn [neg_or_inf] in Hni; congruence. }
      exact (no_opposite_infinities df r' r df_doubles Hinbs Hin Hinf' Hinf).
  - constructor.
  - simpl. lia.
Qed.

Lemma settle_loop_doubles :
  exists s,
    settle_loop (D + C) (initial_state bs) = Some s /\
    double_inv D C s /\
    ((D <= st_i s)%nat \/ (C <= st_j s)%nat).
Proof.
  assert (H : exists s, settle_loop (D + C) (initial_state bs) = Some s /\
                        double_inv D C s).
  { apply settle_loop_terminates.
    - intros s d c. apply double_inv_step.
    - apply initial_double_inv.
    - unfold passes_left. simpl. fold D C. lia. }
  destruct H as [s [Hrun Hinv]].
  exists s. split; [exact Hrun |]. split; [exact Hinv |].
  destruct (settle_loop_exit _ _ Hrun) as [H | H];
    apply nth_error_None in H; [left | right].
  - now rewrite <- (dbl_len_d Hinv).
  - now rewrite <- (dbl_len_c Hinv).
Qed.

End OnTable.

End Binary64AllDoubles.

(** ** Binary64: a sum of doubles is never [-0.0] *)

Section SumOfDoubles.

Local Open Scope Z_scope.
Local Unset Implicit Arguments.

Lemma last_place_le (v : Z) : 0 < v -> last_place v <= v.
Proof.
  intros Hv. unfold last_place.
  destruct (Z.log2_spec v Hv) as [Hlo _].
  destruct (Z.le_gt_cases (Z.log2 v - 52) 0) as [H | H].
  - rewrite Z.max_r by lia. simpl. lia.
  - rewrite Z.max_l by lia.
    assert (2 ^ (Z.log2 v - 52) <= 2 ^ Z.log2 v) by (apply Z.pow_le_mono_r; lia).
    lia.
Qed.

(** Rounding a positive magnitude does not give a zero. *)
Lemma binary_normalize_not_zero (z ez : Z) (s : bool) :
  -1074 <= ez -> z <> 0 ->
  binary_normalize F64.prec F64.emax z ez false <> S754_zero s.
Proof.
  intros He Hz Heq.
  destruct (binary_normalize_spec z ez He Hz) as [r [[Hlo _] [_ Hr]]].
  rewrite Heq in Hr. cbn [round_result] in Hr. destruct Hr as [_ Hr0].
  set (v := Z.abs z * 2 ^ (ez + 1074)) in *.
  assert (Hv : 0 < v).
  { unfold v. apply Z.mul_pos_pos; [lia | apply pow2_pos; lia]. }
  pose proof (last_place_pos v) as HU. pose proof (last_place_le v Hv) as HUv.
  assert (1 <= v / last_place v).
  { apply Z.div_le_lower_bound; lia. }
  nia.
Qed.







End SumOfDoubles.

(** ** Binary64: a payment moves a balance towards zero *)

Section Binary64TowardsZero.

Local Open Scope Z_scope.
Local Unset Implicit Arguments.

Lemma scaled_pos (m : positive) (e : Z) : -1074 <= e -> 0 < scaled m e.
Proof. intros H. unfold scaled. apply Z.mul_pos_pos; [lia | apply pow2_pos; lia]. Qed.

(** The magnitude of a double is a multiple of the last place of every
    smaller magnitude. *)
Lemma last_place_divides (v : Z) (mB : positive) (eB : Z) :
  bounded F64.prec F64.emax mB eB = true ->
  0 < v -> v <= scaled mB eB ->
  exists K, scaled mB eB = K * last_place v.
Proof.
  intros Hb Hv Hle.
  destruct (bounded_facts _ _ Hb) as [He _].
  pose proof (last_place_scaled mB eB (proj1 He)) as HB.
  apply bounded_spec in Hb. destruct Hb as [Hcan _]. rewrite Hcan in HB.
  set (B := scaled mB eB) in *.
  assert (Hlog : Z.log2 v <= Z.log2 B) by (apply Z.log2_le_mono; exact Hle).
  set (a := Z.max (Z.log2 v - 52) 0).
  set (b := Z.max (Z.log2 B - 52) 0).
  assert (Hab : a <= b) by (unfold a, b; lia).
  assert (Hb2 : 2 ^ b = 2 ^ (eB + 1074)) by exact HB.
  exists (Z.pos mB * 2 ^ (b - a)).
  unfold last_place. fold a.
  replace (Z.pos mB * 2 ^ (b - a) * 2 ^ a) with (Z.pos mB * (2 ^ (b - a) * 2 ^ a)) by ring.
  rewrite <- Z.pow_add_r by (unfold a; lia).
  replace (b - a + a) with b by lia. rewrite Hb2. reflexivity.
Qed.

(** Rounding a magnitude below a double gives a double that is not
    above it. *)
Lemma round_below (s : bool) (q mB : positive) (ez eB : Z) :
  -1074 <= ez ->
  bounded F64.prec F64.emax mB eB = true ->
  scaled q ez < scaled mB eB ->
  exists m' e',
    binary_round F64.prec F64.emax s q ez = S754_finite s m' e' /\
    bounded F64.prec F64.emax m' e' = true /\
    scaled m' e' <= scaled mB eB.
Proof.
  intros He Hb Hlt.
  destruct (binary_round_spec s q ez He) as [r [[Hlo Hhi] [_ Hr]]].
  set (v := scaled q ez) in *. set (U := last_place v) in *.
  assert (Hv : 0 < v) by (apply scaled_pos; exact He).
  pose proof (last_place_pos v) as HU. fold U in HU.
  pose proof (last_place_le v Hv) as HUv. fold U in HUv.
  destruct (last_place_divides v mB eB Hb Hv) as [K HK]; [lia |]. fold U in HK.
  assert (Hr1 : 1 <= r).
  { assert (1 <= v / U) by (apply Z.div_le_lower_bound; lia). lia. }
  assert (HrK : r <= K).
  { assert (v / U < K); [| lia].
    apply Z.div_lt_upper_bound; [exact HU |]. rewrite Z.mul_comm. lia. }
  assert (HrU : r * U <= scaled mB eB).
  { rewrite HK. apply Z.mul_le_mono_nonneg_r; lia. }
  destruct (bounded_facts _ _ Hb) as [_ [_ [_ Hmax]]].
  destruct (binary_round F64.prec F64.emax s q ez) as [s' | s' | | s' m' e'];
    cbn [round_result] in Hr.
  - destruct Hr as [_ H0]. nia.
  - destruct Hr as [_ H0]. lia.
  - contradiction.
  - destruct Hr as [-> [Hb' Hs]]. exists m', e'.
    split; [reflexivity |]. split; [exact Hb' |]. rewrite Hs. exact HrU.
Qed.

Section AlignedMagnitudes.

Variables (md mc : positive) (ed ec : Z).
Hypothesis Hd : bounded F64.prec F64.emax md ed = true.
Hypothesis Hc : bounded F64.prec F64.emax mc ec = true.

Let ez := Z.min ed ec.
Let Ad := Zpos (fst (shl_align md ed ez)).
Let Ac := Zpos (fst (shl_align mc ec ez)).

(** A creditor owed less than the debtor owes: the debt that is left is
    not above the debt. *)
Lemma add_debtor_creditor_below :
  SFltb (S754_finite false mc ec) (S754_finite false md ed) = true ->
  magnitude (F64.add (S754_finite true md ed) (S754_finite false mc ec))
  <= scaled md ed.
Proof.
  intros Hlt. rewrite (ltb_scaled _ _ _ _ Hc Hd) in Hlt.
  apply Z.ltb_lt in Hlt.
  destruct (aligned_facts md mc ed ec Hd Hc) as [Hz [Hp [HAd [HAc [Hmd Hmc]]]]].
  fold ez in Hz, Hp, HAd, HAc. fold Ad in HAd. fold Ac in HAc.
  unfold F64.add, SFadd. fold ez. fold Ad. fold Ac. cbn [cond_Zopp].
  assert (Hcmp : Ac < Ad) by nia.
  destruct (- Ad + Ac) as [| q | q] eqn:Eq; try lia.
  unfold binary_normalize.
  destruct (round_below true q md ez ed Hz Hd) as [m' [e' [Hr [_ Hle]]]].
  - unfold scaled at 1. assert (Zpos q = Ad - Ac) by lia.
    assert (Z.pos q * 2 ^ (ez + 1074) = scaled md ed - scaled mc ec) by nia.
    assert (0 < scaled mc ec) by (unfold scaled; nia).
    lia.
  - rewrite Hr. exact Hle.
Qed.

(** A creditor owed at least what the debtor owes: what the creditor is
    still owed is not above what the creditor was owed. *)
Lemma sub_creditor_debtor_below :
  SFltb (S754_finite false mc ec) (S754_finite false md ed) = false ->
  magnitude (F64.sub (S754_finite false mc ec) (S754_finite false md ed))
  <= scaled mc ec.
Proof.
  intros Hge. rewrite (ltb_scaled _ _ _ _ Hc Hd) in Hge.
  apply Z.ltb_ge in Hge.
  destruct (aligned_facts md mc ed ec Hd Hc) as [Hz [Hp [HAd [HAc [Hmd Hmc]]]]].
  fold ez in Hz, Hp, HAd, HAc. fold Ad in HAd. fold Ac in HAc.
  unfold F64.sub, SFsub.
  replace (Z.min ec ed) with ez by (unfold ez; lia).
  fold Ad. fold Ac. cbn [cond_Zopp].
  assert (Hcmp : Ad <= Ac) by nia.
  assert (Hcpos : 0 < scaled mc ec) by (unfold scaled; nia).
  destruct (Ac - Ad) as [| q | q] eqn:Eq; try lia.
  - cbn [binary_normalize magnitude]. lia.
  - unfold binary_normalize.
    destruct (round_below false q mc ez ec Hz Hc) as [m' [e' [Hr [_ Hle]]]].
    + unfold scaled at 1. assert (Zpos q = Ac - Ad) by lia.
      assert (Z.pos q * 2 ^ (ez + 1074) = scaled mc ec - scaled md ed) by nia.
      assert (0 < scaled md ed) by (unfold scaled; nia).
      lia.
    + rewrite Hr. exact Hle.
Qed.

End AlignedMagnitudes.

Lemma magnitude_nonneg (x : F64.t) : is_double x = true -> 0 <= magnitude x.
Proof.
  destruct x as [s | s | | s m e]; cbn [magnitude]; intros H; try lia.
  - assert (0 < max_scaled) by (vm_compute; reflexivity). lia.
  - destruct (bounded_facts _ _ H) as [He _].
    pose proof (scaled_pos m e (proj1 He)). lia.
Qed.

(** One pass: the two balances do not grow in magnitude. *)
Lemma pay_magnitudes (bd bc : F64.t) :
  neg_or_inf bd = true -> pos_or_inf bc = true ->
  neg_double bd = true \/ pos_double bc = true ->
  let pay := py_min (f_neg bd) bc in
  magnitude (f_add bd pay) <= magnitude bd /\
  magnitude (f_sub bc pay) <= magnitude bc.
Proof.
  intros Hd Hc Hone.
  destruct (neg_double bd) eqn:End; destruct (pos_double bc) eqn:Epc.
  - destruct bd as [| | | sd md ed]; try discriminate.
    destruct sd; try discriminate.
    destruct bc as [| | | sc mc ec]; try discriminate.
    destruct sc; try discriminate.
    cbn [neg_double pos_double] in End, Epc.
    destruct (bounded_facts _ _ End) as [Hed _].
    destruct (bounded_facts _ _ Epc) as [Hec _].
    pose proof (scaled_pos md ed (proj1 Hed)). pose proof (scaled_pos mc ec (proj1 Hec)).
    cbv zeta. unfold py_min.
    cbn [f_neg f_ltb f_add f_sub F64_Arith F64.neg SFopp negb]. unfold F64.ltb.
    destruct (SFltb (S754_finite false mc ec) (S754_finite false md ed)) eqn:E.
    + destruct (F64_cancel (S754_finite false mc ec) eq_refl) as [_ Hz].
      rewrite Hz. cbn [magnitude]. split; [| lia].
      now apply add_debtor_creditor_below.
    + destruct (F64_cancel (S754_finite true md ed) eq_refl) as [Hz _].
      cbn [F64.neg SFopp negb] in Hz. rewrite Hz. cbn [magnitude]. split; [lia |].
      now apply sub_creditor_debtor_below.
  - destruct bc as [| [] | | sc mc ec]; try discriminate;
      [| cbn [pos_or_inf] in Hc; congruence].
    destruct bd as [| | | sd md ed]; try discriminate.
    destruct sd; try discriminate. cbn [neg_double] in End.
    destruct (bounded_facts _ _ End) as [Hed _].
    pose proof (scaled_pos md ed (proj1 Hed)).
    destruct (F64_cancel (S754_finite true md ed) eq_refl) as [Hz _].
    cbn [F64.neg SFopp negb] in Hz.
    cbv zeta. unfold py_min.
    cbn [f_neg f_ltb f_add f_sub F64_Arith F64.neg SFopp negb].
    change (F64.ltb (S754_infinity false) (S754_finite false md ed)) with false.
    cbv iota. rewrite Hz. cbn [F64.add F64.sub SFadd SFsub magnitude]. lia.
  - destruct bd as [| [] | | sd md ed]; try discriminate;
      [| cbn [neg_or_inf] in Hd; congruence].
    destruct bc as [| | | sc mc ec]; try discriminate.
    destruct sc; try discriminate. cbn [pos_double] in Epc.
    destruct (bounded_facts _ _ Epc) as [Hec _].
    pose proof (scaled_pos mc ec (proj1 Hec)).
    destruct (F64_cancel (S754_finite false mc ec) eq_refl) as [_ Hz].
    cbv zeta. unfold py_min.
    cbn [f_neg f_ltb f_add f_sub F64_Arith F64.neg SFopp negb].
    change (F64.ltb (S754_finite false mc ec) (S754_infinity false)) with true.
    cbv iota. rewrite Hz. cbn [F64.add F64.sub SFadd SFsub magnitude]. lia.
  - destruct Hone; discriminate.
Qed.

(** The order of the doubles against the magnitudes. *)
Lemma debt_not_grown (b0 b' : F64.t) :
  neg_or_inf b0 = true ->
  neg_or_inf b' = true \/ b' = S754_zero false ->
  magnitude b' <= magnitude b0 ->
  F64.leb b0 b' = true /\ F64.leb b' (S754_zero false) = true.
Proof.
  intros H0 H' Hm.
  destruct H' as [H' | ->].
  - destruct b0 as [| [] | | [] m0 e0]; try discriminate;
      destruct b' as [| [] | | [] m e]; try discriminate; try (split; reflexivity).
    + cbn [neg_or_inf neg_double] in H0. cbn [magnitude] in Hm.
      destruct (bounded_facts _ _ H0) as [_ [_ [_ Hmax]]]. lia.
    + cbn [neg_or_inf neg_double] in H0, H'. cbn [magnitude] in Hm.
      split; [| reflexivity].
      unfold F64.leb, SFleb, SFcompare.
      pose proof (compare_scaled m0 m e0 e H0 H') as Hc.
      destruct (e0 ?= e) eqn:Ee.
      * rewrite Hc.
        destruct (Z.compare_spec (scaled m0 e0) (scaled m e)); try reflexivity; lia.
      * symmetry in Hc.
        assert (scaled m0 e0 < scaled m e) by (apply Z.compare_lt_iff; exact Hc). lia.
      * reflexivity.
  - destruct b0 as [| [] | | [] m0 e0]; try discriminate; split; reflexivity.
Qed.

Lemma credit_not_grown (b0 b' : F64.t) :
  pos_or_inf b0 = true ->
  pos_or_inf b' = true \/ b' = S754_zero false ->
  magnitude b' <= magnitude b0 ->
  F64.leb (S754_zero false) b' = true /\ F64.leb b' b0 = true.
Proof.
  intros H0 H' Hm.
  destruct H' as [H' | ->].
  - destruct b0 as [| [] | | [] m0 e0]; try discriminate;
      destruct b' as [| [] | | [] m e]; try discriminate; try (split; reflexivity).
    + cbn [pos_or_inf pos_double] in H0. cbn [magnitude] in Hm.
      destruct (bounded_facts _ _ H0) as [_ [_ [_ Hmax]]]. lia.
    + cbn [pos_or_inf pos_double] in H0, H'. cbn [magnitude] in Hm.
      split; [reflexivity |].
      unfold F64.leb, SFleb, SFcompare.
      pose proof (compare_scaled m m0 e e0 H' H0) as Hc.
      destruct (e ?= e0) eqn:Ee.
      * rewrite Hc.
        destruct (Z.compare_spec (scaled m e) (scaled m0 e0)); try reflexivity; lia.
      * reflexivity.
      * symmetry in Hc.
        assert (scaled m0 e0 < scaled m e) by (apply Z.compare_gt_iff; exact Hc). lia.
  - destruct b0 as [| [] | | [] m0 e0]; try discriminate; split; reflexivity.
Qed.

End Binary64TowardsZero.

(** ** Binary64: products, quotients and sums of amounts that are not
    negative *)

Section Binary64NotNegative.

Local Open Scope Z_scope.
Local Unset Implicit Arguments.

Lemma digits_mul (mx my : positive) :
  digits mx + digits my - 1 <= digits (mx * my).
Proof.
  pose proof (digits_bounds mx) as Hx. pose proof (digits_bounds my) as Hy.
  pose proof (digits_pos mx). pose proof (digits_pos my).
  assert (digits mx + digits my - 2 < digits (mx * my)); [| lia].
  apply digits_ge; [lia |].
  replace (digits mx + digits my - 2) with ((digits mx - 1) + (digits my - 1)) by lia.
  rewrite Z.pow_add_r, Pos2Z.inj_mul by lia.
  apply Z.mul_le_mono_nonneg; try lia; apply Z.lt_le_incl, pow2_pos; lia.
Qed.

(** The product of two doubles is rounded to a value of the format. *)
Lemma mul_round (sx sy : bool) (mx my : positive) (ex ey : Z) :
  bounded F64.prec F64.emax mx ex = true ->
  bounded F64.prec F64.emax my ey = true ->
  exists R, round_result (xorb sx sy) R
              (F64.mul (S754_finite sx mx ex) (S754_finite sy my ey)).
Proof.
  intros Hx Hy.
  destruct (bounded_facts _ _ Hx) as [Hex [Hdx [Hnx _]]].
  destruct (bounded_facts _ _ Hy) as [Hey [Hdy [Hny _]]].
  pose proof (digits_mul mx my) as Hd.
  pose proof (digits_pos mx). pose proof (digits_pos my).
  unfold F64.mul, SFmul.
  destruct (binary_round_aux_spec (xorb sx sy) (Z.pos (mx * my)) (ex + ey) loc_Exact)
    as [r [_ [_ Hr]]].
  - lia.
  - change (Zdigits2 (Z.pos (mx * my))) with (digits (mx * my)). rewrite fexp64. lia.
  - eexists. exact Hr.
Qed.

Lemma mul_double (x y : F64.t) :
  is_double x = true -> is_double y = true -> is_double (F64.mul x y) = true.
Proof.
  intros Hx Hy.
  destruct x as [sx | sx | | sx mx ex]; destruct y as [sy | sy | | sy my ey];
    try reflexivity.
  destruct (mul_round sx sy mx my ex ey Hx Hy) as [R HR].
  exact (round_result_double _ _ _ HR).
Qed.

(** The quotient of two finite numbers is rounded to a value of the
    format. *)
Lemma div_round (sx sy : bool) (mx my : positive) (ex ey : Z) :
  exists R, round_result (xorb sx sy) R
              (F64.div (S754_finite sx mx ex) (S754_finite sy my ey)).
Proof.
  unfold F64.div, SFdiv.
  pose proof (div_core_spec mx my ex ey) as H.
  destruct (SFdiv_core_binary F64.prec F64.emax (Z.pos mx) ex (Z.pos my) ey)
    as [[q e'] l].
  destruct H as [Hq He].
  destruct (binary_round_aux_spec (xorb sx sy) q e' l Hq He) as [r [_ [_ Hr]]].
  eexists. exact Hr.
Qed.

Lemma round_result_not_negative (R : Z) (x : F64.t) :
  round_result false R x -> not_negative x = true.
Proof.
  destruct x as [s | s | | s m e]; cbn [round_result not_negative]; intros H;
    try reflexivity.
  - destruct H as [-> _]. reflexivity.
  - destruct H as [-> [H _]]. exact H.
Qed.

Lemma not_negative_double (x : F64.t) : not_negative x = true -> is_double x = true.
Proof. destruct x as [| | | [] m e]; cbn; auto; discriminate. Qed.

(** What passes the tests of tab 2 is not negative. *)
Lemma not_below_zero (x : F64.t) :
  is_double x = true -> F64.ltb x (F64.of_Z 0) = false -> not_negative x = true.
Proof.
  destruct x as [s | [] | | [] m e]; cbn [not_negative]; intros Hd H;
    try reflexivity; try exact Hd; vm_compute in H; discriminate H.
Qed.

Lemma not_at_most_zero (x : F64.t) :
  is_double x = true -> F64.leb x (F64.of_Z 0) = false -> not_negative x = true.
Proof.
  destruct x as [s | [] | | [] m e]; cbn [not_negative]; intros Hd H;
    try reflexivity; try exact Hd; vm_compute in H; discriminate H.
Qed.

Lemma of_Z_positive (z : Z) : 0 < z -> pos_or_inf (F64.of_Z z) = true.
Proof.
  intros Hz. unfold F64.of_Z.
  destruct (binary_normalize_spec z 0) as [r [_ [_ Hr]]]; [lia | lia |].
  pose proof (binary_normalize_not_zero z 0) as Hnz.
  replace (z <? 0) with false in Hr by (symmetry; apply Z.ltb_ge; lia).
  destruct (binary_normalize F64.prec F64.emax z 0 false) as [s | s | | s m e];
    cbn [round_result pos_or_inf pos_double] in *.
  - exfalso. apply (Hnz s); [lia | lia | reflexivity].
  - destruct Hr as [-> _]. reflexivity.
  - contradiction.
  - destruct Hr as [-> [H _]]. exact H.
Qed.

Lemma div_not_negative (a y : F64.t) :
  not_negative a = true -> pos_or_inf y = true -> not_negative (F64.div a y) = true.
Proof.
  intros Ha Hy.
  destruct y as [| [] | | [] my ey]; try discriminate;
    destruct a as [sa | [] | | [] ma ea]; try discriminate; try reflexivity.
  destruct (div_round false false ma my ea ey) as [R HR].
  exact (round_result_not_negative _ _ HR).
Qed.

Lemma mul_not_negative (a b : F64.t) :
  not_negative a = true -> not_negative b = true ->
  not_negative (F64.mul a b) = true.
Proof.
  intros Ha Hb.
  destruct a as [sa | [] | | [] ma ea]; try discriminate;
    destruct b as [sb | [] | | [] mb eb]; try discriminate; try reflexivity.
  destruct (mul_round false false ma mb ea eb Ha Hb) as [R HR].
  exact (round_result_not_negative _ _ HR).
Qed.

(** Rounding a magnitude that is not below a double gives a double that
    is not below it, or overflows. *)
Lemma round_above (s : bool) (q mB : positive) (ez eB : Z) :
  -1074 <= ez ->
  bounded F64.prec F64.emax mB eB = true ->
  scaled mB eB <= scaled q ez ->
  match binary_round F64.prec F64.emax s q ez with
  | S754_finite s' m' e' =>
      s' = s /\ bounded F64.prec F64.emax m' e' = true /\ scaled mB eB <= scaled m' e'
  | S754_infinity s' => s' = s
  | _ => False
  end.
Proof.
  intros He Hb Hle.
  destruct (binary_round_spec s q ez He) as [r [[Hlo Hhi] [_ Hr]]].
  set (v := scaled q ez) in *. set (U := last_place v) in *.
  set (B := scaled mB eB) in *.
  destruct (bounded_facts _ _ Hb) as [HeB _].
  assert (HB : 0 < B) by (apply scaled_pos; lia).
  assert (Hv : 0 < v) by lia.
  pose proof (last_place_pos v) as HU. fold U in HU.
  pose proof (last_place_le v Hv) as HUv. fold U in HUv.
  assert (HrB : B <= r * U).
  { destruct (Z.log2_spec v Hv) as [Hlv Huv].
    destruct (Z.log2_spec B HB) as [HlB HuB].
    assert (Hmono : Z.log2 B <= Z.log2 v) by (apply Z.log2_le_mono; lia).
    assert (Hl0 : 0 <= Z.log2 B) by apply Z.log2_nonneg.
    destruct (Z.eq_dec (Z.log2 v) (Z.log2 B)) as [Heq | Hne].
    - (* the same binade: the double is a multiple of the last place *)
      assert (HUB : U = last_place B) by (unfold U, last_place; now rewrite Heq).
      pose proof (last_place_scaled mB eB (proj1 HeB)) as HlpB.
      apply bounded_spec in Hb. destruct Hb as [Hcan _]. rewrite Hcan in HlpB.
      fold B in HlpB.
      assert (HBU : B = Z.pos mB * U) by (rewrite HUB, HlpB; reflexivity).
      assert (Z.pos mB <= v / U).
      { apply Z.div_le_lower_bound; [exact HU |]. rewrite Z.mul_comm. lia. }
      rewrite HBU. apply Z.mul_le_mono_nonneg_r; lia.
    - (* a higher binade: a power of two lies in between *)
      set (a := Z.max (Z.log2 v - 52) 0).
      assert (HUa : U = 2 ^ a) by reflexivity.
      assert (Ha : 0 <= a <= Z.log2 v) by (unfold a; lia).
      assert (HP : 2 ^ Z.log2 v = 2 ^ (Z.log2 v - a) * U).
      { rewrite HUa, <- Z.pow_add_r by lia. f_equal. lia. }
      assert (2 ^ (Z.log2 v - a) <= v / U).
      { apply Z.div_le_lower_bound; [exact HU |]. rewrite Z.mul_comm. lia. }
      assert (2 ^ (Z.log2 B + 1) <= 2 ^ Z.log2 v) by (apply Z.pow_le_mono_r; lia).
      replace (Z.succ (Z.log2 B)) with (Z.log2 B + 1) in HuB by lia.
      assert (2 ^ (Z.log2 v - a) * U <= r * U)
        by (apply Z.mul_le_mono_nonneg_r; lia).
      lia. }
  destruct (binary_round F64.prec F64.emax s q ez) as [s' | s' | | s' m' e'];
    cbn [round_result] in Hr.
  - destruct Hr as [_ H0]. lia.
  - apply Hr.
  - contradiction.
  - destruct Hr as [Hs [Hb' Hsc]]. split; [exact Hs |]. split; [exact Hb' |].
    rewrite Hsc. exact HrB.
Qed.

Lemma leb_refl (x : F64.t) : x <> S754_nan -> F64.leb x x = true.
Proof.
  destruct x as [s | [] | | [] m e]; intros H; try reflexivity; try congruence;
    unfold F64.leb, SFleb, SFcompare;
    rewrite Z.compare_refl, Pos.compare_cont_refl; reflexivity.
Qed.

Lemma leb_pos_scaled (m1 m2 : positive) (e1 e2 : Z) :
  bounded F64.prec F64.emax m1 e1 = true ->
  bounded F64.prec F64.emax m2 e2 = true ->
  scaled m1 e1 <= scaled m2 e2 ->
  F64.leb (S754_finite false m1 e1) (S754_finite false m2 e2) = true.
Proof.
  intros H1 H2 Hle.
  exact (proj2 (credit_not_grown (S754_finite false m2 e2) (S754_finite false m1 e1)
                  H2 (or_introl H1) Hle)).
Qed.

(** Adding an amount that is not negative does not lower a double. *)
Lemma add_not_negative (a x : F64.t) :
  is_double a = true -> not_negative x = true ->
  F64.add a x = S754_nan \/ F64.leb a (F64.add a x) = true.
Proof.
  intros Ha Hx.
  destruct x as [sx | [] | | [] mx ex]; try discriminate; cbn [not_negative] in Hx.
  - (* a zero *)
    destruct a as [sa | sa | | sa ma ea].
    + right. destruct sa, sx; reflexivity.
    + right. destruct sa; reflexivity.
    + left. reflexivity.
    + right. change (F64.add (S754_finite sa ma ea) (S754_zero sx))
        with (S754_finite sa ma ea).
      apply leb_refl. discriminate.
  - (* plus infinity *)
    destruct a as [sa | [] | | sa ma ea]; [right | left | right | left | right];
      reflexivity.
  - left. destruct a; reflexivity.
  - (* a positive number *)
    destruct a as [sa | sa | | sa ma ea].
    + right. reflexivity.
    + right. destruct sa; reflexivity.
    + left. reflexivity.
    + right. change (bounded F64.prec F64.emax ma ea = true) in Ha.
      destruct (aligned_facts ma mx ea ex Ha Hx) as [Hz [Hp [HAa [HAx [Hma Hmx]]]]].
      unfold F64.add, SFadd. cbv zeta.
      set (ez := Z.min ea ex) in *.
      set (Aa := Z.pos (fst (shl_align ma ea ez))) in *.
      set (Ax := Z.pos (fst (shl_align mx ex ez))) in *.
      assert (HAapos : 0 < Aa) by (unfold Aa; lia).
      assert (HAxpos : 0 < Ax) by (unfold Ax; lia).
      destruct sa; cbn [cond_Zopp].
      * (* a negative amount *)
        destruct (- Aa + Ax) as [| q | q] eqn:Eq; cbn [binary_normalize].
        -- reflexivity.
        -- destruct (binary_round_spec false q ez Hz) as [r [_ [_ Hr]]].
           destruct (binary_round F64.prec F64.emax false q ez) as [s' | s' | | s' m' e'];
             cbn [round_result] in Hr; try contradiction.
           ++ reflexivity.
           ++ destruct Hr as [-> _]. reflexivity.
           ++ destruct Hr as [-> _]. reflexivity.
        -- destruct (round_below true q ma ez ea Hz Ha) as [m' [e' [Hr [Hb' Hle]]]].
           ++ unfold scaled at 1. assert (Zpos q = Aa - Ax) by lia. nia.
           ++ rewrite Hr.
              exact (proj1 (debt_not_grown (S754_finite true ma ea)
                              (S754_finite true m' e') Ha (or_introl Hb') Hle)).
      * (* a positive amount *)
        destruct (Aa + Ax) as [| q | q] eqn:Eq; try lia. cbn [binary_normalize].
        pose proof (round_above false q ma ez ea Hz Ha) as Hr.
        assert (Hle : scaled ma ea <= scaled q ez).
        { unfold scaled at 2. assert (Zpos q = Aa + Ax) by lia. nia. }
        specialize (Hr Hle).
        destruct (binary_round F64.prec F64.emax false q ez) as [s' | s' | | s' m' e'];
          try contradiction.
        -- subst s'. reflexivity.
        -- destruct Hr as [-> [Hb' Hle']]. now apply leb_pos_scaled.
Qed.

End Binary64NotNegative.

(** ** The passes of a run *)

Section Runs.

Context {F : Type} {A : Arith F}.

Lemma reaches_invariant (P : loop_state F -> Prop) (s0 s : loop_state F) :
  (forall s d c, P s ->
                 nth_error (st_debtors s) (st_i s) = Some d ->
                 nth_error (st_creditors s) (st_j s) = Some c ->
                 P (loop_body d c s)) ->
  P s0 -> reaches s0 s -> P s.
Proof.
  intros Hstep H0 Hr. induction Hr as [| s d c Hr IH Hd Hc]; [exact H0 |].
  now apply (Hstep s d c).
Qed.

(** The state in which the loop ends is a state of the run. *)
Lemma settle_loop_reaches (fuel : nat) (s0 s : loop_state F) :
  settle_loop fuel s0 = Some s -> reaches s0 s.
Proof.
  assert (H : forall fuel s1, reaches s0 s1 -> settle_loop fuel s1 = Some s ->
                              reaches s0 s).
  { clear fuel. induction fuel as [| fuel IH]; intros s1 Hr Hrun; simpl in Hrun.
    - destruct (nth_error (st_debtors s1) (st_i s1)) as [d |] eqn:Ed;
        [destruct (nth_error (st_creditors s1) (st_j s1)) as [c |] eqn:Ec |];
        try discriminate; injection Hrun as <-; exact Hr.
    - destruct (nth_error (st_debtors s1) (st_i s1)) as [d |] eqn:Ed;
        [destruct (nth_error (st_creditors s1) (st_j s1)) as [c |] eqn:Ec |].
      + apply (IH (loop_body d c s1)); [| exact Hrun].
        now apply reaches_pass.
      + injection Hrun as <-. exact Hr.
      + injection Hrun as <-. exact Hr. }
  apply H. constructor.
Qed.

End Runs.

Section RunsOnDoubles.

Variable df : DataFrame F64.t.
Hypothesis df_doubles : doubles df = true.

Let D := length (debtors_of (balances df)).
Let C := length (creditors_of (balances df)).

Lemma reaches_double_inv (s : loop_state F64.t) :
  reaches (initial_state (balances df)) s -> double_inv D C s.
Proof.
  apply (reaches_invariant (double_inv D C)).
  - intros s0 d c Inv Hd Hc. apply (double_inv_step Inv Hd Hc).
  - apply (initial_double_inv df df_doubles).
Qed.

(** In every pass of the run on a table of doubles a pointer moves. *)
Lemma pass_on_doubles (s : loop_state F64.t) (d c : brow F64.t) :
  reaches (initial_state (balances df)) s ->
  nth_error (st_debtors s) (st_i s) = Some d ->
  nth_error (st_creditors s) (st_j s) = Some c ->
  let pay := py_min (f_neg (Balance d)) (Balance c) in
  (pay = f_neg (Balance d) \/ pay = Balance c) /\
  (st_i (loop_body d c s) = S (st_i s) \/ st_j (loop_body d c s) = S (st_j s)) /\
  st_i s <= st_i (loop_body d c s) /\
  st_j s <= st_j (loop_body d c s).
Proof.
  intros Hr Hd Hc pay.
  pose proof (reaches_double_inv Hr) as Inv.
  pose proof (dbl_nodup_d Inv) as Hndd. pose proof (dbl_nodup_c Inv) as Hndc.
  assert (Hbd : neg_or_inf (Balance d) = true)
    by (apply (dbl_debtors Inv Hd); apply Nat.le_refl).
  assert (Hbc : pos_or_inf (Balance c) = true)
    by (apply (dbl_creditors Inv Hc); apply Nat.le_refl).
  assert (Hone : neg_double (Balance d) = true \/ pos_double (Balance c) = true).
  { destruct (dbl_one_side Inv) as [H | H]; [left | right].
    - apply (H _ _ Hd). apply Nat.le_refl.
    - apply (H _ _ Hc). apply Nat.le_refl. }
  destruct (pay_spec_doubles _ _ Hbd Hbc Hone) as [_ [_ [_ [_ [_ Hzero]]]]].
  fold pay in Hzero.
  rewrite (loop_body_i c s Hndd Hd), (loop_body_j d s Hndc Hc). fold pay.
  split; [apply py_min_either |]. split.
  - destruct Hzero as [Hz | Hz]; [left | right]; now rewrite Hz, zero_within.
  - split.
    + destruct (f_ltb (f_abs (f_add (Balance d) pay)) lit_1e_6); lia.
    + destruct (f_ltb (f_abs (f_sub (Balance c) pay)) lit_1e_6); lia.
Qed.

End RunsOnDoubles.

(** ** The side of the loop that is settled *)

Section OneSide.

Context {F : Type} {A : Arith F} {O : ArithOrder F}.

Variable bs : list (brow F).
Hypothesis bs_labels : NoDup (map label bs).

(** The rows that a pointer has gone past passed the test of the
    tolerance when it did, and are not touched again. *)
Let passed (s : loop_state F) : Prop :=
  NoDup (map label (st_debtors s)) /\
  NoDup (map label (st_creditors s)) /\
  (forall k r, k < st_i s -> nth_error (st_debtors s) k = Some r ->
               f_ltb (f_abs (Balance r)) lit_1e_6 = true) /\
  (forall k r, k < st_j s -> nth_error (st_creditors s) k = Some r ->
               f_ltb (f_abs (Balance r)) lit_1e_6 = true).

Lemma passed_initial : passed (initial_state bs).
Proof.
  unfold passed. cbn [initial_state st_i st_j st_debtors st_creditors].
  split; [now apply NoDup_labels_filter |].
  split; [now apply NoDup_labels_filter |].
  split; intros k r Hk; lia.
Qed.

Lemma passed_step (s : loop_state F) (d c : brow F) :
  passed s ->
  nth_error (st_debtors s) (st_i s) = Some d ->
  nth_error (st_creditors s) (st_j s) = Some c ->
  passed (loop_body d c s).
Proof.
  intros [Hndd [Hndc [Hpd Hpc]]] Hd Hc.
  pose proof (loop_body_i c s Hndd Hd) as Ei.
  pose proof (loop_body_j d s Hndc Hc) as Ej.
  unfold passed. rewrite loop_body_debtors, loop_body_creditors, !labels_at_update.
  set (pay := py_min (f_neg (Balance d)) (Balance c)) in *.
  split; [exact Hndd |]. split; [exact Hndc |]. split.
  - intros k r Hk Hr.
    destruct (Nat.eq_dec k (st_i s)) as [-> | Hne].
    + rewrite (nth_error_at_update_same _ _ _ Hd) in Hr. injection Hr as <-.
      cbn [set_Balance Balance].
      destruct (f_ltb (f_abs (f_add (Balance d) pay)) lit_1e_6); [reflexivity |].
      rewrite Ei in Hk. lia.
    + rewrite (nth_error_at_update_other _ _ Hndd Hd Hne) in Hr.
      apply (Hpd k r); [| exact Hr].
      destruct (f_ltb (f_abs (f_add (Balance d) pay)) lit_1e_6);
        rewrite Ei in Hk; lia.
  - intros k r Hk Hr.
    destruct (Nat.eq_dec k (st_j s)) as [-> | Hne].
    + rewrite (nth_error_at_update_same _ _ _ Hc) in Hr. injection Hr as <-.
      cbn [set_Balance Balance].
      destruct (f_ltb (f_abs (f_sub (Balance c) pay)) lit_1e_6); [reflexivity |].
      rewrite Ej in Hk. lia.
    + rewrite (nth_error_at_update_other _ _ Hndc Hc Hne) in Hr.
      apply (Hpc k r); [| exact Hr].
      destruct (f_ltb (f_abs (f_sub (Balance c) pay)) lit_1e_6);
        rewrite Ej in Hk; lia.
Qed.

Lemma one_side_passed (fuel : nat) (s : loop_state F) :
  settle_loop fuel (initial_state bs) = Some s ->
  (forall r, In r (apply_transfers (st_suggestions s) bs) ->
             was_debtor bs r = true ->
             f_ltb (f_abs (Balance r)) lit_1e_6 = true) \/
  (forall r, In r (apply_transfers (st_suggestions s) bs) ->
             was_creditor bs r = true ->
             f_ltb (f_abs (Balance r)) lit_1e_6 = true).
Proof.
  intros Hrun.
  assert (H : passed s).
  { apply (settle_loop_invariant passed) with (fuel := fuel) (s := initial_state bs);
      [| apply passed_initial | exact Hrun].
    intros s0 d c. apply passed_step. }
  destruct H as [_ [_ [Hpd Hpc]]].
  destruct (frames_applied_result bs bs_labels fuel Hrun) as [Hfd [Hfc _]].
  destruct (settle_loop_exit _ _ Hrun) as [Hex | Hex];
    apply nth_error_None in Hex; [left | right]; intros r Hin Hwas.
  - assert (Hr : In r (st_debtors s)) by (rewrite <- Hfd; apply filter_In; auto).
    apply In_nth_error in Hr. destruct Hr as [k Hk].
    apply (Hpd k r); [| exact Hk].
    assert (k < length (st_debtors s)) by (apply nth_error_Some; congruence). lia.
  - assert (Hr : In r (st_creditors s)) by (rewrite <- Hfc; apply filter_In; auto).
    apply In_nth_error in Hr. destruct Hr as [k Hk].
    apply (Hpc k r); [| exact Hk].
    assert (k < length (st_creditors s)) by (apply nth_error_Some; congruence). lia.
Qed.

End OneSide.

(** C9: the loop ends on every table.  With [D] debtors and [C]
    creditors, [D + C] passes are enough, more fuel gives the same state,
    and the loop is left with the debtor pointer at [D] or past it, or the
    creditor pointer at [C] or past it; there are no more suggestions than
    pointer moves.  This is proved in exact arithmetic, and in binary64
    for every table of doubles, whatever the amounts: NaN, infinite,
    negative, or so large that the total or a balance overflows
    ([doubles] asks for nothing but amounts in the normal form of the
    format).  In every pass the payment is the whole remaining balance of
    the current creditor or the whole remaining debt of the current
    debtor, so that one of the two pointers moves and none moves back: in
    exact arithmetic in every state, in binary64 in every state of the run
    on a table of doubles. *)
Theorem C9_settlement_terminates :
  (forall df : DataFrame Q,
     let D := length (debtors_of (balances df)) in
     let C := length (creditors_of (balances df)) in
     exists s,
       settle (D + C) df = Some s /\
       (forall fuel, D + C <= fuel -> settle fuel df = Some s) /\
       (D <= st_i s \/ C <= st_j s)) /\
  (forall df : DataFrame F64.t,
     doubles df = true ->
     let D := length (debtors_of (balances df)) in
     let C := length (creditors_of (balances df)) in
     exists s,
       settle (D + C) df = Some s /\
       (forall fuel, D + C <= fuel -> settle fuel df = Some s) /\
       (D <= st_i s \/ C <= st_j s) /\
       length (st_suggestions s) <= st_i s + st_j s) /\
  (forall (s : loop_state Q) (d c : brow Q),
     NoDup (map label (st_debtors s)) ->
     NoDup (map label (st_creditors s)) ->
     nth_error (st_debtors s) (st_i s) = Some d ->
     nth_error (st_creditors s) (st_j s) = Some c ->
     let pay := py_min (f_neg (Balance d)) (Balance c) in
     (pay = f_neg (Balance d) \/ pay = Balance c) /\
     (st_i (loop_body d c s) = S (st_i s) \/ st_j (loop_body d c s) = S (st_j s)) /\
     st_i s <= st_i (loop_body d c s) /\
     st_j s <= st_j (loop_body d c s)) /\
  (forall (df : DataFrame F64.t) (s : loop_state F64.t) (d c : brow F64.t),
     doubles df = true ->
     reaches (initial_state (balances df)) s ->
     nth_error (st_debtors s) (st_i s) = Some d ->
     nth_error (st_creditors s) (st_j s) = Some c ->
     let pay := py_min (f_neg (Balance d)) (Balance c) in
     (pay = f_neg (Balance d) \/ pay = Balance c) /\
     (st_i (loop_body d c s) = S (st_i s) \/ st_j (loop_body d c s) = S (st_j s)) /\
     st_i s <= st_i (loop_body d c s) /\
     st_j s <= st_j (loop_body d c s)).
Proof.
  split; [| split; [| split]].
  - intros df D C.
    destruct (settle_loop_exact (balances df) (NoDup_labels_balances df))
      as [s [Hrun [_ Hexit]]].
    fold D C in Hrun, Hexit.
    exists s. split; [exact Hrun |]. split; [| exact Hexit].
    intros fuel Hfuel. unfold settle. now apply settle_loop_more_fuel with (D + C).
  - intros df Hdf D C.
    destruct (settle_loop_doubles df Hdf) as [s [Hrun [Hinv Hexit]]].
    fold D C in Hrun, Hinv, Hexit.
    exists s. split; [exact Hrun |]. split; [| split; [exact Hexit |]].
    + intros fuel Hfuel. unfold settle. now apply settle_loop_more_fuel with (D + C).
    + apply (dbl_count Hinv).
  - intros s d c Hndd Hndc Hd Hc.
    apply loop_body_advances; auto; apply Q_cancel_within.
  - intros df s d c Hdf Hr Hd Hc. now apply (pass_on_doubles df Hdf).
Qed.

(** [C9_settlement_terminates] in binary64 on the table A = 100, B = NaN
    (an empty cell of the editor), C = 0: the fair share is 100 / 3, the
    balance of B is NaN, and the loop ends within two passes with the
    debtors used up; in the first pass the debtor C pays the whole debt
    to the creditor A and the pointer of the debtors moves. *)
Lemma C9_settlement_terminates_witness :
  let df := [entry "A" 100 1; {| Participant := "B"; Amount := S754_nan |};
             entry "C" 0 1] in
  doubles df = true /\
  (exists s, settle 2 df = Some s /\ (1 <= st_i s \/ 1 <= st_j s)) /\
  let s := initial_state (balances df) in
  exists d c,
    nth_error (st_debtors s) (st_i s) = Some d /\
    nth_error (st_creditors s) (st_j s) = Some c /\
    (py_min (f_neg (Balance d)) (Balance c) = f_neg (Balance d) \/
     py_min (f_neg (Balance d)) (Balance c) = Balance c) /\
    (st_i (loop_body d c s) = S (st_i s) \/ st_j (loop_body d c s) = S (st_j s)).
Proof.
  intros df.
  assert (Hdf : doubles df = true) by (vm_compute; reflexivity).
  split; [exact Hdf |]. split.
  - destruct (proj1 (proj2 C9_settlement_terminates) df Hdf)
      as [s [Hrun [_ [Hexit _]]]].
    exists s. split; [exact Hrun | exact Hexit].
  - intros s.
    destruct (nth_error (st_debtors s) (st_i s)) as [d |] eqn:Hd;
      [| vm_compute in Hd; discriminate].
    destruct (nth_error (st_creditors s) (st_j s)) as [c |] eqn:Hc;
      [| vm_compute in Hc; discriminate].
    exists d, c.
    destruct (proj2 (proj2 (proj2 C9_settlement_terminates)) df s d c Hdf
                (reaches_start s) Hd Hc) as [Hpay [Hmove _]].
    split; [reflexivity |]. split; [reflexivity |]. split; [exact Hpay | exact Hmove].
Defined.

(** ** Outside the format

    [doubles] is needed in the model, not in the script: [SpecFloat] also
    has triples of a sign, a mantissa and an exponent that are no doubles,
    and on such triples the loop need not end.  With the mantissa 1 and
    the exponent 6000, far above the exponents of the format, the balance
    of A overflows to minus infinity and the balance of B to plus
    infinity; the payment is infinite, both balances become NaN, and no
    pointer moves any more. *)
Example outside_the_format :
  let df : DataFrame F64.t :=
    [ {| Participant := "A"; Amount := S754_finite true 1 6000 |};
      {| Participant := "B"; Amount := S754_finite false 1 6000 |};
      entry "C" 3 1; entry "D" 1 1 ] in
  doubles df = false /\ forall fuel, settle fuel df = None.
Proof.
  intros df. split; [vm_compute; reflexivity |].
  set (d := {| label := 0; name := "A"%string; paid := S754_finite true 1 6000;
               Balance := S754_nan |}).
  set (c1 := {| label := 1; name := "B"%string; paid := S754_finite false 1 6000;
                Balance := S754_nan |}).
  set (c2 := {| label := 2; name := "C"%string; paid := F64.of_Z 3;
                Balance := F64.of_Z 2 |}).
  assert (Hstuck : forall fuel ts,
             settle_loop fuel {| st_i := 0; st_j := 0; st_debtors := [d];
                                 st_creditors := [c1; c2]; st_suggestions := ts |}
             = None).
  { induction fuel as [| fuel IH]; intros ts; [reflexivity |].
    cbn [settle_loop st_debtors st_creditors st_i st_j nth_error].
    match goal with
    | |- settle_loop fuel ?s = None =>
        replace s with {| st_i := 0; st_j := 0; st_debtors := [d];
                          st_creditors := [c1; c2];
                          st_suggestions :=
                            ts ++ [ {| t_from := "A"%string; t_to := "B"%string;
                                       t_pay := S754_nan;
                                       t_from_label := 0; t_to_label := 1 |} ] |}
    end; [apply IH | vm_compute; reflexivity]. }
  intros [| fuel]; [vm_compute; reflexivity |].
  unfold settle.
  change (settle_loop (S fuel) (initial_state (balances df)))
    with (settle_loop fuel
            (loop_body
               {| label := 0; name := "A"%string; paid := S754_finite true 1 6000;
                  Balance := S754_infinity true |}
               {| label := 1; name := "B"%string; paid := S754_finite false 1 6000;
                  Balance := S754_infinity false |}
               (initial_state (balances df)))).
  match goal with
  | |- settle_loop fuel ?s = None =>
      replace s with {| st_i := 0; st_j := 0; st_debtors := [d];
                        st_creditors := [c1; c2];
                        st_suggestions :=
                          [ {| t_from := "A"%string; t_to := "B"%string;
                               t_pay := S754_infinity false;
                               t_from_label := 0; t_to_label := 1 |} ] |}
  end; [apply Hstuck | vm_compute; reflexivity].
Qed.

(** ** The loop on the floats of the machine

    The Standard Library states of the primitive floats that the triple
    of every float is in the normal form of the format
    ([FloatAxioms.Prim2SF_valid]).  A table whose amounts are read from
    floats is thus a table of doubles, whatever the floats: on every such
    table the loop ends, with at most [D + C - 1] suggestions. *)
Lemma floats_are_doubles (ledger : list (string * PrimFloat.float)) :
  doubles (table_of_floats ledger) = true.
Proof.
  unfold doubles, table_of_floats. apply forallb_forall.
  intros r Hr. apply in_map_iff in Hr. destruct Hr as [[n a] [<- _]].
  apply FloatAxioms.Prim2SF_valid.
Qed.

Corollary settlement_ends_on_floats (ledger : list (string * PrimFloat.float)) :
  let df := table_of_floats ledger in
  let D := length (debtors_of (balances df)) in
  let C := length (creditors_of (balances df)) in
  exists s,
    settle (D + C) df = Some s /\
    (D <= st_i s \/ C <= st_j s) /\
    length (st_suggestions s) <= D + C - 1.
Proof.
  intros df D C.
  destruct (settle_loop_doubles df (floats_are_doubles ledger))
    as [s [Hrun [Hinv Hexit]]].
  exists s. split; [exact Hrun |]. split; [exact Hexit |].
  apply (dbl_count Hinv).
Qed.

(** C1: on every table with [D] debtors and [C] creditors the loop ends
    and makes at most [D + C - 1] suggestions (none when [D + C = 0]);
    every payment is a positive number.  With the suggestions carried out
    on the balances, the side whose pointer reached the end is settled:
    every participant who owed, or every participant who was owed, is left
    with a balance within the tolerance; the rows of the participants that
    were neither are untouched.  This is proved in binary64 for every
    table of doubles, whatever the amounts, and in exact arithmetic.  In
    exact arithmetic, moreover, the balances still sum to zero and nobody
    is left with more than [max D C] times [1e-6] in absolute value; in
    binary64 these two bounds fail, because the balances are rounded and
    a rounding error of the fair share is left with the last participant
    of the other side.  In both arithmetics a participant of the other
    side can be left with more than [1e-6]. *)
Theorem C1_settlement_exact :
  (forall df : DataFrame F64.t,
     doubles df = true ->
     let bs := balances df in
     let D := length (debtors_of bs) in
     let C := length (creditors_of bs) in
     exists s,
       settle (D + C) df = Some s /\
       let ts := st_suggestions s in
       let adjusted := apply_transfers ts bs in
       length ts <= D + C - 1 /\
       Forall (fun t => pos_double (t_pay t) = true) ts /\
       ((forall r, In r adjusted -> was_debtor bs r = true ->
                   F64.ltb (F64.abs (Balance r)) (F64.dec 1 1000000) = true) \/
        (forall r, In r adjusted -> was_creditor bs r = true ->
                   F64.ltb (F64.abs (Balance r)) (F64.dec 1 1000000) = true)) /\
       filter (was_settled bs) adjusted = filter (was_settled bs) bs) /\
  (forall df : DataFrame Q,
     let bs := balances df in
     let D := length (debtors_of bs) in
     let C := length (creditors_of bs) in
     exists s,
       settle (D + C) df = Some s /\
       let ts := st_suggestions s in
       let adjusted := apply_transfers ts bs in
       length ts <= D + C - 1 /\
       Forall (fun t => 0 < t_pay t)%Q ts /\
       ((forall r, In r adjusted -> was_debtor bs r = true ->
                   (- eps < Balance r /\ Balance r <= 0)%Q) \/
        (forall r, In r adjusted -> was_creditor bs r = true ->
                   (0 <= Balance r /\ Balance r < eps)%Q)) /\
       (forall r, In r adjusted -> was_settled bs r = true -> (Balance r == 0)%Q) /\
       (Qsum (map Balance adjusted) == 0)%Q /\
       (forall r, In r adjusted ->
                  (Qabs (Balance r) <= inject_Z (Z.of_nat (Nat.max D C)) * eps)%Q)).
Proof.
  split.
  - intros df Hdf bs D C.
    destruct (settle_loop_doubles df Hdf) as [s [Hrun [Hinv _]]].
    fold bs D C in Hrun, Hinv.
    exists s. split; [exact Hrun |]. cbv zeta.
    split; [apply (dbl_count Hinv) |]. split; [apply (dbl_pay Hinv) |].
    split.
    + exact (one_side_passed bs (NoDup_labels_balances df) (D + C) Hrun).
    + apply (frames_applied_result bs (NoDup_labels_balances df) (D + C) Hrun).
  - intros df bs D C.
    assert (Hzero : (Qsum (map Balance bs) == 0)%Q).
    { destruct df as [| r df]; [reflexivity |]. apply sum_balances_Q. discriminate. }
    destruct (settlement_on_frame bs (NoDup_labels_balances df) Hzero)
      as [s [Hrun [_ [Hcount [Hpay [Hside [Hset [Hsum Hbound]]]]]]]].
    exists s. split; [exact Hrun |]. cbv zeta.
    split; [exact Hcount |]. split; [exact Hpay |].
    split; [exact Hside |]. split; [exact Hset |]. split; [exact Hsum | exact Hbound].
Qed.

(** [C1_settlement_exact] in binary64 on the table of the amounts
    [1.7976931348623157e308] (the largest double), and twice its
    opposite: the fair share is negative, the balance of A overflows to
    plus infinity and B and C owe finite amounts.  The loop ends within
    three passes, makes two suggestions at most, and every payment is a
    positive number. *)
Lemma C1_settlement_exact_witness :
  let big : F64.t := S754_finite false 9007199254740991 971 in
  let df := [ {| Participant := "A"; Amount := big |};
              {| Participant := "B"; Amount := F64.neg big |};
              {| Participant := "C"; Amount := F64.neg big |} ] in
  doubles df = true /\
  map Balance (balances df)
  = [S754_infinity false; S754_finite true 6004799503160660 971;
     S754_finite true 6004799503160660 971] /\
  exists s,
    settle 3 df = Some s /\
    length (st_suggestions s) <= 2 /\
    Forall (fun t => pos_double (t_pay t) = true) (st_suggestions s).
Proof.
  intros big df.
  assert (Hdf : doubles df = true) by (vm_compute; reflexivity).
  split; [exact Hdf |]. split; [vm_compute; reflexivity |].
  destruct (proj1 C1_settlement_exact df Hdf) as [s [Hrun [Hcount [Hpay _]]]].
  exists s. split; [exact Hrun |]. split; [exact Hcount | exact Hpay].
Defined.

(** C1 as stated fails, in binary64 and in exact arithmetic alike: with
    the amounts 0.9999991, 0.9999991, 3, 3 and 2.0000018 the fair share is
    2; A and B owe 1.0000009 each, C and D are owed 1 each and E is owed
    0.0000018.  The loop suggests A -> C: 1 and B -> D: 1; each time the
    debt that remains, 0.0000009, is below the tolerance and both pointers
    move.  The loop is left with the debtors used up, and E keeps a
    balance above [1e-6] with both suggestions carried out.

    In binary64 the two bounds of exact arithmetic fail as well: with the
    amounts 2e13, 0 and 0 the fair share is rounded, B pays A
    6666666666666.667 and C pays A the 6666666666666.665 that A is still
    owed; C is left with -1/512, about -0.002, which is the sum of the
    adjusted balances and is more than [max 2 1] times [1e-6]. *)
Lemma C1_counterexample :
  let df := [entry "A" 9999991 10000000; entry "B" 9999991 10000000;
             entry "C" 3 1; entry "D" 3 1; entry "E" 20000018 10000000] in
  let dfQ : DataFrame Q :=
    [ {| Participant := "A"; Amount := (9999991 # 10000000)%Q |};
      {| Participant := "B"; Amount := (9999991 # 10000000)%Q |};
      {| Participant := "C"; Amount := 3%Q |};
      {| Participant := "D"; Amount := 3%Q |};
      {| Participant := "E"; Amount := (20000018 # 10000000)%Q |} ] in
  let big := [entry "A" 20000000000000 1; entry "B" 0 1; entry "C" 0 1] in
  (exists s,
     settle 5 df = Some s /\
     map (fun t => (t_from t, t_to t)) (st_suggestions s)
     = [("A"%string, "C"%string); ("B"%string, "D"%string)] /\
     map name (filter (fun r => F64.ltb (F64.dec 1 1000000) (F64.abs (Balance r)))
                      (apply_transfers (st_suggestions s) (balances df)))
     = ["E"%string] /\
     ~ Forall (fun r => F64.leb (F64.abs (Balance r)) (F64.dec 1 1000000) = true)
              (apply_transfers (st_suggestions s) (balances df))) /\
  (exists s,
     settle 5 dfQ = Some s /\
     map (fun t => (t_from t, t_to t, Qred (t_pay t))) (st_suggestions s)
     = [("A"%string, "C"%string, 1%Q); ("B"%string, "D"%string, 1%Q)] /\
     map (fun r => (name r, Qred (Balance r)))
         (apply_transfers (st_suggestions s) (balances dfQ))
     = [("A"%string, (-9 # 10000000)%Q); ("B"%string, (-9 # 10000000)%Q);
        ("C"%string, 0%Q); ("D"%string, 0%Q); ("E"%string, (9 # 5000000)%Q)] /\
     ~ Forall (fun r => (Qabs (Balance r) <= 1 # 1000000)%Q)
              (apply_transfers (st_suggestions s) (balances dfQ))) /\
  (doubles big = true /\
   length (debtors_of (balances big)) = 2 /\
   length (creditors_of (balances big)) = 1 /\
   exists s,
     settle 3 big = Some s /\
     map (fun t => (t_from t, t_to t)) (st_suggestions s)
     = [("B"%string, "A"%string); ("C"%string, "A"%string)] /\
     map (fun r => (name r, Qred (F64.to_Q (Balance r))))
         (apply_transfers (st_suggestions s) (balances big))
     = [("A"%string, 0%Q); ("B"%string, 0%Q); ("C"%string, (-1 # 512)%Q)] /\
     ~ (Qsum (map (fun r => F64.to_Q (Balance r))
                  (apply_transfers (st_suggestions s) (balances big))) == 0)%Q /\
     ~ Forall (fun r => (Qabs (F64.to_Q (Balance r))
                         <= inject_Z (Z.of_nat (Nat.max 2 1)) * eps)%Q)
              (apply_transfers (st_suggestions s) (balances big))).
Proof.
  intros df dfQ big. split; [| split].
  - eexists. split; [vm_compute; reflexivity |].
    split; [vm_compute; reflexivity |]. split; [vm_compute; reflexivity |].
    intros H. rewrite Forall_forall in H.
    match type of H with
    | forall x, In x ?l -> _ => assert (Hin : exists r, nth_error l 4 = Some r)
    end.
    { eexists. vm_compute. reflexivity. }
    destruct Hin as [r Hr]. pose proof (H r (nth_error_In _ _ Hr)) as Hle.
    vm_compute in Hr. inversion Hr; subst r. vm_compute in Hle. discriminate.
  - eexists. split; [vm_compute; reflexivity |].
    split; [vm_compute; reflexivity |]. split; [vm_compute; reflexivity |].
    intros H. rewrite Forall_forall in H.
    match type of H with
    | forall x, In x ?l -> _ => assert (Hin : exists r, nth_error l 4 = Some r)
    end.
    { eexists. vm_compute. reflexivity. }
    destruct Hin as [r Hr]. pose proof (H r (nth_error_In _ _ Hr)) as Hle.
    vm_compute in Hr. inversion Hr; subst r.
    apply Qle_bool_iff in Hle. vm_compute in Hle. discriminate.
  - split; [vm_compute; reflexivity |]. split; [vm_compute; reflexivity |].
    split; [vm_compute; reflexivity |].
    eexists. split; [vm_compute; reflexivity |].
    split; [vm_compute; reflexivity |]. split; [vm_compute; reflexivity |].
    split.
    + intros H. apply Qeq_bool_iff in H. vm_compute in H. discriminate.
    + intros H. rewrite Forall_forall in H.
      match type of H with
      | forall x, In x ?l -> _ => assert (Hin : exists r, nth_error l 2 = Some r)
      end.
      { eexists. vm_compute. reflexivity. }
      destruct Hin as [r Hr]. pose proof (H r (nth_error_In _ _ Hr)) as Hle.
      vm_compute in Hr. inversion Hr; subst r.
      apply Qle_bool_iff in Hle. vm_compute in Hle. discriminate.
Qed.

(** ** The two tables of the specification, in binary64 *)

(** A = 100, B = 0, C = 50: the fair share is 50, the balances are 50,
    -50 and 0, and the only suggestion is B -> A: 50. *)
Example settlement_three_participants :
  let df := [entry "A" 100 1; entry "B" 0 1; entry "C" 50 1] in
  per_person df = F64.of_Z 50 /\
  map Balance (balances df) = [F64.of_Z 50; F64.of_Z (-50); S754_zero false] /\
  exists s,
    settle 2 df = Some s /\
    map (fun t => (t_from t, t_to t, t_pay t)) (st_suggestions s)
    = [("B"%string, "A"%string, F64.of_Z 50)] /\
    map Balance (apply_transfers (st_suggestions s) (balances df))
    = [S754_zero false; S754_zero false; S754_zero false].
Proof.
  intros df. split; [vm_compute; reflexivity |]. split; [vm_compute; reflexivity |].
  eexists. split; [vm_compute; reflexivity |]. split; vm_compute; reflexivity.
Qed.

(** The balances A: +30, B: +20, C: -25, D: -25 (amounts 55, 45, 0, 0):
    three suggestions, after which every balance is zero. *)
Example settlement_four_participants :
  let df := [entry "A" 55 1; entry "B" 45 1; entry "C" 0 1; entry "D" 0 1] in
  map Balance (balances df)
  = [F64.of_Z 30; F64.of_Z 20; F64.of_Z (-25); F64.of_Z (-25)] /\
  exists s,
    settle 4 df = Some s /\
    map (fun t => (t_from t, t_to t, t_pay t)) (st_suggestions s)
    = [("C"%string, "A"%string, F64.of_Z 25);
       ("D"%string, "A"%string, F64.of_Z 5);
       ("D"%string, "B"%string, F64.of_Z 20)] /\
    map Balance (apply_transfers (st_suggestions s) (balances df))
    = [S754_zero false; S754_zero false; S754_zero false; S754_zero false].
Proof.
  intros df. split; [vm_compute; reflexivity |].
  eexists. split; [vm_compute; reflexivity |]. split; vm_compute; reflexivity.
Qed.

(** * More of the page *)

(** ** Tab 1: the names *)

Section MoreTab1.

Context {F : Type} {A : Arith F}.

Lemma tab1_add_cases (add_btn : bool) (n : string) (df : DataFrame F) :
  (fst (tab1_add add_btn n df) = df /\ snd (tab1_add add_btn n df) <> Tab1_added) \/
  (fst (tab1_add add_btn n df) = df ++ [ {| Participant := n; Amount := of_int 0 |} ] /\
   snd (tab1_add add_btn n df) = Tab1_added /\
   add_btn = true /\ n <> EmptyString /\ ~ In n (map Participant df)).
Proof.
  unfold tab1_add. destruct add_btn; cbn [andb].
  - destruct (truthy n) eqn:Et.
    + destruct (name_in n df) eqn:En; cbn [negb fst snd].
      * left. split; [reflexivity | discriminate].
      * right. split; [reflexivity |]. split; [reflexivity |]. split; [reflexivity |].
        split.
        -- intros ->. discriminate Et.
        -- intros Hin. apply name_in_spec in Hin. congruence.
    + left. split; [reflexivity | discriminate].
  - left. split; [reflexivity | discriminate].
Qed.

End MoreTab1.

(** X1: tab 1 keeps the names of the table distinct.  If no two rows of
    the table have the same name, no two rows have after the handler of
    "Add", whatever the button and the text field hold. *)
Theorem X1_tab1_names_stay_distinct :
  forall (F : Type) (A : Arith F) (add_btn : bool) (new_participant : string)
         (df : DataFrame F),
    NoDup (map Participant df) ->
    NoDup (map Participant (fst (tab1_add add_btn new_participant df))).
Proof.
  intros F A add_btn n df Hnd.
  destruct (tab1_add_cases add_btn n df) as [[E _] | [E [_ [_ [_ Hnotin]]]]];
    rewrite E; [exact Hnd |].
  rewrite map_app. cbn [map Participant].
  apply NoDup_app.
  - exact Hnd.
  - constructor; [intros [] | constructor].
  - intros x Hx [Hy | []]. subst x. contradiction.
Qed.

(** The table A, B with the new name C, and with the name B again. *)
Lemma X1_tab1_names_stay_distinct_witness :
  NoDup (map Participant (fst (tab1_add true "C" [entry "A" 100 1; entry "B" 0 1]))) /\
  NoDup (map Participant (fst (tab1_add true "B" [entry "A" 100 1; entry "B" 0 1]))).
Proof.
  assert (H : NoDup (map Participant [entry "A" 100 1; entry "B" 0 1])).
  { cbn. constructor.
    - intros [H | []]. discriminate H.
    - constructor; [intros [] | constructor]. }
  split; apply X1_tab1_names_stay_distinct; exact H.
Defined.

(** X2: adding and looking up.  After "Add" is pressed with a name that
    is not empty, the name is in the table, whether it was added or was
    there before; pressing "Add" again with the same name is refused with
    the warning and changes nothing; and the rows that were there are the
    first rows of the new table, unchanged. *)
Theorem X2_tab1_add_then_found :
  forall (F : Type) (A : Arith F) (new_participant : string) (df : DataFrame F),
    new_participant <> EmptyString ->
    let df' := fst (tab1_add true new_participant df) in
    name_in new_participant df' = true /\
    tab1_add true new_participant df' = (df', Tab1_already_exists) /\
    firstn (length df) df' = df /\
    length df' <= S (length df).
Proof.
  intros F A n df Hn df'.
  assert (Hin : name_in n df' = true).
  { unfold df'.
    destruct (tab1_add_cases true n df) as [[E Hm] | [E _]]; rewrite E.
    - unfold tab1_add in Hm. cbn [andb] in Hm.
      destruct (truthy n) eqn:Et; [| apply truthy_spec in Et; contradiction].
      destruct (name_in n df) eqn:En; [reflexivity |].
      cbn [negb snd] in Hm. congruence.
    - apply name_in_spec. rewrite map_app. apply in_or_app. right. now left. }
  split; [exact Hin |]. split.
  - unfold tab1_add at 1. cbn [andb].
    destruct (truthy n) eqn:Et; [| apply truthy_spec in Et; contradiction].
    now rewrite Hin.
  - unfold df'.
    destruct (tab1_add_cases true n df) as [[E _] | [E _]]; rewrite E.
    + split; [apply firstn_all | lia].
    + split.
      * rewrite firstn_app, firstn_all, Nat.sub_diag. cbn. apply app_nil_r.
      * rewrite length_app. cbn. lia.
Qed.

Lemma X2_tab1_add_then_found_witness :
  let df := [entry "A" 100 1; entry "B" 0 1] in
  let df' := fst (tab1_add true "C" df) in
  name_in "C" df' = true /\
  tab1_add true "C" df' = (df', Tab1_already_exists) /\
  firstn 2 df' = df /\
  length df' <= 3.
Proof.
  intros df.
  apply (@X2_tab1_add_then_found F64.t _ "C"%string df). discriminate.
Defined.

(** ** The balances, row by row *)

Section BalancesByRow.

Context {F : Type} {A : Arith F}.

Lemma nth_error_balance_rows_at (m : F) (start : nat) (df : DataFrame F) (k : nat) :
  nth_error (balance_rows m start df) k
  = option_map (fun r => {| label := start + k; name := Participant r;
                            paid := Amount r; Balance := f_sub (Amount r) m |})
               (nth_error df k).
Proof.
  revert start k. induction df as [| r df IH]; intros start k.
  - destruct k; reflexivity.
  - rewrite balance_rows_cons. destruct k as [| k]; cbn [nth_error option_map].
    + now rewrite Nat.add_0_r.
    + rewrite IH. now rewrite Nat.add_succ_r.
Qed.

(** Row [k] of [balances]: the label is [k], the balance is the amount
    of row [k] of the table minus the fair share. *)
Lemma nth_error_balances (df : DataFrame F) (k : nat) :
  nth_error (balances df) k
  = option_map (fun r => {| label := k; name := Participant r;
                            paid := Amount r;
                            Balance := f_sub (Amount r) (per_person df) |})
               (nth_error df k).
Proof. unfold balances. now rewrite nth_error_balance_rows_at. Qed.

Lemma nth_error_balances_inv (df : DataFrame F) (k : nat) (b : brow F) :
  nth_error (balances df) k = Some b ->
  exists r, nth_error df k = Some r /\
            label b = k /\ name b = Participant r /\ paid b = Amount r /\
            Balance b = f_sub (Amount r) (per_person df).
Proof.
  rewrite nth_error_balances.
  destruct (nth_error df k) as [r |]; [| discriminate].
  cbn [option_map]. intros H. inversion H; subst b. cbn. exists r. auto.
Qed.

Lemma In_balances (df : DataFrame F) (b : brow F) :
  In b (balances df) ->
  exists r, nth_error df (label b) = Some r /\
            name b = Participant r /\ paid b = Amount r /\
            Balance b = f_sub (Amount r) (per_person df).
Proof.
  intros Hin. apply In_nth_error in Hin. destruct Hin as [k Hk].
  destruct (nth_error_balances_inv _ _ Hk) as [r [Hr [Hl [Hn [Hp Hb]]]]].
  exists r. rewrite Hl. auto.
Qed.

End BalancesByRow.

(** ** Tab 1 and tab 3: a participant added later *)

Section Newcomer.

Open Scope Q_scope.


Lemma total_spent_Q (df : DataFrame Q) : total_spent df == Qsum (map Amount df).
Proof. unfold total_spent. apply series_sum_Q. Qed.

End Newcomer.



(** ** Tab 2: what an expense adds *)

Section Increments.

Context {F : Type} {A : Arith F}.

Lemma add_list_nil (df : DataFrame F) : add_list [] df = df.
Proof. destruct df; reflexivity. Qed.

Lemma add_scalar_repeat (x : F) (df : DataFrame F) :
  add_scalar x df = add_list (repeat x (length df)) df.
Proof.
  induction df as [| r df IH]; [reflexivity |].
  cbn [add_scalar map length repeat add_list]. f_equal. exact IH.
Qed.

(** The run of tab 2 adds [expense_increments] to the table. *)
Lemma tab2_by_increments (amount : F) (split : split_type)
    (share_input : nat -> F) (df : DataFrame F) :
  fst (tab2_add_expense amount split share_input df)
  = add_list (expense_increments amount split share_input (length df)) df.
Proof.
  unfold tab2_add_expense, expense_increments, bad_percentages, read_shares.
  destruct df as [| r df]; [reflexivity |].
  set (df0 := r :: df). cbn [length]. fold (length df0).
  change (S (length df)) with (length df0).
  destruct (f_leb amount (of_int 0)); [symmetry; apply add_list_nil |].
  destruct split; cbn [fst].
  - apply add_scalar_repeat.
  - cbv zeta.
    destruct (f_ltb lit_0_01
                (f_abs (f_sub (py_sum (map share_input (seq 0 (length df0))))
                              (of_int 100))));
      cbn [fst]; [symmetry; apply add_list_nil | reflexivity].
Qed.

(** The message of tab 2 depends on the table through its number of
    rows only. *)
Lemma tab2_message_by_length (amount : F) (split : split_type)
    (share_input : nat -> F) (df df' : DataFrame F) :
  length df = length df' ->
  snd (tab2_add_expense amount split share_input df)
  = snd (tab2_add_expense amount split share_input df').
Proof.
  intros Hlen.
  unfold tab2_add_expense, bad_percentages, read_shares.
  destruct df as [| r df], df' as [| r' df']; try discriminate; [reflexivity |].
  rewrite Hlen.
  destruct (f_leb amount (of_int 0)); [reflexivity |].
  destruct split; [reflexivity |].
  cbv zeta.
  destruct (f_ltb lit_0_01 _); reflexivity.
Qed.

Lemma length_tab2 (amount : F) (split : split_type)
    (share_input : nat -> F) (df : DataFrame F) :
  length (fst (tab2_add_expense amount split share_input df)) = length df.
Proof. rewrite tab2_by_increments. apply length_add_list. Qed.

Lemma Participant_add_list (xs : list F) (df : DataFrame F) :
  map Participant (add_list xs df) = map Participant df.
Proof.
  revert xs. induction df as [| r df IH]; intros xs; [destruct xs; reflexivity |].
  destruct xs as [| x xs]; [reflexivity |].
  cbn [add_list map]. f_equal. apply IH.
Qed.

(** What a run of tab 2 that ends with the success message went
    through. *)
Lemma tab2_paid_inv (amount : F) (split : split_type)
    (share_input : nat -> F) (df : DataFrame F) :
  snd (tab2_add_expense amount split share_input df) = Tab2_paid ->
  df <> [] /\
  f_leb amount (of_int 0) = false /\
  match split with
  | Equal =>
      expense_increments amount split share_input (length df)
      = repeat (f_div amount (of_int (Z.of_nat (length df)))) (length df)
  | Unequal =>
      bad_percentages share_input df = false /\
      expense_increments amount split share_input (length df)
      = map (fun s => f_mul amount (f_div s (of_int 100)))
            (read_shares share_input df)
  end.
Proof.
  unfold tab2_add_expense, expense_increments, bad_percentages, read_shares.
  destruct df as [| r df]; [discriminate |].
  set (df0 := r :: df). cbn [length]. change (S (length df)) with (length df0).
  intros H. split; [discriminate |].
  destruct (f_leb amount (of_int 0)); [discriminate |].
  split; [reflexivity |].
  destruct split; [reflexivity |].
  cbv zeta in H |- *.
  destruct (f_ltb lit_0_01 _); [discriminate | split; reflexivity].
Qed.

End Increments.

Section ExactExpenses.

Open Scope Q_scope.

Lemma fold_left_f_add_Q (xs : list Q) (a : Q) :
  fold_left f_add xs a == a + Qsum xs.
Proof.
  revert a. induction xs as [| x xs IH]; intros a; cbn [fold_left].
  - unfold Qsum. cbn. ring.
  - rewrite IH. unfold Qsum. cbn [fold_right f_add Q_Arith]. ring.
Qed.

Lemma py_sum_Q (xs : list Q) : py_sum xs == Qsum xs.
Proof.
  unfold py_sum. rewrite fold_left_f_add_Q.
  change (@of_int Q Q_Arith 0%Z) with 0. ring.
Qed.

Lemma Qsum_cons (x : Q) (l : list Q) : Qsum (x :: l) == x + Qsum l.
Proof. reflexivity. Qed.

Lemma Qsum_add_list (xs : list Q) (df : DataFrame Q) :
  length xs = length df ->
  Qsum (map Amount (add_list xs df)) == Qsum (map Amount df) + Qsum xs.
Proof.
  revert xs. induction df as [| r df IH]; intros xs Hlen.
  - destruct xs; [| discriminate]. unfold Qsum. cbn. ring.
  - destruct xs as [| x xs]; [discriminate |].
    cbn [add_list map set_Amount Amount]. rewrite !Qsum_cons, IH by (cbn in Hlen; lia).
    cbn [f_add Q_Arith]. ring.
Qed.

Lemma Qsum_repeat (x : Q) (n : nat) :
  Qsum (repeat x n) == inject_Z (Z.of_nat n) * x.
Proof.
  induction n as [| n IH].
  - unfold Qsum. cbn. ring.
  - cbn [repeat]. rewrite Qsum_cons, IH, Nat2Z.inj_succ, <- Z.add_1_r, inject_Z_plus.
    ring.
Qed.

Lemma Qsum_map_scale (a : Q) (xs : list Q) :
  Qsum (map (fun s => f_mul a (f_div s (of_int 100))) xs) == a * (Qsum xs / 100).
Proof.
  induction xs as [| x xs IH].
  - unfold Qsum. cbn. field.
  - cbn [map]. rewrite !Qsum_cons, IH. cbn [f_mul f_div of_int Q_Arith].
    change (inject_Z 100) with 100. field.
Qed.

Lemma Q_leb_false (x : Q) : f_leb x (of_int 0) = false -> 0 < x.
Proof.
  cbn [f_leb of_int Q_Arith]. change (inject_Z 0) with 0. intros H.
  destruct (Qlt_le_dec 0 x) as [Hlt | Hle]; [exact Hlt |].
  apply Qle_bool_iff in Hle. congruence.
Qed.

Lemma bad_percentages_Q (share_input : nat -> Q) (df : DataFrame Q) :
  bad_percentages share_input df = false ->
  Qabs (Qsum (read_shares share_input df) - 100) <= 1 # 100.
Proof.
  unfold bad_percentages. cbn [f_ltb f_abs f_sub lit_0_01 of_int Q_Arith].
  intros H. apply Q_ltb_ge in H. rewrite py_sum_Q in H. exact H.
Qed.

Lemma length_increments_paid (amount : Q) (split : split_type)
    (share_input : nat -> Q) (df : DataFrame Q) :
  snd (tab2_add_expense amount split share_input df) = Tab2_paid ->
  length (expense_increments amount split share_input (length df)) = length df.
Proof.
  intros H. destruct (tab2_paid_inv _ _ _ _ H) as [_ [_ Hinc]].
  destruct split.
  - rewrite Hinc. apply repeat_length.
  - destruct Hinc as [_ Hinc]. rewrite Hinc. unfold read_shares.
    now rewrite !length_map, length_seq.
Qed.

(** What an accepted expense adds to the total. *)
Lemma total_after_expense (amount : Q) (split : split_type)
    (share_input : nat -> Q) (df : DataFrame Q) :
  snd (tab2_add_expense amount split share_input df) = Tab2_paid ->
  total_spent (fst (tab2_add_expense amount split share_input df))
  == total_spent df
     + match split with
       | Equal => amount
       | Unequal => amount * (Qsum (read_shares share_input df) / 100)
       end.
Proof.
  intros H. pose proof (length_increments_paid _ _ _ _ H) as Hlen.
  destruct (tab2_paid_inv _ _ _ _ H) as [Hne [_ Hinc]].
  rewrite !total_spent_Q, tab2_by_increments, Qsum_add_list by exact Hlen.
  destruct split.
  - rewrite Hinc, Qsum_repeat. apply Qplus_inj_l.
    pose proof (length_nonzero Hne) as Hn. cbn [f_div of_int Q_Arith].
    field. exact Hn.
  - destruct Hinc as [_ Hinc]. rewrite Hinc, Qsum_map_scale. reflexivity.
Qed.

End ExactExpenses.

(** X4: an accepted expense raises the total by its amount in exact
    arithmetic, not in binary64.  In exact arithmetic, with the equal
    split the total of the column [Amount] grows by [amount] exactly; with
    the percentage split it grows by [amount] times the sum of the
    percentages over 100 and, as the sum is only checked to be within
    0.01 of 100, the total can come out up to one ten-thousandth of
    [amount] above or below.  In binary64 every share and every new
    amount is rounded, and the total of the new column is not the old
    total plus the amount: with the amounts 0.1 and 0.2 and an equal
    split of 0.3 the old total is 0.30000000000000004 and the new one
    0.6. *)
Theorem X4_expense_adds_to_total :
  (forall (amount : Q) (split : split_type) (share_input : nat -> Q)
          (df : DataFrame Q),
     snd (tab2_add_expense amount split share_input df) = Tab2_paid ->
     let df' := fst (tab2_add_expense amount split share_input df) in
     let S := Qsum (read_shares share_input df) in
     match split with
     | Equal => (total_spent df' == total_spent df + amount)%Q
     | Unequal =>
         (total_spent df' == total_spent df + amount * (S / 100))%Q /\
         (Qabs (total_spent df' - (total_spent df + amount)) <= amount / 10000)%Q
     end) /\
  (let df := [entry "A" 1 10; entry "B" 2 10] in
   let amount := F64.dec 3 10 in
   let run := tab2_add_expense amount Equal (fun _ => F64.of_Z 0) df in
   snd run = Tab2_paid /\
   total_spent (fst run) = F64.dec 6 10 /\
   total_spent (fst run) <> F64.add (total_spent df) amount /\
   ~ (F64.to_Q (total_spent (fst run))
      == F64.to_Q (total_spent df) + F64.to_Q amount)%Q).
Proof.
  split.
  - intros amount split share_input df H df' S.
    pose proof (total_after_expense _ _ _ _ H) as Htot. fold df' in Htot.
    destruct split; [exact Htot |]. fold S in Htot.
    split; [exact Htot |].
    destruct (tab2_paid_inv _ _ _ _ H) as [_ [Hpos [Hok _]]].
    apply Q_leb_false in Hpos. apply bad_percentages_Q in Hok. fold S in Hok.
    rewrite Htot.
    assert (E : (total_spent df + amount * (S / 100) - (total_spent df + amount)
                 == amount / 100 * (S - 100))%Q) by field.
    rewrite E, Qabs_Qmult, (Qabs_pos (amount / 100)).
    + assert (Hb : (amount / 100 * Qabs (S - 100) <= amount / 100 * (1 # 100))%Q).
      { apply Qmult_le_l; [| exact Hok].
        apply Qlt_shift_div_l; [reflexivity | lra]. }
      assert (E2 : (amount / 100 * (1 # 100) == amount / 10000)%Q) by field.
      rewrite <- E2. exact Hb.
    + apply Qle_shift_div_l; [reflexivity | lra].
  - intros df amount run.
    split; [vm_compute; reflexivity |]. split; [vm_compute; reflexivity |].
    split; [vm_compute; discriminate |].
    intros H. apply Qeq_bool_iff in H. vm_compute in H. discriminate.
Qed.

(** In exact arithmetic: an expense of 90 split equally among three,
    and an expense of 100 with the percentages 50, 30 and 20.005, which
    pass the test. *)
Lemma X4_expense_adds_to_total_witness :
  let df : DataFrame Q :=
    [ {| Participant := "A"; Amount := 10%Q |};
      {| Participant := "B"; Amount := 0%Q |};
      {| Participant := "C"; Amount := 5%Q |} ] in
  let shares := shares_of_list [50%Q; 30%Q; (20005 # 1000)%Q] in
  (total_spent (fst (tab2_add_expense 90%Q Equal shares df)) == 105)%Q /\
  (total_spent (fst (tab2_add_expense 100%Q Unequal shares df))
   == 15 + 100 * ((100005 # 1000) / 100))%Q.
Proof.
  intros df shares. split.
  - assert (H : snd (tab2_add_expense 90%Q Equal shares df) = Tab2_paid)
      by (vm_compute; reflexivity).
    pose proof (proj1 X4_expense_adds_to_total 90%Q Equal shares df H) as Ht.
    cbv zeta in Ht. rewrite Ht. vm_compute. reflexivity.
  - assert (H : snd (tab2_add_expense 100%Q Unequal shares df) = Tab2_paid)
      by (vm_compute; reflexivity).
    destruct (proj1 X4_expense_adds_to_total 100%Q Unequal shares df H) as [Ht _].
    rewrite Ht. vm_compute. reflexivity.
Defined.

Section ExactExpensesByRow.

Open Scope Q_scope.

Lemma nth_error_add_list_short (xs : list Q) (df : DataFrame Q) (k : nat) (r : row Q) :
  nth_error df k = Some r ->
  nth_error xs k = None ->
  nth_error (add_list xs df) k = Some r.
Proof.
  revert xs k. induction df as [| r0 df IH]; intros xs k Hr Hx.
  - destruct k; discriminate.
  - destruct xs as [| x xs]; [exact Hr |].
    destruct k as [| k]; [discriminate |].
    cbn [add_list nth_error] in *. now apply IH.
Qed.

(** Row [k] after tab 2: the same participant, and the amount with the
    increment of the row, if there is one. *)
Lemma nth_error_tab2 (amount : Q) (split : split_type) (share_input : nat -> Q)
    (df : DataFrame Q) (k : nat) (r r' : row Q) :
  nth_error df k = Some r ->
  nth_error (fst (tab2_add_expense amount split share_input df)) k = Some r' ->
  Participant r' = Participant r /\
  Amount r' == Amount r
               + match nth_error
                         (expense_increments amount split share_input (length df)) k
                 with
                 | Some x => x
                 | None => 0
                 end.
Proof.
  intros Hr Hr'. rewrite tab2_by_increments in Hr'.
  destruct (nth_error (expense_increments amount split share_input (length df)) k)
    as [x |] eqn:Ex.
  - rewrite (nth_error_add_list _ _ _ Hr Ex) in Hr'. injection Hr' as <-.
    cbn [set_Amount Participant Amount f_add Q_Arith]. split; reflexivity.
  - rewrite (nth_error_add_list_short _ _ _ Hr Ex) in Hr'. injection Hr' as <-.
    split; [reflexivity | ring].
Qed.

End ExactExpensesByRow.

(** X5: what a percentage split does to the balances.  In exact
    arithmetic, after an accepted expense with percentages the balance of
    row [k] has moved by [amount] times the difference between the
    percentage of the row and the average percentage, over 100: who takes
    more than the average share of the expense is owed more, who takes
    less owes more.  In binary64 the shares, the fair share and the
    balances are rounded, and the balances do not move by that amount
    exactly: with the amounts 0.1, 0.2 and 0.3 and an expense of 0.1 split
    70, 20 and 10, no balance comes out as the old one plus that
    difference. *)
Theorem X5_percentage_split_moves_balances :
  (forall (amount : Q) (share_input : nat -> Q) (df : DataFrame Q),
     snd (tab2_add_expense amount Unequal share_input df) = Tab2_paid ->
     let df' := fst (tab2_add_expense amount Unequal share_input df) in
     let average :=
       (Qsum (read_shares share_input df) / inject_Z (Z.of_nat (length df)))%Q in
     forall (k : nat) (b b' : brow Q),
       nth_error (balances df) k = Some b ->
       nth_error (balances df') k = Some b' ->
       name b' = name b /\
       (Balance b' == Balance b + amount * ((share_input k - average) / 100))%Q) /\
  (let df := [entry "A" 1 10; entry "B" 2 10; entry "C" 3 10] in
   let shares := shares_of_list [F64.of_Z 70; F64.of_Z 20; F64.of_Z 10] in
   let amount := F64.dec 1 10 in
   let run := tab2_add_expense amount Unequal shares df in
   let average := F64.div (py_sum (read_shares shares df)) (F64.of_Z 3) in
   snd run = Tab2_paid /\
   forall (k : nat) (b b' : brow F64.t),
     nth_error (balances df) k = Some b ->
     nth_error (balances (fst run)) k = Some b' ->
     Balance b'
     <> F64.add (Balance b)
                (F64.mul amount (F64.div (F64.sub (shares k) average) (F64.of_Z 100))) /\
     ~ (F64.to_Q (Balance b')
        == F64.to_Q (Balance b)
           + F64.to_Q amount
             * ((F64.to_Q (shares k) - F64.to_Q average) / 100))%Q).
Proof.
  split.
  - intros amount share_input df H df' average k b b' Hb Hb'.
    destruct (nth_error_balances_inv _ _ Hb) as [r [Hr [_ [Hname [_ Hbal]]]]].
    destruct (nth_error_balances_inv _ _ Hb') as [r' [Hr' [_ [Hname' [_ Hbal']]]]].
    destruct (nth_error_tab2 _ _ _ _ _ Hr Hr') as [HP HA].
    destruct (tab2_paid_inv _ _ _ _ H) as [Hne [_ [_ Hinc]]].
    assert (Hk : k < length df) by (apply nth_error_Some; congruence).
    rewrite Hinc in HA.
    rewrite (map_nth_error _ _ _ (nth_error_read_shares share_input df Hk)) in HA.
    split; [congruence |].
    rewrite Hbal, Hbal'. change (@f_sub Q Q_Arith) with Qminus.
    rewrite HA, !per_person_Q, <- !total_spent_Q.
    pose proof (total_after_expense _ _ _ _ H) as Htot. cbv beta iota in Htot.
    fold df' in Htot. unfold df' at 2. rewrite length_tab2. rewrite Htot.
    unfold average. pose proof (length_nonzero Hne) as Hn.
    cbn [f_mul f_div of_int Q_Arith]. change (inject_Z 100) with 100%Q.
    field. exact Hn.
  - intros df shares amount run average.
    split; [vm_compute; reflexivity |].
    intros k b b' Hb Hb'.
    destruct k as [| [| [| k]]];
      [| | | vm_compute in Hb; destruct k; discriminate];
      vm_compute in Hb; vm_compute in Hb'; injection Hb as <-; injection Hb' as <-;
      (split; [vm_compute; discriminate |]);
      intros H; apply Qeq_bool_iff in H; vm_compute in H; discriminate.
Qed.

(** In exact arithmetic, A, B and C at 10, 0 and 5; an expense of 90 is
    put on A alone, with the percentages 100, 0 and 0: the balance of A
    rises by 60, those of B and C fall by 30. *)
Lemma X5_percentage_split_moves_balances_witness :
  let df : DataFrame Q :=
    [ {| Participant := "A"; Amount := 10%Q |};
      {| Participant := "B"; Amount := 0%Q |};
      {| Participant := "C"; Amount := 5%Q |} ] in
  let shares := shares_of_list [100%Q; 0%Q; 0%Q] in
  let df' := fst (tab2_add_expense 90%Q Unequal shares df) in
  exists b b',
    nth_error (balances df) 0 = Some b /\
    nth_error (balances df') 0 = Some b' /\
    (Balance b' == Balance b + 60)%Q.
Proof.
  intros df shares df'.
  assert (H : snd (tab2_add_expense 90%Q Unequal shares df) = Tab2_paid)
    by (vm_compute; reflexivity).
  destruct (nth_error (balances df) 0) as [b |] eqn:Hb;
    [| vm_compute in Hb; discriminate].
  destruct (nth_error (balances df') 0) as [b' |] eqn:Hb';
    [| vm_compute in Hb'; discriminate].
  exists b, b'. split; [reflexivity |]. split; [reflexivity |].
  destruct (proj1 X5_percentage_split_moves_balances 90%Q shares df H 0 b b' Hb Hb')
    as [_ E].
  rewrite E. apply Qplus_inj_l. vm_compute. reflexivity.
Defined.

Section ExactOrder.

Open Scope Q_scope.

Lemma same_row_refl (l : DataFrame Q) : Forall2 same_row l l.
Proof.
  induction l as [| r l IH]; constructor; [| exact IH].
  split; reflexivity.
Qed.

Lemma add_list_comm (xs ys : list Q) (df : DataFrame Q) :
  Forall2 same_row (add_list xs (add_list ys df)) (add_list ys (add_list xs df)).
Proof.
  revert xs ys. induction df as [| r df IH]; intros xs ys.
  - destruct xs, ys; constructor.
  - destruct xs as [| x xs], ys as [| y ys]; cbn [add_list];
      try apply same_row_refl.
    constructor; [| apply IH].
    split; [reflexivity |]. cbn [set_Amount Amount f_add Q_Arith]. ring.
Qed.

End ExactOrder.

(** X6: the order of two expenses.  In every arithmetic, the message of
    each of two runs of tab 2 is the one it gives on the table before the
    other run, and both orders leave the same participants: whether an
    expense is accepted depends on the table only for its number of rows,
    which no expense changes.  In exact arithmetic the two orders leave
    the same table.  In binary64 the amounts are added in a different
    order and can differ in the last place: on the amount 0.1, the equal
    splits 0.1 and then 0.4 give 0.6000000000000001, and 0.4 and then 0.1
    give 0.6. *)
Theorem X6_expenses_commute :
  (forall (F : Type) (A : Arith F) (amount1 amount2 : F)
          (split1 split2 : split_type) (shares1 shares2 : nat -> F)
          (df : DataFrame F),
     let after1 := fst (tab2_add_expense amount1 split1 shares1 df) in
     let after2 := fst (tab2_add_expense amount2 split2 shares2 df) in
     snd (tab2_add_expense amount2 split2 shares2 after1)
     = snd (tab2_add_expense amount2 split2 shares2 df) /\
     snd (tab2_add_expense amount1 split1 shares1 after2)
     = snd (tab2_add_expense amount1 split1 shares1 df) /\
     map Participant (fst (tab2_add_expense amount2 split2 shares2 after1))
     = map Participant (fst (tab2_add_expense amount1 split1 shares1 after2))) /\
  (forall (amount1 amount2 : Q) (split1 split2 : split_type)
          (shares1 shares2 : nat -> Q) (df : DataFrame Q),
     let after1 := fst (tab2_add_expense amount1 split1 shares1 df) in
     let after2 := fst (tab2_add_expense amount2 split2 shares2 df) in
     Forall2 same_row
       (fst (tab2_add_expense amount2 split2 shares2 after1))
       (fst (tab2_add_expense amount1 split1 shares1 after2))) /\
  (let df := [entry "A" 1 10] in
   let none : nat -> F64.t := fun _ => F64.of_Z 0 in
   let after1 := fst (tab2_add_expense (F64.dec 1 10) Equal none df) in
   let after2 := fst (tab2_add_expense (F64.dec 4 10) Equal none df) in
   map Amount (fst (tab2_add_expense (F64.dec 4 10) Equal none after1))
   = [S754_finite false 5404319552844596 (-53)] /\
   map Amount (fst (tab2_add_expense (F64.dec 1 10) Equal none after2))
   = [F64.dec 6 10] /\
   S754_finite false 5404319552844596 (-53) <> F64.dec 6 10).
Proof.
  split; [| split].
  - intros F A a1 a2 s1 s2 sh1 sh2 df after1 after2.
    split; [| split].
    + apply tab2_message_by_length. apply length_tab2.
    + apply tab2_message_by_length. apply length_tab2.
    + rewrite !tab2_by_increments, !Participant_add_list.
      unfold after1, after2. now rewrite !tab2_by_increments, !Participant_add_list.
  - intros a1 a2 s1 s2 sh1 sh2 df after1 after2.
    unfold after1, after2.
    rewrite (tab2_by_increments a2 s2 sh2), (tab2_by_increments a1 s1 sh1 (fst _)).
    rewrite !length_tab2, !tab2_by_increments. apply add_list_comm.
  - intros df none after1 after2.
    split; [vm_compute; reflexivity |].
    split; [vm_compute; reflexivity | vm_compute; discriminate].
Qed.

(** ** Tab 2: the rows after an expense *)

Section RowsAfterExpense.

Context {F : Type} {A : Arith F}.

Lemma nth_error_add_list_none (xs : list F) (df : DataFrame F) (k : nat) (r : row F) :
  nth_error df k = Some r ->
  nth_error xs k = None ->
  nth_error (add_list xs df) k = Some r.
Proof.
  revert xs k. induction df as [| r0 df IH]; intros xs k Hr Hx.
  - destruct k; discriminate.
  - destruct xs as [| x xs]; [exact Hr |].
    destruct k as [| k]; [discriminate |].
    cbn [add_list nth_error] in *. now apply IH.
Qed.

(** Row [k] after tab 2: the same participant, and the amount as it was
    or with the increment of the row added. *)
Lemma row_after_tab2 (amount : F) (split : split_type) (share_input : nat -> F)
    (df : DataFrame F) (k : nat) (r r' : row F) :
  nth_error df k = Some r ->
  nth_error (fst (tab2_add_expense amount split share_input df)) k = Some r' ->
  Participant r' = Participant r /\
  (Amount r' = Amount r \/
   exists x,
     nth_error (expense_increments amount split share_input (length df)) k = Some x /\
     Amount r' = f_add (Amount r) x).
Proof.
  intros Hr Hr'. rewrite tab2_by_increments in Hr'.
  destruct (nth_error (expense_increments amount split share_input (length df)) k)
    as [x |] eqn:Ex.
  - rewrite (nth_error_add_list _ _ _ Hr Ex) in Hr'. injection Hr' as <-.
    split; [reflexivity |]. right. exists x. split; reflexivity.
  - rewrite (nth_error_add_list_none _ _ _ Hr Ex) in Hr'. injection Hr' as <-.
    split; [reflexivity | now left].
Qed.

End RowsAfterExpense.

(** ** Binary64: the page keeps the amounts doubles *)

Section PageOfDoubles.

Lemma entry_double (n : string) (p q : Z) : is_double (Amount (entry n p q)) = true.
Proof. apply div_double; apply of_Z_double. Qed.

Lemma tab1_keeps_doubles (add_btn : bool) (n : string) (df : DataFrame F64.t) :
  doubles df = true -> doubles (fst (tab1_add add_btn n df)) = true.
Proof.
  intros H. destruct (tab1_add_cases add_btn n df) as [[-> _] | [-> _]]; [exact H |].
  unfold doubles. rewrite forallb_app. rewrite andb_true_iff. split; [exact H |].
  reflexivity.
Qed.

Lemma add_list_doubles (xs : list F64.t) (df : DataFrame F64.t) :
  Forall (fun x => is_double x = true) xs ->
  doubles df = true -> doubles (add_list xs df) = true.
Proof.
  revert xs. induction df as [| r df IH]; intros xs Hxs Hdf; [destruct xs; reflexivity |].
  destruct xs as [| x xs]; [exact Hdf |].
  inversion Hxs as [| y ys Hx Hrest]; subst.
  unfold doubles in *. cbn [add_list forallb] in *.
  apply andb_true_iff in Hdf. destruct Hdf as [Hr Hdf].
  apply andb_true_iff. split; [| now apply IH].
  cbn [set_Amount Amount]. now apply add_double.
Qed.

Lemma increments_doubles (amount : F64.t) (split : split_type)
    (share_input : nat -> F64.t) (n : nat) :
  is_double amount = true ->
  (forall k, is_double (share_input k) = true) ->
  Forall (fun x => is_double x = true) (expense_increments amount split share_input n).
Proof.
  intros Ha Hs. unfold expense_increments.
  destruct n as [| n]; [constructor |].
  destruct (f_leb amount (of_int 0)); [constructor |].
  destruct split.
  - apply Forall_forall. intros x Hx. apply repeat_spec in Hx. subst x.
    apply div_double; [exact Ha | apply of_Z_double].
  - cbv zeta. destruct (f_ltb lit_0_01 _); [constructor |].
    apply Forall_forall. intros x Hx.
    apply in_map_iff in Hx. destruct Hx as [s [<- Hs']].
    apply in_map_iff in Hs'. destruct Hs' as [j [<- _]].
    apply mul_double; [exact Ha |].
    apply div_double; [apply Hs | apply of_Z_double].
Qed.

(** Tab 2 on a table of doubles, with an amount and percentages that
    are doubles, leaves a table of doubles. *)
Lemma tab2_keeps_doubles (amount : F64.t) (split : split_type)
    (share_input : nat -> F64.t) (df : DataFrame F64.t) :
  is_double amount = true ->
  (forall k, is_double (share_input k) = true) ->
  doubles df = true ->
  doubles (fst (tab2_add_expense amount split share_input df)) = true.
Proof.
  intros Ha Hs Hdf. rewrite tab2_by_increments.
  apply add_list_doubles; [now apply increments_doubles | exact Hdf].
Qed.

Lemma increments_not_negative (amount : F64.t) (split : split_type)
    (share_input : nat -> F64.t) (n k : nat) (x : F64.t) :
  is_double amount = true ->
  (forall j, is_double (share_input j) = true /\
             F64.ltb (share_input j) (F64.of_Z 0) = false) ->
  nth_error (expense_increments amount split share_input n) k = Some x ->
  not_negative x = true.
Proof.
  intros Ha Hs. unfold expense_increments.
  destruct n as [| n]; [destruct k; discriminate |].
  destruct (f_leb amount (of_int 0)) eqn:Ea; [destruct k; discriminate |].
  assert (Hamount : not_negative amount = true) by (now apply not_at_most_zero).
  destruct split.
  - intros Hx. apply nth_error_In in Hx. apply repeat_spec in Hx. subst x.
    apply div_not_negative; [exact Hamount |].
    apply of_Z_positive. lia.
  - cbv zeta. destruct (f_ltb lit_0_01 _); [destruct k; discriminate |].
    intros Hx. apply nth_error_In in Hx.
    apply in_map_iff in Hx. destruct Hx as [s [<- Hs']].
    apply in_map_iff in Hs'. destruct Hs' as [j [<- _]].
    destruct (Hs j) as [Hd Hn].
    apply mul_not_negative; [exact Hamount |].
    apply div_not_negative; [now apply not_below_zero | vm_compute; reflexivity].
Qed.

End PageOfDoubles.

(** X7: an expense never lowers an amount.  When the percentages read
    from the widgets are not negative, as the widgets of line 85 make
    sure, every row of the table keeps its participant in a run of tab 2
    and its amount stays or grows.  This holds in binary64 on every table
    of doubles, where every share is rounded and then added with
    rounding: the new amount is at least the old one in the order of the
    doubles, or it is NaN (when the old amount is NaN, or when an
    infinite amount is shared); and it holds in exact arithmetic. *)
Theorem X7_amounts_never_decrease :
  (forall (amount : F64.t) (split : split_type) (share_input : nat -> F64.t)
          (df : DataFrame F64.t),
     doubles df = true ->
     is_double amount = true ->
     (forall k, is_double (share_input k) = true /\
                F64.ltb (share_input k) (F64.of_Z 0) = false) ->
     let df' := fst (tab2_add_expense amount split share_input df) in
     length df' = length df /\
     forall (k : nat) (r r' : row F64.t),
       nth_error df k = Some r ->
       nth_error df' k = Some r' ->
       Participant r' = Participant r /\
       (F64.isnan (Amount r') = true \/ F64.leb (Amount r) (Amount r') = true)) /\
  (forall (amount : Q) (split : split_type) (share_input : nat -> Q)
          (df : DataFrame Q),
     (forall k, 0 <= share_input k)%Q ->
     let df' := fst (tab2_add_expense amount split share_input df) in
     length df' = length df /\
     forall (k : nat) (r r' : row Q),
       nth_error df k = Some r ->
       nth_error df' k = Some r' ->
       Participant r' = Participant r /\ (Amount r <= Amount r')%Q).
Proof.
  split.
  - intros amount split share_input df Hdf Ha Hs df'.
    split; [apply length_tab2 |].
    intros k r r' Hr Hr'.
    destruct (row_after_tab2 _ _ _ _ _ Hr Hr') as [HP HA].
    split; [exact HP |].
    assert (Hrd : is_double (Amount r) = true).
    { unfold doubles in Hdf. rewrite forallb_forall in Hdf.
      apply Hdf. now apply nth_error_In with k. }
    destruct HA as [-> | [x [Hx ->]]].
    + destruct (Amount r) as [s | s | | s m e] eqn:E; [right | right | left | right];
        try reflexivity; apply leb_refl; discriminate.
    + pose proof (increments_not_negative _ _ _ _ _ Ha Hs Hx) as Hnn.
      destruct (add_not_negative (Amount r) x Hrd Hnn) as [H | H].
      * left. cbn [f_add F64_Arith]. now rewrite H.
      * right. exact H.
  - intros amount split share_input df Hsh df'.
    split; [apply length_tab2 |].
    intros k r r' Hr Hr'.
    destruct (nth_error_tab2 _ _ _ _ _ Hr Hr') as [HP HA].
    split; [exact HP |]. rewrite HA.
    assert (Hk : k < length df) by (apply nth_error_Some; congruence).
    assert (Hinc : (0 <= match nth_error
                                 (expense_increments amount split share_input (length df)) k
                         with Some x => x | None => 0 end)%Q).
    { unfold expense_increments.
      destruct (length df) as [| n] eqn:En; [lia |].
      destruct (f_leb amount (of_int 0)) eqn:Ea.
      - destruct k; cbn; lra.
      - apply Q_leb_false in Ea.
        destruct split.
        + rewrite nth_error_repeat by exact Hk.
          cbn [f_div of_int Q_Arith].
          apply Qle_shift_div_l; [| lra].
          change 0%Q with (inject_Z 0). rewrite <- Zlt_Qlt. lia.
        + cbv zeta.
          destruct (f_ltb lit_0_01 _).
          * destruct k; cbn; lra.
          * rewrite (map_nth_error _ _ _ (nth_error_map_seq share_input 0 Hk)).
            cbn [f_mul f_div of_int Q_Arith]. change (inject_Z 100) with 100%Q.
            specialize (Hsh (0 + k)%nat).
            apply Qmult_le_0_compat; [lra |].
            apply Qle_shift_div_l; [reflexivity | lra]. }
    lra.
Qed.

(** In binary64, A and B at 0.1 and 0.2 and an expense of 0.3 with the
    percentages 70 and 30: B keeps the name, and the new amount, the sum
    of 0.2 and the rounded share, is not below 0.2. *)
Lemma X7_amounts_never_decrease_witness :
  let df := [entry "A" 1 10; entry "B" 2 10] in
  let shares := shares_of_list [F64.of_Z 70; F64.of_Z 30] in
  let df' := fst (tab2_add_expense (F64.dec 3 10) Unequal shares df) in
  length df' = 2 /\
  exists r',
    nth_error df' 1 = Some r' /\
    Participant r' = "B"%string /\
    (F64.isnan (Amount r') = true \/ F64.leb (F64.dec 2 10) (Amount r') = true).
Proof.
  intros df shares df'.
  assert (Hdf : doubles df = true) by (vm_compute; reflexivity).
  assert (Ha : is_double (F64.dec 3 10) = true) by (vm_compute; reflexivity).
  assert (Hsh : forall k, is_double (shares k) = true /\
                          F64.ltb (shares k) (F64.of_Z 0) = false).
  { intros k. unfold shares, shares_of_list.
    destruct k as [| [| [| k]]]; split; vm_compute; reflexivity. }
  destruct (proj1 X7_amounts_never_decrease (F64.dec 3 10) Unequal shares df
              Hdf Ha Hsh) as [Hlen Hrows].
  split; [exact Hlen |].
  destruct (nth_error df' 1) as [r' |] eqn:Hr'; [| vm_compute in Hr'; discriminate].
  exists r'. split; [reflexivity |].
  exact (Hrows 1 (entry "B" 2 10) r' eq_refl Hr').
Defined.

(** ** Tab 3: who pays whom *)

Section WhoPaysWhom.

Context {F : Type} {A : Arith F}.

Lemma ids_at_update (lbl : nat) (f : F -> F) (fr : list (brow F)) :
  map (fun r => (label r, name r)) (at_update lbl f fr)
  = map (fun r => (label r, name r)) fr.
Proof.
  unfold at_update. rewrite map_map. apply map_ext.
  intros r. destruct (Nat.eqb (label r) lbl); reflexivity.
Qed.

Lemma nth_error_at_update (lbl : nat) (f : F -> F) (fr : list (brow F)) (k : nat) :
  nth_error (at_update lbl f fr) k
  = option_map (fun r => if Nat.eqb (label r) lbl
                         then set_Balance r (f (Balance r)) else r)
               (nth_error fr k).
Proof. unfold at_update. apply nth_error_map. Qed.

Lemma nth_error_ids (fr fr0 : list (brow F)) (k : nat) (r : brow F) :
  map (fun r => (label r, name r)) fr = map (fun r => (label r, name r)) fr0 ->
  nth_error fr k = Some r ->
  In (label r, name r) (map (fun r => (label r, name r)) fr0).
Proof.
  intros E Hr. rewrite <- E.
  apply (in_map (fun r => (label r, name r))). now apply nth_error_In with k.
Qed.

(** Every suggestion is made of the label and the name of a row of the
    frame of the debtors and of a row of the frame of the creditors. *)
Lemma suggestions_ids (bs : list (brow F)) (fuel : nat) (s : loop_state F) :
  settle_loop fuel (initial_state bs) = Some s ->
  Forall (fun t =>
            In (t_from_label t, t_from t)
               (map (fun r => (label r, name r)) (debtors_of bs)) /\
            In (t_to_label t, t_to t)
               (map (fun r => (label r, name r)) (creditors_of bs)))
         (st_suggestions s).
Proof.
  intros Hrun.
  pose (P := fun s : loop_state F =>
    map (fun r => (label r, name r)) (st_debtors s)
    = map (fun r => (label r, name r)) (debtors_of bs) /\
    map (fun r => (label r, name r)) (st_creditors s)
    = map (fun r => (label r, name r)) (creditors_of bs) /\
    Forall (fun t =>
              In (t_from_label t, t_from t)
                 (map (fun r => (label r, name r)) (debtors_of bs)) /\
              In (t_to_label t, t_to t)
                 (map (fun r => (label r, name r)) (creditors_of bs)))
           (st_suggestions s)).
  assert (H : P s).
  { apply (settle_loop_invariant P) with (fuel := fuel) (s := initial_state bs);
      [| | exact Hrun].
    - intros s0 d c [Hd [Hc Hs]] Ed Ec. unfold P.
      rewrite loop_body_debtors, loop_body_creditors, loop_body_suggestions,
        !ids_at_update.
      split; [exact Hd |]. split; [exact Hc |].
      apply Forall_app. split; [exact Hs |].
      constructor; [| constructor]. cbn [t_from_label t_from t_to_label t_to].
      split; [now apply nth_error_ids with (st_debtors s0) (st_i s0)
             | now apply nth_error_ids with (st_creditors s0) (st_j s0)].
    - unfold P. cbn. auto. }
  apply H.
Qed.

(** A run that makes no pass leaves no suggestion; a run that makes one
    leaves one at least. *)
Lemma suggestions_nil_iff (bs : list (brow F)) (fuel : nat) (s : loop_state F) :
  settle_loop fuel (initial_state bs) = Some s ->
  (st_suggestions s = [] <-> debtors_of bs = [] \/ creditors_of bs = []).
Proof.
  intros Hrun. split.
  - intros Hnil.
    destruct (debtors_of bs) as [| d ds] eqn:Ed; [now left |].
    destruct (creditors_of bs) as [| c cs] eqn:Ec; [now right |].
    exfalso.
    destruct fuel as [| fuel]; cbn [settle_loop initial_state st_debtors st_creditors
                                     st_i st_j] in Hrun;
      rewrite Ed, Ec in Hrun; cbn [nth_error] in Hrun; [discriminate |].
    assert (H : st_suggestions s <> []).
    { apply (settle_loop_invariant (fun s => st_suggestions s <> []))
        with (fuel := fuel) (3 := Hrun).
      - intros s0 d0 c0 _ _ _. rewrite loop_body_suggestions.
        intros E. apply app_eq_nil in E. destruct E as [_ E]. discriminate.
      - rewrite loop_body_suggestions. cbn. discriminate. }
    contradiction.
  - intros Hno.
    rewrite settle_loop_no_pair in Hrun by (cbn; auto).
    injection Hrun as <-. reflexivity.
Qed.

End WhoPaysWhom.

(** X8: every suggestion is a payment from a participant that the page
    shows as owing to a participant that it shows as receiving.  For every
    arithmetic with the order law, hence for binary64, and every run of the
    loop that ends: the payer of a suggestion is a row of [balances] with
    the line "owes", the payee a row with the line "should receive", and
    the two are different rows, so that nobody is asked to pay himself. *)
Theorem X8_suggestions_match_messages :
  forall (F : Type) (A : Arith F) (O : ArithOrder F) (df : DataFrame F)
         (fuel : nat) (s : loop_state F),
    settle fuel df = Some s ->
    Forall (fun t =>
              (exists d, In d (balances df) /\ label d = t_from_label t /\
                         balance_message_of d = Owes (t_from t) (f_neg (Balance d))) /\
              (exists c, In c (balances df) /\ label c = t_to_label t /\
                         balance_message_of c = Should_receive (t_to t) (Balance c)) /\
              t_from_label t <> t_to_label t)
           (st_suggestions s).
Proof.
  intros F A O df fuel s Hrun.
  pose proof (suggestions_ids _ _ Hrun) as Hids.
  rewrite Forall_forall in Hids |- *. intros t Ht.
  destruct (Hids t Ht) as [Hd Hc].
  apply in_map_iff in Hd. destruct Hd as [d [Ed Hd]].
  apply in_map_iff in Hc. destruct Hc as [c [Ec Hc]].
  apply filter_In in Hd. destruct Hd as [Hdin Hdeb].
  apply filter_In in Hc. destruct Hc as [Hcin Hcred].
  injection Ed as Edl Edn. injection Ec as Ecl Ecn.
  unfold is_debtor in Hdeb. unfold is_creditor in Hcred.
  split; [| split].
  - exists d. split; [exact Hdin |]. split; [exact Edl |].
    unfold balance_message_of.
    rewrite (f_ltb_asym _ _ Hdeb), Hdeb, Edn. reflexivity.
  - exists c. split; [exact Hcin |]. split; [exact Ecl |].
    unfold balance_message_of. rewrite Hcred, Ecn. reflexivity.
  - intros E.
    assert (Hsame : d = c).
    { apply (same_label_same_row (balances df)); auto.
      - apply NoDup_labels_balances.
      - congruence. }
    subst c. rewrite (f_ltb_asym _ _ Hdeb) in Hcred. discriminate.
Qed.

(** The table A = 100, B = 0, C = 50 in binary64: the one suggestion goes
    from B, shown as owing, to A, shown as receiving. *)
Lemma X8_suggestions_match_messages_witness :
  let df := [entry "A" 100 1; entry "B" 0 1; entry "C" 50 1] in
  exists s,
    settle 2 df = Some s /\
    Forall (fun t =>
              (exists d, In d (balances df) /\ label d = t_from_label t /\
                         balance_message_of d = Owes (t_from t) (f_neg (Balance d))) /\
              (exists c, In c (balances df) /\ label c = t_to_label t /\
                         balance_message_of c = Should_receive (t_to t) (Balance c)) /\
              t_from_label t <> t_to_label t)
           (st_suggestions s).
Proof.
  intros df.
  destruct (settle 2 df) as [s |] eqn:Hrun; [| vm_compute in Hrun; discriminate].
  exists s. split; [reflexivity |].
  exact (@X8_suggestions_match_messages F64.t _ _ df 2 s Hrun).
Defined.

(** X9: a participant whose amount is missing is shown as settled and
    takes part in no suggestion.  In binary64, when the amount of row [k]
    is NaN (an empty cell of the editor or of the file), the balance of
    the row is NaN, both comparisons with 0 fail, the page shows the line
    "is settled" for the participant, and no suggestion of a run of the
    loop names row [k] as payer or as payee. *)
Theorem X9_missing_amount_is_settled :
  forall (df : DataFrame F64.t) (k : nat) (r : row F64.t),
    nth_error df k = Some r ->
    F64.isnan (Amount r) = true ->
    (exists b, nth_error (balances df) k = Some b /\
               F64.isnan (Balance b) = true /\
               balance_message_of b = Is_settled (Participant r)) /\
    (forall (fuel : nat) (s : loop_state F64.t),
       settle fuel df = Some s ->
       Forall (fun t => t_from_label t <> k /\ t_to_label t <> k) (st_suggestions s)).
Proof.
  intros df k r Hr Hnan.
  assert (Ha : Amount r = S754_nan) by (destruct (Amount r); try discriminate; reflexivity).
  set (b := {| label := k; name := Participant r; paid := Amount r;
               Balance := f_sub (Amount r) (per_person df) |}).
  assert (Hb : nth_error (balances df) k = Some b)
    by (rewrite nth_error_balances, Hr; reflexivity).
  assert (Hbal : Balance b = S754_nan).
  { unfold b. cbn [Balance]. rewrite Ha. reflexivity. }
  assert (Hdeb : is_debtor b = false) by (unfold is_debtor; rewrite Hbal; reflexivity).
  assert (Hcred : is_creditor b = false) by (unfold is_creditor; rewrite Hbal; reflexivity).
  split.
  - exists b. split; [exact Hb |]. split; [rewrite Hbal; reflexivity |].
    unfold is_debtor in Hdeb. unfold is_creditor in Hcred.
    unfold balance_message_of. rewrite Hcred, Hdeb. reflexivity.
  - intros fuel s Hrun.
    pose proof (suggestions_ids _ _ Hrun) as Hids.
    rewrite Forall_forall in Hids |- *. intros t Ht.
    destruct (Hids t Ht) as [Hd Hc].
    assert (Hrow : forall x, In x (balances df) -> label x = k -> x = b).
    { intros x Hx Hl.
      apply (same_label_same_row (balances df)); auto.
      - apply NoDup_labels_balances.
      - now apply nth_error_In with k. }
    split; intros E.
    + apply in_map_iff in Hd. destruct Hd as [d [Ed Hd]].
      apply filter_In in Hd. destruct Hd as [Hin Hd].
      injection Ed as Edl _.
      rewrite (Hrow d Hin) in Hd by congruence. congruence.
    + apply in_map_iff in Hc. destruct Hc as [c [Ec Hc]].
      apply filter_In in Hc. destruct Hc as [Hin Hc].
      injection Ec as Ecl _.
      rewrite (Hrow c Hin) in Hc by congruence. congruence.
Qed.

(** A = 100, B with a missing amount, C = 0: B is shown as settled, and
    the only suggestion is from C to A. *)
Lemma X9_missing_amount_is_settled_witness :
  let df := [entry "A" 100 1; {| Participant := "B"; Amount := S754_nan |};
             entry "C" 0 1] in
  (exists b, nth_error (balances df) 1 = Some b /\
             balance_message_of b = Is_settled "B") /\
  exists s, settle 2 df = Some s /\
            Forall (fun t => t_from_label t <> 1 /\ t_to_label t <> 1)
                   (st_suggestions s) /\
            map (fun t => (t_from t, t_to t)) (st_suggestions s)
            = [("C"%string, "A"%string)].
Proof.
  intros df.
  destruct (@X9_missing_amount_is_settled df 1 _ eq_refl eq_refl)
    as [[b [Hb [_ Hmsg]]] Hsug].
  split; [exists b; split; [exact Hb | exact Hmsg] |].
  destruct (settle 2 df) as [s |] eqn:Hrun; [| vm_compute in Hrun; discriminate].
  exists s. split; [reflexivity |]. split; [exact (Hsug 2 s Hrun) |].
  vm_compute in Hrun. injection Hrun as <-. reflexivity.
Defined.

Section AllSettled.

Open Scope Q_scope.

Lemma Qsum_zero_nonneg (l : list Q) (x : Q) :
  (forall y, In y l -> 0 <= y) -> Qsum l == 0 -> In x l -> x == 0.
Proof.
  intros Hpos Hsum Hin.
  pose proof (Qsum_ge_element l x Hpos Hin) as Hle.
  pose proof (Hpos x Hin). lra.
Qed.

Lemma Qsum_zero_nonpos (l : list Q) (x : Q) :
  (forall y, In y l -> y <= 0) -> Qsum l == 0 -> In x l -> x == 0.
Proof.
  intros Hneg Hsum Hin.
  assert (H : - x == 0).
  { apply (Qsum_zero_nonneg (map Qopp l)).
    - intros y Hy. apply in_map_iff in Hy. destruct Hy as [z [<- Hz]].
      specialize (Hneg z Hz). lra.
    - rewrite Qsum_map_opp, Hsum. reflexivity.
    - now apply in_map. }
  lra.
Qed.

(** In exact arithmetic a frame of the loop is empty exactly when every
    balance is zero. *)
Lemma no_pair_iff_all_zero (df : DataFrame Q) :
  df <> [] ->
  (debtors_of (balances df) = [] \/ creditors_of (balances df) = [])
  <-> (forall b, In b (balances df) -> Balance b == 0).
Proof.
  intros Hne. pose proof (sum_balances_Q Hne) as Hsum. split.
  - intros [Hno | Hno] b Hb.
    + apply (Qsum_zero_nonneg (map Balance (balances df))); [| exact Hsum | now apply in_map].
      intros y Hy. apply in_map_iff in Hy. destruct Hy as [x [<- Hx]].
      destruct (is_debtor x) eqn:E.
      * assert (Hin : In x (debtors_of (balances df))) by (apply filter_In; auto).
        rewrite Hno in Hin. destruct Hin.
      * unfold is_debtor in E. apply Q_ltb_ge in E. exact E.
    + apply (Qsum_zero_nonpos (map Balance (balances df))); [| exact Hsum | now apply in_map].
      intros y Hy. apply in_map_iff in Hy. destruct Hy as [x [<- Hx]].
      destruct (is_creditor x) eqn:E.
      * assert (Hin : In x (creditors_of (balances df))) by (apply filter_In; auto).
        rewrite Hno in Hin. destruct Hin.
      * unfold is_creditor in E. apply Q_ltb_ge in E. exact E.
  - intros Hzero. left. apply filter_none. intros b Hb.
    unfold is_debtor. apply Q_ltb_ge. rewrite (Hzero b Hb).
    cbn. apply Qle_refl.
Qed.

Lemma all_zero_iff_all_fair (df : DataFrame Q) :
  (forall b, In b (balances df) -> Balance b == 0)
  <-> (forall r, In r df -> Amount r == per_person df).
Proof.
  split.
  - intros H r Hr. apply In_nth_error in Hr. destruct Hr as [k Hk].
    assert (Hb : nth_error (balances df) k
                 = Some {| label := k; name := Participant r; paid := Amount r;
                           Balance := f_sub (Amount r) (per_person df) |})
      by (rewrite nth_error_balances, Hk; reflexivity).
    apply nth_error_In in Hb. specialize (H _ Hb). cbn [Balance] in H.
    revert H. generalize (per_person df). intros pp.
    change (@f_sub Q Q_Arith) with Qminus. intros H. lra.
  - intros H b Hb. destruct (In_balances _ _ Hb) as [r [Hr [_ [_ Hbal]]]].
    apply nth_error_In in Hr. specialize (H r Hr). rewrite Hbal.
    revert H. generalize (per_person df). intros pp.
    change (@f_sub Q Q_Arith) with Qminus. intros H. lra.
Qed.

End AllSettled.

(** X10: when tab 3 says "All settled!".  For every arithmetic and every
    run of the loop that ends, the page shows "All settled!" exactly when
    nobody has a balance below zero or nobody has a balance above zero.
    In exact arithmetic, on a table that is not empty, this is exactly
    when every participant has paid the fair share.  In binary64 it is
    not: when A, B and C have paid 0.1 each, the total is
    0.30000000000000004, the fair share 0.10000000000000002, nobody has
    paid the fair share, all three balances are negative, and the page
    says "All settled!". *)
Theorem X10_all_settled_iff :
  (forall (F : Type) (A : Arith F) (df : DataFrame F) (fuel : nat)
          (s : loop_state F),
     settle fuel df = Some s ->
     (view_of (st_suggestions s) = All_settled
      <-> debtors_of (balances df) = [] \/ creditors_of (balances df) = [])) /\
  (forall (df : DataFrame Q) (fuel : nat) (s : loop_state Q),
     df <> [] ->
     settle fuel df = Some s ->
     (view_of (st_suggestions s) = All_settled
      <-> forall r, In r df -> (Amount r == per_person df)%Q)) /\
  (let df := [entry "A" 1 10; entry "B" 1 10; entry "C" 1 10] in
   (exists s, settle 0 df = Some s /\ view_of (st_suggestions s) = All_settled) /\
   map is_debtor (balances df) = [true; true; true] /\
   map (fun r => F64.eqb (Amount r) (per_person df)) df = [false; false; false]).
Proof.
  assert (Hview : forall (F : Type) (ts : list (transfer F)),
             view_of ts = All_settled <-> ts = []).
  { intros F ts. destruct ts; cbn; split; intros H; try reflexivity; discriminate. }
  split; [| split].
  - intros F A df fuel s Hrun. rewrite Hview.
    exact (suggestions_nil_iff _ _ Hrun).
  - intros df fuel s Hne Hrun.
    rewrite Hview, (suggestions_nil_iff _ _ Hrun), (no_pair_iff_all_zero Hne).
    apply all_zero_iff_all_fair.
  - intros df. split; [| split; vm_compute; reflexivity].
    eexists. split; vm_compute; reflexivity.
Qed.

(** In binary64, A = 50, B = 50: nobody owes and the page says "All
    settled!"; in exact arithmetic, A = 60, B = 30: A has not paid the fair
    share, and the page shows a suggestion. *)
Lemma X10_all_settled_iff_witness :
  (exists s, settle 0 [entry "A" 50 1; entry "B" 50 1] = Some s /\
             view_of (st_suggestions s) = All_settled) /\
  (let df : DataFrame Q :=
     [ {| Participant := "A"; Amount := 60%Q |};
       {| Participant := "B"; Amount := 30%Q |} ] in
   exists s, settle 2 df = Some s /\ view_of (st_suggestions s) <> All_settled).
Proof.
  split.
  - destruct (settle 0 [entry "A" 50 1; entry "B" 50 1]) as [s |] eqn:Hrun;
      [| vm_compute in Hrun; discriminate].
    exists s. split; [reflexivity |].
    apply (proj1 X10_all_settled_iff F64.t _ _ _ _ Hrun).
    left. vm_compute. reflexivity.
  - intros df.
    destruct (settle 2 df) as [s |] eqn:Hrun; [| vm_compute in Hrun; discriminate].
    exists s. split; [reflexivity |].
    intros Hview.
    assert (Hne : df <> []) by discriminate.
    pose proof (proj1 (proj1 (proj2 X10_all_settled_iff) df 2 s Hne Hrun) Hview
                  {| Participant := "A"; Amount := 60%Q |} (or_introl eq_refl)) as H.
    vm_compute in H. discriminate H.
Defined.

(** ** Tab 3: nobody pays more than they owe *)

Section NobodyOverpays.

Open Scope Q_scope.

Variable bs : list (brow Q).
Hypothesis bs_labels : NoDup (map label bs).

(** Row [k] with the suggestions [ts] carried out, against row [k] of
    the balances: the balance has moved towards zero, not past it. *)
Let towards_zero (ts : list (transfer Q)) : Prop :=
  forall (k : nat) (b b' : brow Q),
    nth_error bs k = Some b ->
    nth_error (apply_transfers ts bs) k = Some b' ->
    label b' = label b /\ name b' = name b /\
    (Balance b < 0 -> Balance b <= Balance b' /\ Balance b' <= 0) /\
    (0 < Balance b -> 0 <= Balance b' /\ Balance b' <= Balance b) /\
    (Balance b == 0 -> Balance b' == 0).

Lemma towards_zero_initial : towards_zero [].
Proof.
  intros k b b' Hb Hb'. cbn in Hb'. rewrite Hb in Hb'. injection Hb' as <-.
  repeat split; try reflexivity; try lra; auto.
Qed.

Lemma towards_zero_step (D C : nat) (total : Q) (s : loop_state Q) (d c : brow Q) :
  loop_inv D C total s ->
  frames_applied bs s ->
  towards_zero (st_suggestions s) ->
  nth_error (st_debtors s) (st_i s) = Some d ->
  nth_error (st_creditors s) (st_j s) = Some c ->
  towards_zero (st_suggestions (loop_body d c s)).
Proof.
  intros Inv [Hfd [Hfc _]] IH Hd Hc.
  assert (Hbd : Balance d < 0) by (apply (inv_debtors Inv _ Hd); apply Nat.le_refl).
  assert (Hbc : 0 < Balance c) by (apply (inv_creditors Inv _ Hc); apply Nat.le_refl).
  destruct (pay_spec Hbd Hbc) as [Hpay [Hd' [Hc' _]]].
  rewrite loop_body_suggestions.
  set (pay := py_min (f_neg (Balance d)) (Balance c)) in *.
  set (adjusted := apply_transfers (st_suggestions s) bs) in *.
  assert (Hdin : In d (st_debtors s)) by (now apply nth_error_In with (st_i s)).
  assert (Hcin : In c (st_creditors s)) by (now apply nth_error_In with (st_j s)).
  assert (Hdl : In (label d) (debtor_labels bs)).
  { rewrite <- Hfd in Hdin. apply filter_In in Hdin.
    apply has_label_spec. apply Hdin. }
  assert (Hcl : In (label c) (creditor_labels bs)).
  { rewrite <- Hfc in Hcin. apply filter_In in Hcin.
    apply has_label_spec. apply Hcin. }
  assert (Hdc : label d <> label c).
  { intros E. rewrite E in Hdl.
    exact (debtor_creditor_disjoint bs bs_labels _ Hdl Hcl). }
  intros k b b'' Hb Hb''.
  rewrite apply_transfers_snoc in Hb''. unfold apply_transfer in Hb''.
  cbn [t_to_label t_from_label t_pay] in Hb''. fold adjusted in Hb''.
  rewrite !nth_error_at_update in Hb''.
  destruct (nth_error adjusted k) as [b' |] eqn:Eb'; [| discriminate].
  destruct (IH k b b' Hb Eb') as [Hlab [Hname [Hneg [Hpos Hzero]]]].
  assert (Hb'in : In b' adjusted) by (now apply nth_error_In with k).
  assert (Hbin : In b bs) by (now apply nth_error_In with k).
  cbn [option_map] in Hb''.
  destruct (Nat.eqb (label b') (label d)) eqn:Ed.
  - apply Nat.eqb_eq in Ed.
    assert (Hsame : b' = d).
    { apply (same_label_same_row (st_debtors s)); auto.
      - apply (inv_nodup_d Inv).
      - rewrite <- Hfd. apply filter_In. split; [exact Hb'in |].
        apply has_label_spec. now rewrite Ed. }
    assert (Hdeb : Balance b < 0).
    { apply Q_ltb_lt. change (is_debtor b = true).
      rewrite <- (was_debtor_is_debtor bs bs_labels b Hbin).
      apply has_label_spec. now rewrite <- Hlab, Ed. }
    cbn [label set_Balance] in Hb''.
    replace (Nat.eqb (label b') (label c)) with false in Hb''
      by (symmetry; apply Nat.eqb_neq; congruence).
    injection Hb'' as <-. cbn [label name Balance set_Balance f_add Q_Arith].
    specialize (Hneg Hdeb). rewrite Hsame in Hneg. rewrite Hsame.
    split; [congruence |]. split; [congruence |].
    split; [intros _; split; lra |]. split; intros; lra.
  - destruct (Nat.eqb (label b') (label c)) eqn:Ec.
    + apply Nat.eqb_eq in Ec.
      assert (Hsame : b' = c).
      { apply (same_label_same_row (st_creditors s)); auto.
        - apply (inv_nodup_c Inv).
        - rewrite <- Hfc. apply filter_In. split; [exact Hb'in |].
          apply has_label_spec. now rewrite Ec. }
      assert (Hcred : 0 < Balance b).
      { apply Q_ltb_lt. change (is_creditor b = true).
        rewrite <- (was_creditor_is_creditor bs bs_labels b Hbin).
        apply has_label_spec. now rewrite <- Hlab, Ec. }
      injection Hb'' as <-. cbn [label name Balance set_Balance f_sub Q_Arith].
      specialize (Hpos Hcred). rewrite Hsame in Hpos. rewrite Hsame.
      split; [congruence |]. split; [congruence |].
      split; [intros; lra |]. split; [intros _; split; lra | intros; lra].
    + injection Hb'' as <-. auto.
Qed.

Lemma towards_zero_result (fuel : nat) (s : loop_state Q) :
  settle_loop fuel (initial_state bs) = Some s ->
  towards_zero (st_suggestions s).
Proof.
  intros Hrun.
  pose (D := length (debtors_of bs)). pose (C := length (creditors_of bs)).
  pose (T0 := Qsum (map Balance (debtors_of bs)) + Qsum (map Balance (creditors_of bs))).
  assert (H : loop_inv D C T0 s /\ frames_applied bs s /\
              towards_zero (st_suggestions s)).
  { apply (settle_loop_invariant
             (fun s => loop_inv D C T0 s /\ frames_applied bs s /\
                       towards_zero (st_suggestions s)))
      with (fuel := fuel) (s := initial_state bs); [| | exact Hrun].
    - intros s0 d c [Inv [Hfr Htz]] Hd Hc.
      split; [apply (loop_inv_step Inv Hd Hc) |].
      split; [now apply frames_applied_step |].
      now apply towards_zero_step with D C T0.
    - split; [apply (initial_loop_inv bs bs_labels) |].
      split; [apply (frames_applied_initial bs bs_labels) |].
      apply towards_zero_initial. }
  apply H.
Qed.

End NobodyOverpays.

(** ** Tab 3 in binary64: nobody pays more than they owe *)

Section NobodyOverpaysDoubles.

Local Open Scope Z_scope.

Variable df : DataFrame F64.t.
Hypothesis df_doubles : doubles df = true.

Let bs := balances df.
Let D := length (debtors_of bs).
Let C := length (creditors_of bs).

Let bs_labels : NoDup (map label bs) := NoDup_labels_balances df.

(** Row [k] with the suggestions [ts] carried out, against row [k] of
    the balances: the balance is on the same side of zero, or [+0.0], and
    not larger in magnitude. *)
Let towards (ts : list (transfer F64.t)) : Prop :=
  forall (k : nat) (b b' : brow F64.t),
    nth_error bs k = Some b ->
    nth_error (apply_transfers ts bs) k = Some b' ->
    label b' = label b /\ name b' = name b /\
    (is_debtor b = true ->
     (neg_or_inf (Balance b') = true \/ Balance b' = S754_zero false) /\
     magnitude (Balance b') <= magnitude (Balance b)) /\
    (is_creditor b = true ->
     (pos_or_inf (Balance b') = true \/ Balance b' = S754_zero false) /\
     magnitude (Balance b') <= magnitude (Balance b)) /\
    (is_debtor b = false -> is_creditor b = false -> b' = b).

Lemma towards_initial : towards [].
Proof.
  assert (Hdbl : forall r, In r bs -> is_double (Balance r) = true).
  { intros r Hr. now apply (balances_double df). }
  intros k b b' Hb Hb'. cbn in Hb'. rewrite Hb in Hb'. injection Hb' as <-.
  assert (Hin : In b bs) by (now apply nth_error_In with k).
  split; [reflexivity |]. split; [reflexivity |].
  split; [| split; [| reflexivity]]; intros H; (split; [left | lia]).
  - apply debtor_neg_or_inf; [now apply Hdbl | exact H].
  - apply creditor_pos_or_inf; [now apply Hdbl | exact H].
Qed.

Lemma towards_step (s : loop_state F64.t) (d c : brow F64.t) :
  double_inv D C s ->
  frames_applied bs s ->
  towards (st_suggestions s) ->
  nth_error (st_debtors s) (st_i s) = Some d ->
  nth_error (st_creditors s) (st_j s) = Some c ->
  towards (st_suggestions (loop_body d c s)).
Proof.
  intros Inv [Hfd [Hfc _]] IH Hd Hc.
  assert (Hbd : neg_or_inf (Balance d) = true)
    by (apply (dbl_debtors Inv Hd); apply Nat.le_refl).
  assert (Hbc : pos_or_inf (Balance c) = true)
    by (apply (dbl_creditors Inv Hc); apply Nat.le_refl).
  assert (Hone : neg_double (Balance d) = true \/ pos_double (Balance c) = true).
  { destruct (dbl_one_side Inv) as [H | H]; [left | right].
    - apply (H _ _ Hd). apply Nat.le_refl.
    - apply (H _ _ Hc). apply Nat.le_refl. }
  destruct (pay_spec_doubles _ _ Hbd Hbc Hone) as [_ [Hd' [_ [Hc' _]]]].
  destruct (pay_magnitudes _ _ Hbd Hbc Hone) as [Hmd Hmc].
  rewrite loop_body_suggestions.
  set (pay := py_min (f_neg (Balance d)) (Balance c)) in *.
  set (adjusted := apply_transfers (st_suggestions s) bs) in *.
  assert (Hdin : In d (st_debtors s)) by (now apply nth_error_In with (st_i s)).
  assert (Hcin : In c (st_creditors s)) by (now apply nth_error_In with (st_j s)).
  assert (Hdl : In (label d) (debtor_labels bs)).
  { rewrite <- Hfd in Hdin. apply filter_In in Hdin.
    apply has_label_spec. apply Hdin. }
  assert (Hcl : In (label c) (creditor_labels bs)).
  { rewrite <- Hfc in Hcin. apply filter_In in Hcin.
    apply has_label_spec. apply Hcin. }
  assert (Hdc : label d <> label c).
  { intros E. rewrite E in Hdl.
    exact (debtor_creditor_disjoint bs bs_labels _ Hdl Hcl). }
  intros k b b'' Hb Hb''.
  rewrite apply_transfers_snoc in Hb''. unfold apply_transfer in Hb''.
  cbn [t_to_label t_from_label t_pay] in Hb''. fold adjusted in Hb''.
  rewrite !nth_error_at_update in Hb''.
  destruct (nth_error adjusted k) as [b' |] eqn:Eb'; [| discriminate].
  destruct (IH k b b' Hb Eb') as [Hlab [Hname [Hneg [Hpos Hzero]]]].
  assert (Hb'in : In b' adjusted) by (now apply nth_error_In with k).
  assert (Hbin : In b bs) by (now apply nth_error_In with k).
  cbn [option_map] in Hb''.
  destruct (Nat.eqb (label b') (label d)) eqn:Ed.
  - apply Nat.eqb_eq in Ed.
    assert (Hsame : b' = d).
    { apply (same_label_same_row (st_debtors s)); auto.
      - apply (dbl_nodup_d Inv).
      - rewrite <- Hfd. apply filter_In. split; [exact Hb'in |].
        apply has_label_spec. now rewrite Ed. }
    assert (Hdeb : is_debtor b = true).
    { rewrite <- (was_debtor_is_debtor bs bs_labels b Hbin).
      apply has_label_spec. now rewrite <- Hlab, Ed. }
    assert (Hncred : is_creditor b = false).
    { unfold is_debtor, is_creditor in *. now apply f_ltb_asym. }
    cbn [label set_Balance] in Hb''.
    replace (Nat.eqb (label b') (label c)) with false in Hb''
      by (symmetry; apply Nat.eqb_neq; congruence).
    injection Hb'' as <-. cbn [label name Balance set_Balance].
    destruct (Hneg Hdeb) as [_ Hmag]. rewrite Hsame in Hmag. rewrite Hsame.
    split; [congruence |]. split; [congruence |].
    split; [intros _; split; [exact Hd' | exact (Z.le_trans _ _ _ Hmd Hmag)] |].
    split; [intros H; congruence | intros H; congruence].
  - destruct (Nat.eqb (label b') (label c)) eqn:Ec.
    + apply Nat.eqb_eq in Ec.
      assert (Hsame : b' = c).
      { apply (same_label_same_row (st_creditors s)); auto.
        - apply (dbl_nodup_c Inv).
        - rewrite <- Hfc. apply filter_In. split; [exact Hb'in |].
          apply has_label_spec. now rewrite Ec. }
      assert (Hcred : is_creditor b = true).
      { rewrite <- (was_creditor_is_creditor bs bs_labels b Hbin).
        apply has_label_spec. now rewrite <- Hlab, Ec. }
      assert (Hndeb : is_debtor b = false).
      { unfold is_debtor, is_creditor in *. now apply f_ltb_asym. }
      injection Hb'' as <-. cbn [label name Balance set_Balance].
      destruct (Hpos Hcred) as [_ Hmag]. rewrite Hsame in Hmag. rewrite Hsame.
      split; [congruence |]. split; [congruence |].
      split; [intros H; congruence |].
      split; [intros _; split; [exact Hc' | exact (Z.le_trans _ _ _ Hmc Hmag)] |
              intros H; congruence].
    + injection Hb'' as <-. auto.
Qed.

Lemma towards_result (fuel : nat) (s : loop_state F64.t) :
  settle_loop fuel (initial_state bs) = Some s ->
  towards (st_suggestions s).
Proof.
  intros Hrun.
  assert (H : double_inv D C s /\ frames_applied bs s /\
              towards (st_suggestions s)).
  { apply (settle_loop_invariant
             (fun s => double_inv D C s /\ frames_applied bs s /\
                       towards (st_suggestions s)))
      with (fuel := fuel) (s := initial_state bs); [| | exact Hrun].
    - intros s0 d c [Inv [Hfr Htz]] Hd Hc.
      split; [apply (double_inv_step Inv Hd Hc) |].
      split; [now apply frames_applied_step |].
      now apply towards_step.
    - split; [apply (initial_double_inv df df_doubles) |].
      split; [apply (frames_applied_initial bs bs_labels) |].
      apply towards_initial. }
  apply H.
Qed.

(** The same in the order of the doubles. *)
Lemma towards_zero_doubles (fuel : nat) (s : loop_state F64.t)
    (k : nat) (b b' : brow F64.t) :
  settle_loop fuel (initial_state bs) = Some s ->
  nth_error bs k = Some b ->
  nth_error (apply_transfers (st_suggestions s) bs) k = Some b' ->
  name b' = name b /\
  (is_debtor b = true ->
   F64.leb (Balance b) (Balance b') = true /\
   F64.leb (Balance b') (F64.of_Z 0) = true) /\
  (is_creditor b = true ->
   F64.leb (F64.of_Z 0) (Balance b') = true /\
   F64.leb (Balance b') (Balance b) = true) /\
  (is_debtor b = false -> is_creditor b = false -> Balance b' = Balance b).
Proof.
  intros Hrun Hb Hb'.
  destruct (@towards_result fuel s Hrun k b b' Hb Hb') as [_ [Hname [Hneg [Hpos Hzero]]]].
  assert (Hdbl : is_double (Balance b) = true).
  { apply (balances_double df); [exact df_doubles | now apply nth_error_In with k]. }
  split; [exact Hname |]. split; [| split].
  - intros H. destruct (Hneg H) as [Hcat Hmag].
    apply debt_not_grown; [| exact Hcat | exact Hmag].
    now apply debtor_neg_or_inf.
  - intros H. destruct (Hpos H) as [Hcat Hmag].
    apply credit_not_grown; [| exact Hcat | exact Hmag].
    now apply creditor_pos_or_inf.
  - intros H1 H2. now rewrite (Hzero H1 H2).
Qed.

End NobodyOverpaysDoubles.

(** X11: nobody pays more than they owe, nobody receives more than they
    are owed.  For every run of the loop that ends, with the suggestions
    carried out: the balance of a participant who owed lies between the
    old balance and zero, the balance of a participant who was owed lies
    between zero and the old balance, and the balance of a participant
    who was neither is as it was.  No balance changes sign.  This holds in
    binary64, in the order of the doubles, on every table of doubles, and
    in exact arithmetic. *)
Theorem X11_nobody_overpays :
  (forall (df : DataFrame F64.t) (fuel : nat) (s : loop_state F64.t),
     doubles df = true ->
     settle fuel df = Some s ->
     forall (k : nat) (b b' : brow F64.t),
       nth_error (balances df) k = Some b ->
       nth_error (apply_transfers (st_suggestions s) (balances df)) k = Some b' ->
       name b' = name b /\
       (F64.ltb (Balance b) (F64.of_Z 0) = true ->
        F64.leb (Balance b) (Balance b') = true /\
        F64.leb (Balance b') (F64.of_Z 0) = true) /\
       (F64.ltb (F64.of_Z 0) (Balance b) = true ->
        F64.leb (F64.of_Z 0) (Balance b') = true /\
        F64.leb (Balance b') (Balance b) = true) /\
       (F64.ltb (Balance b) (F64.of_Z 0) = false ->
        F64.ltb (F64.of_Z 0) (Balance b) = false ->
        Balance b' = Balance b)) /\
  (forall (df : DataFrame Q) (fuel : nat) (s : loop_state Q),
     settle fuel df = Some s ->
     forall (k : nat) (b b' : brow Q),
       nth_error (balances df) k = Some b ->
       nth_error (apply_transfers (st_suggestions s) (balances df)) k = Some b' ->
       name b' = name b /\
       ((Balance b < 0)%Q -> (Balance b <= Balance b' /\ Balance b' <= 0)%Q) /\
       ((0 < Balance b)%Q -> (0 <= Balance b' /\ Balance b' <= Balance b)%Q) /\
       ((Balance b == 0)%Q -> (Balance b' == 0)%Q)).
Proof.
  split.
  - intros df fuel s Hdf Hrun k b b' Hb Hb'.
    exact (@towards_zero_doubles df Hdf fuel s k b b' Hrun Hb Hb').
  - intros df fuel s Hrun k b b' Hb Hb'.
    destruct (@towards_zero_result (balances df) (NoDup_labels_balances df)
                fuel s Hrun k b b' Hb Hb') as [_ H].
    exact H.
Qed.

(** In binary64, the amounts 2e13, 0 and 0: C owes 6666666666666.667 and
    pays the 6666666666666.665 that A is still owed; what is left of the
    debt, 1/512, lies between the old balance and zero. *)
Lemma X11_nobody_overpays_witness :
  let df := [entry "A" 20000000000000 1; entry "B" 0 1; entry "C" 0 1] in
  exists s b b',
    settle 3 df = Some s /\
    nth_error (balances df) 2 = Some b /\
    nth_error (apply_transfers (st_suggestions s) (balances df)) 2 = Some b' /\
    Balance b' = S754_finite true 4503599627370496 (-61) /\
    F64.leb (Balance b) (Balance b') = true /\
    F64.leb (Balance b') (F64.of_Z 0) = true.
Proof.
  intros df.
  assert (Hdf : doubles df = true) by (vm_compute; reflexivity).
  destruct (settle 3 df) as [s |] eqn:Hrun; [| vm_compute in Hrun; discriminate].
  destruct (nth_error (balances df) 2) as [b |] eqn:Hb;
    [| vm_compute in Hb; discriminate].
  destruct (nth_error (apply_transfers (st_suggestions s) (balances df)) 2)
    as [b' |] eqn:Hb'.
  - exists s, b, b'. split; [reflexivity |]. split; [reflexivity |].
    split; [exact Hb' |].
    destruct (proj1 X11_nobody_overpays df 3 s Hdf Hrun 2 b b' Hb Hb')
      as [_ [Hneg _]].
    assert (Hdeb : F64.ltb (Balance b) (F64.of_Z 0) = true).
    { vm_compute in Hb. injection Hb as <-. vm_compute. reflexivity. }
    split; [| exact (Hneg Hdeb)].
    vm_compute in Hrun. injection Hrun as <-.
    vm_compute in Hb'. injection Hb' as <-. reflexivity.
  - exfalso. apply nth_error_None in Hb'.
    assert (Hlen : length (apply_transfers (st_suggestions s) (balances df)) = 3).
    { rewrite <- (length_map label), labels_apply_transfers, length_map. reflexivity. }
    lia.
Defined.

(** ** Tab 3: the order of the suggestions *)

Section TableOrder.

Context {F : Type} {A : Arith F}.

Lemma StronglySorted_lt_nth (L : list nat) (i k a b : nat) :
  StronglySorted lt L -> i <= k ->
  nth_error L i = Some a -> nth_error L k = Some b -> a <= b.
Proof.
  intros HL. revert i k. induction HL as [| x L HL IH Hx]; intros i k Hik Ha Hb.
  - destruct i; discriminate.
  - destruct i as [| i], k as [| k]; cbn [nth_error] in Ha, Hb; try lia.
    + injection Ha as <-. injection Hb as <-. lia.
    + injection Ha as <-. apply nth_error_In in Hb.
      rewrite Forall_forall in Hx. specialize (Hx b Hb). lia.
    + apply (IH i k); [lia | exact Ha | exact Hb].
Qed.

Lemma StronglySorted_lt_NoDup (L : list nat) : StronglySorted lt L -> NoDup L.
Proof.
  induction 1 as [| x L HL IH Hx]; constructor; [| exact IH].
  intros Hin. rewrite Forall_forall in Hx. specialize (Hx x Hin). lia.
Qed.

Lemma StronglySorted_le_snoc (l : list nat) (x : nat) :
  StronglySorted le l -> Forall (fun y => y <= x) l ->
  StronglySorted le (l ++ [x]).
Proof.
  induction 1 as [| y l Hl IH Hy]; intros Hall; cbn [app].
  - constructor; constructor.
  - inversion Hall as [| ? ? Hyx Hall']; subst.
    constructor; [apply IH; exact Hall' |].
    apply Forall_app. split; [exact Hy |]. constructor; [exact Hyx | constructor].
Qed.

Variable bs : list (brow F).
Hypothesis bs_sorted : StronglySorted lt (map label bs).

(** The state at the head of the loop, for the order: the suggestions
    made so far name payers in the order of the table, none of them later
    in the table than the debtor of the pointer, and the same for the
    payees. *)
Let in_order (s : loop_state F) : Prop :=
  map label (st_debtors s) = map label (debtors_of bs) /\
  map label (st_creditors s) = map label (creditors_of bs) /\
  StronglySorted le (map t_from_label (st_suggestions s)) /\
  StronglySorted le (map t_to_label (st_suggestions s)) /\
  (forall t k l, In t (st_suggestions s) -> st_i s <= k ->
                 nth_error (map label (debtors_of bs)) k = Some l ->
                 t_from_label t <= l) /\
  (forall t k l, In t (st_suggestions s) -> st_j s <= k ->
                 nth_error (map label (creditors_of bs)) k = Some l ->
                 t_to_label t <= l).

Lemma in_order_initial : in_order (initial_state bs).
Proof.
  unfold in_order. cbn [initial_state st_debtors st_creditors st_suggestions map].
  repeat split; try constructor; intros t k l [].
Qed.

Lemma in_order_step (s : loop_state F) (d c : brow F) :
  in_order s ->
  nth_error (st_debtors s) (st_i s) = Some d ->
  nth_error (st_creditors s) (st_j s) = Some c ->
  in_order (loop_body d c s).
Proof.
  intros [Hld [Hlc [Hsf [Hst [Hbf Hbt]]]]] Hd Hc.
  assert (HLD : StronglySorted lt (map label (debtors_of bs)))
    by (now apply StronglySorted_labels_filter).
  assert (HLC : StronglySorted lt (map label (creditors_of bs)))
    by (now apply StronglySorted_labels_filter).
  assert (Hndd : NoDup (map label (st_debtors s)))
    by (rewrite Hld; now apply StronglySorted_lt_NoDup).
  assert (Hndc : NoDup (map label (st_creditors s)))
    by (rewrite Hlc; now apply StronglySorted_lt_NoDup).
  assert (Hdl : nth_error (map label (debtors_of bs)) (st_i s) = Some (label d))
    by (rewrite <- Hld; now apply map_nth_error).
  assert (Hcl : nth_error (map label (creditors_of bs)) (st_j s) = Some (label c))
    by (rewrite <- Hlc; now apply map_nth_error).
  assert (Hi : st_i s <= st_i (loop_body d c s)).
  { pose proof (loop_body_i c s Hndd Hd) as Ei. rewrite Ei.
    match goal with |- context [if ?t then _ else _] => destruct t end; lia. }
  assert (Hj : st_j s <= st_j (loop_body d c s)).
  { pose proof (loop_body_j d s Hndc Hc) as Ej. rewrite Ej.
    match goal with |- context [if ?t then _ else _] => destruct t end; lia. }
  unfold in_order.
  rewrite loop_body_debtors, loop_body_creditors, loop_body_suggestions,
    !labels_at_update, !map_app.
  cbn [map t_from_label t_to_label].
  split; [exact Hld |]. split; [exact Hlc |].
  split; [| split; [| split]].
  - apply StronglySorted_le_snoc; [exact Hsf |].
    apply Forall_forall. intros l Hl. apply in_map_iff in Hl.
    destruct Hl as [t [<- Ht]]. apply (Hbf t (st_i s)); auto.
  - apply StronglySorted_le_snoc; [exact Hst |].
    apply Forall_forall. intros l Hl. apply in_map_iff in Hl.
    destruct Hl as [t [<- Ht]]. apply (Hbt t (st_j s)); auto.
  - intros t k l Ht Hk Hl. apply in_app_or in Ht. destruct Ht as [Ht | [<- | []]].
    + apply (Hbf t k); [exact Ht | lia | exact Hl].
    + cbn [t_from_label].
      apply (@StronglySorted_lt_nth _ (st_i s) k _ _ HLD); [lia | exact Hdl | exact Hl].
  - intros t k l Ht Hk Hl. apply in_app_or in Ht. destruct Ht as [Ht | [<- | []]].
    + apply (Hbt t k); [exact Ht | lia | exact Hl].
    + cbn [t_to_label].
      apply (@StronglySorted_lt_nth _ (st_j s) k _ _ HLC); [lia | exact Hcl | exact Hl].
Qed.

Lemma in_order_result (fuel : nat) (s : loop_state F) :
  settle_loop fuel (initial_state bs) = Some s ->
  StronglySorted le (map t_from_label (st_suggestions s)) /\
  StronglySorted le (map t_to_label (st_suggestions s)).
Proof.
  intros Hrun.
  assert (H : in_order s).
  { apply (settle_loop_invariant in_order) with (fuel := fuel) (s := initial_state bs);
      [| apply in_order_initial | exact Hrun].
    intros s0 d c. apply in_order_step. }
  destruct H as [_ [_ [H1 [H2 _]]]]. split; assumption.
Qed.

End TableOrder.

(** X12: the suggestions come in the order of the table.  For every
    arithmetic and every run of the loop that ends: along the list of the
    suggestions, the rows of the payers never go back in the table, and
    neither do the rows of the payees, so that the payments of one
    participant stand next to each other. *)
Theorem X12_suggestions_in_table_order :
  forall (F : Type) (A : Arith F) (df : DataFrame F) (fuel : nat)
         (s : loop_state F),
    settle fuel df = Some s ->
    StronglySorted le (map t_from_label (st_suggestions s)) /\
    StronglySorted le (map t_to_label (st_suggestions s)).
Proof.
  intros F A df fuel s Hrun.
  apply in_order_result with (balances df) fuel; [| exact Hrun].
  unfold balances. rewrite labels_balance_rows. apply StronglySorted_seq.
Qed.

(** The amounts 55, 45, 0, 0 in binary64: the payers are the rows 2, 3,
    3 and the payees the rows 0, 0, 1. *)
Lemma X12_suggestions_in_table_order_witness :
  let df := [entry "A" 55 1; entry "B" 45 1; entry "C" 0 1; entry "D" 0 1] in
  exists s,
    settle 4 df = Some s /\
    map t_from_label (st_suggestions s) = [2; 3; 3] /\
    map t_to_label (st_suggestions s) = [0; 0; 1] /\
    StronglySorted le (map t_from_label (st_suggestions s)) /\
    StronglySorted le (map t_to_label (st_suggestions s)).
Proof.
  intros df.
  destruct (settle 4 df) as [s |] eqn:Hrun; [| vm_compute in Hrun; discriminate].
  exists s. split; [reflexivity |].
  pose proof (@X12_suggestions_in_table_order F64.t _ df 4 s Hrun) as H.
  vm_compute in Hrun. injection Hrun as <-.
  split; [reflexivity |]. split; [reflexivity |]. exact H.
Defined.

(** ** The session and the file *)

Section SessionAndFile.

Context {F : Type} {A : Arith F}.

Variable csv : Type.
Variable to_csv : DataFrame F -> csv.
Variable read_csv : csv -> DataFrame F.

Lemma Participant_tab2 (expense_btn : bool) (amount : F) (split : split_type)
    (share_input : nat -> F) (df : DataFrame F) :
  map Participant (fst (tab2 expense_btn amount split share_input df))
  = map Participant df.
Proof.
  unfold tab2. destruct df as [| r df]; [reflexivity |].
  destruct expense_btn; [| reflexivity].
  cbn [fst]. rewrite tab2_by_increments. apply Participant_add_list.
Qed.

Lemma tab2_unchanged (expense_btn : bool) (amount : F) (split : split_type)
    (share_input : nat -> F) (df : DataFrame F) :
  snd (tab2 expense_btn amount split share_input df) <> Some Tab2_paid ->
  fst (tab2 expense_btn amount split share_input df) = df.
Proof.
  unfold tab2. destruct df as [| r df]; [reflexivity |].
  destruct expense_btn; [| reflexivity].
  unfold fst at 1, snd at 1. intros H. apply tab2_failure_unchanged. congruence.
Qed.

(** What a run leaves in the session state and in the file, by the
    buttons that took effect. *)
Lemma run_cases (w : widgets F) (session : option (DataFrame F))
    (file : option csv) :
  let df0 := match session with
             | Some df => df
             | None => load_expenses read_csv file
             end in
  let df1 := fst (tab1_add (w_add_btn w) (w_new_participant w) df0) in
  let df2 := fst (tab2 (w_expense_btn w) (w_amount w) (w_split_type w)
                    (w_share_input w) df1) in
  let r := run to_csv read_csv w session file in
  (r_session r = Some df2 /\ r_file r = Some (to_csv df2)) \/
  (w_save_btn w = true /\
   r_session r = Some (w_data_editor w df1) /\
   r_file r = Some (to_csv (w_data_editor w df1))) \/
  (w_save_btn w = false /\ r_session r = Some df1 /\ df2 = df1 /\
   ((r_file r = Some (to_csv df1)) \/ (r_file r = file /\ df1 = df0))).
Proof.
  intros df0 df1 df2 r.
  assert (Hrest :
    (w_save_btn w = true /\
     (if w_save_btn w then w_data_editor w df1 else df1) = w_data_editor w df1 /\
     (if w_save_btn w then save_expenses to_csv (w_data_editor w df1)
      else match snd (tab1_add (w_add_btn w) (w_new_participant w) df0) with
           | Tab1_added => save_expenses to_csv df1
           | _ => file
           end) = Some (to_csv (w_data_editor w df1))) \/
    (w_save_btn w = false /\
     (if w_save_btn w then w_data_editor w df1 else df1) = df1 /\
     ((if w_save_btn w then save_expenses to_csv (w_data_editor w df1)
       else match snd (tab1_add (w_add_btn w) (w_new_participant w) df0) with
            | Tab1_added => save_expenses to_csv df1
            | _ => file
            end) = Some (to_csv df1) \/
      ((if w_save_btn w then save_expenses to_csv (w_data_editor w df1)
        else match snd (tab1_add (w_add_btn w) (w_new_participant w) df0) with
             | Tab1_added => save_expenses to_csv df1
             | _ => file
             end) = file /\ df1 = df0)))).
  { destruct (w_save_btn w); [left; auto |]. right.
    split; [reflexivity |]. split; [reflexivity |].
    destruct (tab1_add_cases (w_add_btn w) (w_new_participant w) df0)
      as [[E Hm] | [_ [Hm _]]].
    - right. split; [| exact E].
      destruct (snd (tab1_add (w_add_btn w) (w_new_participant w) df0));
        try reflexivity. contradiction.
    - left. rewrite Hm. reflexivity. }
  assert (Hsame :
    snd (tab2 (w_expense_btn w) (w_amount w) (w_split_type w) (w_share_input w) df1)
    <> Some Tab2_paid -> df2 = df1).
  { apply tab2_unchanged. }
  unfold r, run. fold df0. fold df1. fold df2.
  destruct (snd (tab2 (w_expense_btn w) (w_amount w) (w_split_type w)
                   (w_share_input w) df1)) as [[ | | | ] |] eqn:E2;
    cbn [r_session r_file];
    try (left; split; reflexivity);
    (destruct Hrest as [[Hs [E1 E3]] | [Hs [E1 E3]]];
     [right; left; rewrite E1, E3; auto
     | right; right; rewrite E1; split; [exact Hs |]; split; [reflexivity |];
       split; [apply Hsame; discriminate |];
       destruct E3 as [E3 | [E3 E4]]; rewrite E3; auto]).
Qed.



End SessionAndFile.


(** X14: only the editor removes a participant.  In a run in which "Save
    Changes" is not pressed, the names of the table that the run leaves in
    the session state are the names it started from, in the same order,
    with the new name of tab 1 at the end when it was added; and the file
    is left as it was or holds that table. *)
Theorem X14_only_the_editor_removes :
  forall (F : Type) (A : Arith F) (csv : Type) (to_csv : DataFrame F -> csv)
         (read_csv : csv -> DataFrame F) (w : widgets F)
         (session : option (DataFrame F)) (file : option csv),
    w_save_btn w = false ->
    let before := match session with
                  | Some df => df
                  | None => load_expenses read_csv file
                  end in
    let r := run to_csv read_csv w session file in
    exists after,
      r_session r = Some after /\
      (map Participant after = map Participant before \/
       map Participant after = map Participant before ++ [w_new_participant w]) /\
      (r_file r = file \/ r_file r = Some (to_csv after)).
Proof.
  intros F A csv to_csv read_csv w session file Hsave before r.
  set (df1 := fst (tab1_add (w_add_btn w) (w_new_participant w) before)).
  assert (Hnames : map Participant df1 = map Participant before \/
                   map Participant df1 = map Participant before ++ [w_new_participant w]).
  { unfold df1.
    destruct (tab1_add_cases (w_add_btn w) (w_new_participant w) before)
      as [[E _] | [E _]]; rewrite E; [now left | right].
    rewrite map_app. reflexivity. }
  destruct (run_cases to_csv read_csv w session file)
    as [[E1 E2] | [[Hs _] | [_ [E1 [_ E2]]]]].
  - eexists. split; [exact E1 |]. split; [| right; exact E2].
    rewrite Participant_tab2. exact Hnames.
  - congruence.
  - exists df1. split; [exact E1 |]. split; [exact Hnames |].
    destruct E2 as [E2 | [E2 _]]; auto.
Qed.

(** A fresh session with no file: "Add" with the name A, no other button.
    The session holds the table with A and the file the same table. *)
Lemma X14_only_the_editor_removes_witness :
  let w : widgets F64.t :=
    {| w_new_participant := "A"; w_add_btn := true;
       w_data_editor := fun df => df; w_save_btn := false;
       w_amount := F64.of_Z 0; w_split_type := Equal;
       w_share_input := fun _ => F64.of_Z 0; w_expense_btn := false |} in
  let r := run (fun df => df) (fun content => content) w None None in
  exists after,
    r_session r = Some after /\
    (map Participant after = [] \/ map Participant after = ["A"%string]) /\
    (r_file r = None \/ r_file r = Some after).
Proof.
  intros w r.
  exact (@X14_only_the_editor_removes F64.t _ (DataFrame F64.t)
           (fun df => df) (fun content => content) w None None eq_refl).
Defined.

(** ** Tab 3 as a whole *)

Section WholePage.

Context {F : Type} {A : Arith F} {O : ArithOrder F}.

Lemma length_filter_disjoint (B : Type) (p q : B -> bool) (l : list B) :
  (forall x, p x = true -> q x = true -> False) ->
  length (filter p l) + length (filter q l) <= length l.
Proof.
  intros Hpq. induction l as [| x l IH]; [cbn; lia |].
  cbn [filter length]. specialize (Hpq x).
  destruct (p x), (q x); cbn [length]; lia.
Qed.

(** There are no more debtors and creditors than rows. *)
Lemma frames_fit (bs : list (brow F)) :
  length (debtors_of bs) + length (creditors_of bs) <= length bs.
Proof.
  apply length_filter_disjoint. intros r Hd Hc.
  unfold is_debtor in Hd. unfold is_creditor in Hc.
  rewrite (f_ltb_asym _ _ Hd) in Hc. discriminate.
Qed.

Lemma message_name_of (r : brow F) : message_name (balance_message_of r) = name r.
Proof.
  unfold balance_message_of.
  destruct (f_ltb (of_int 0) (Balance r)); [reflexivity |].
  destruct (f_ltb (Balance r) (of_int 0)); reflexivity.
Qed.

Lemma names_balances (df : DataFrame F) : map name (balances df) = map Participant df.
Proof.
  unfold balances. generalize (per_person df) as m. generalize 0 as start.
  induction df as [| r df IH]; intros start m; [reflexivity |].
  rewrite balance_rows_cons. cbn [map name]. f_equal. apply IH.
Qed.

(** Tab 3 when the loop ends within the passes given: the page for the
    table, with at most one suggestion less than the table has rows. *)
Lemma tab3_drawn (df : DataFrame F) (s : loop_state F) :
  settle_loop (length (debtors_of (balances df)) + length (creditors_of (balances df)))
              (initial_state (balances df)) = Some s ->
  length (st_suggestions s)
  <= length (debtors_of (balances df)) + length (creditors_of (balances df)) - 1 ->
  exists out,
    tab3 (length df) df = Some out /\
    match out with
    | Tab3_no_data => df = []
    | Tab3_summary total fair_share messages view =>
        df <> [] /\
        total = total_spent df /\
        fair_share = per_person df /\
        map message_name messages = map Participant df /\
        (view = All_settled \/
         exists ts, view = Suggestions ts /\ ts <> [] /\ length ts <= length df - 1)
    end.
Proof.
  intros Hrun Hcount.
  destruct df as [| r df]; [exists Tab3_no_data; split; reflexivity |].
  set (df0 := r :: df) in *.
  pose proof (frames_fit (balances df0)) as Hfit. rewrite length_balances in Hfit.
  assert (Hrun' : settle (length df0) df0 = Some s).
  { unfold settle. apply settle_loop_more_fuel with (1 := Hrun). exact Hfit. }
  unfold tab3. fold df0. rewrite Hrun'.
  eexists. split; [reflexivity |]. cbv beta iota.
  split; [discriminate |]. split; [reflexivity |]. split; [reflexivity |].
  split.
  - rewrite map_map. rewrite <- names_balances. apply map_ext. apply message_name_of.
  - destruct (st_suggestions s) as [| t ts] eqn:Es; [now left |].
    right. exists (t :: ts). split; [reflexivity |]. split; [discriminate |]. lia.
Qed.

End WholePage.

(** X15: tab 3 is always drawn.  In exact arithmetic on every table, and
    in binary64 on every table whose balances are finite doubles, as many
    passes of the loop as the table has rows are enough, and tab 3 shows:
    "No data available." for the empty table and nothing else; otherwise
    the total and the fair share, one line for each participant in the
    order of the table, and either "All settled!" or a list of suggestions
    that is not empty and has fewer entries than the table has rows. *)
Theorem X15_tab3_is_drawn :
  (forall df : DataFrame Q,
     exists out,
       tab3 (length df) df = Some out /\
       match out with
       | Tab3_no_data => df = []
       | Tab3_summary total fair_share messages view =>
           df <> [] /\
           total = total_spent df /\
           fair_share = per_person df /\
           map message_name messages = map Participant df /\
           (view = All_settled \/
            exists ts, view = Suggestions ts /\ ts <> [] /\
                       length ts <= length df - 1)
       end) /\
  (forall df : DataFrame F64.t,
     forallb (fun r => finite_double (Balance r)) (balances df) = true ->
     exists out,
       tab3 (length df) df = Some out /\
       match out with
       | Tab3_no_data => df = []
       | Tab3_summary total fair_share messages view =>
           df <> [] /\
           total = total_spent df /\
           fair_share = per_person df /\
           map message_name messages = map Participant df /\
           (view = All_settled \/
            exists ts, view = Suggestions ts /\ ts <> [] /\
                       length ts <= length df - 1)
       end).
Proof.
  split.
  - intros df.
    destruct (settle_loop_exact (balances df) (NoDup_labels_balances df))
      as [s [Hrun [Hinv _]]].
    apply tab3_drawn with s; [exact Hrun | apply (inv_count Hinv)].
  - intros df Hfin.
    destruct (settle_loop_F64 (balances df) (NoDup_labels_balances df) Hfin)
      as [s [Hrun [Hinv _]]].
    apply tab3_drawn with s; [exact Hrun | apply (f64_count Hinv)].
Qed.

(** The table A = 100, B = 0, C = 50 in binary64: three passes are
    enough and the page has a line for A, B and C. *)
Lemma X15_tab3_is_drawn_witness :
  let df := [entry "A" 100 1; entry "B" 0 1; entry "C" 50 1] in
  forallb (fun r => finite_double (Balance r)) (balances df) = true /\
  exists total fair_share messages view,
    tab3 3 df = Some (Tab3_summary total fair_share messages view) /\
    map message_name messages = ["A"%string; "B"%string; "C"%string].
Proof.
  intros df.
  assert (Hfin : forallb (fun r => finite_double (Balance r)) (balances df) = true)
    by (vm_compute; reflexivity).
  split; [exact Hfin |].
  destruct (proj2 X15_tab3_is_drawn df Hfin) as [out [Hout Hpage]].
  destruct out as [| total fair_share messages view].
  - discriminate Hpage.
  - exists total, fair_share, messages, view. split; [exact Hout |].
    destruct Hpage as [_ [_ [_ [Hnames _]]]]. exact Hnames.
Defined.

(** ** Two decimals *)

Section TwoDecimals.

Open Scope Z_scope.

Lemma round_half_even_spec (num den : Z) :
  0 < den -> 0 <= num ->
  let c := round_half_even num den in
  0 <= c /\ (2 * c - 1) * den <= 2 * num <= (2 * c + 1) * den.
Proof.
  intros Hden Hnum c. unfold c, round_half_even.
  pose proof (Z.div_mod num den ltac:(lia)) as Hdm.
  pose proof (Z.mod_pos_bound num den Hden) as Hr.
  pose proof (Z.div_pos num den Hnum Hden) as Hq.
  destruct (Z.compare_spec (2 * (num mod den)) den) as [E | E | E].
  - destruct (Z.even (num / den)); nia.
  - nia.
  - nia.
Qed.

Lemma round_half_even_small (num den : Z) :
  0 <= num -> 2 * num < den -> round_half_even num den = 0.
Proof.
  intros Hnum Hsmall. unfold round_half_even.
  rewrite Z.div_small, Z.mod_small by lia.
  destruct (Z.compare_spec (2 * num) den); lia.
Qed.

End TwoDecimals.

(** X16: what the two decimals show.  For every positive finite double,
    the hundredths that [.2f] prints are within half a hundredth of the
    exact value; and a value below half a hundredth is printed as 0.00.
    A payment, a debt or a balance that the page treats as positive can
    therefore appear as 0.00. *)
Theorem X16_two_decimals :
  forall (m : positive) (e : Z),
    let x := S754_finite false m e in
    let c := cents m e in
    format_2f x = hundredths c /\
    (0 <= c)%Z /\
    ((2 * c - 1 # 200) <= F64.to_Q x)%Q /\
    (F64.to_Q x <= (2 * c + 1 # 200))%Q /\
    ((F64.to_Q x < 1 # 200)%Q -> format_2f x = "0.00"%string).
Proof.
  intros m e x c. split; [reflexivity |].
  unfold c, x, cents, F64.to_Q. destruct e as [| p | p].
  - split; [lia |]. split; [| split].
    + unfold Qle, inject_Z. cbn [Qnum Qden]. lia.
    + unfold Qle, inject_Z. cbn [Qnum Qden]. lia.
    + unfold Qlt, inject_Z. cbn [Qnum Qden]. lia.
  - assert (Hpow : (0 < 2 ^ Z.pos p)%Z) by (apply Z.pow_pos_nonneg; lia).
    split; [nia |]. split; [| split].
    + unfold Qle, inject_Z. cbn [Qnum Qden]. nia.
    + unfold Qle, inject_Z. cbn [Qnum Qden]. nia.
    + unfold Qlt, inject_Z. cbn [Qnum Qden]. nia.
  - destruct (round_half_even_spec (num := Z.pos m * 100) (den := Z.pos (2 ^ p)))
      as [Hc [Hlo Hhi]]; [lia | lia |].
    split; [exact Hc |]. split; [| split].
    + unfold Qle. cbn [Qnum Qden]. lia.
    + unfold Qle. cbn [Qnum Qden]. lia.
    + unfold Qlt. cbn [Qnum Qden]. intros Hsmall.
      cbn [format_2f]. unfold cents.
      rewrite round_half_even_small by lia. reflexivity.
Qed.

(** The double nearest to 0.0049 is printed as 0.00. *)
Lemma X16_two_decimals_witness :
  format_2f (F64.dec 49 10000) = "0.00"%string.
Proof.
  assert (E : F64.dec 49 10000 = S754_finite false 5649315372573550 (-60))
    by (vm_compute; reflexivity).
  rewrite E.
  apply (X16_two_decimals 5649315372573550 (-60)). vm_compute. reflexivity.
Defined.

(** ** Tab 3: the side that is settled *)

(** X17: one side is settled within the tolerance, in every arithmetic.
    For every arithmetic with the order law, binary64 among them, and
    every run of the loop that ends: with the suggestions carried out,
    either every participant who owed or every participant who was owed
    is left with a balance that passes the test [abs(balance) < 1e-6] of
    lines 144 and 145. *)
Theorem X17_one_side_is_settled :
  forall (F : Type) (A : Arith F) (O : ArithOrder F) (df : DataFrame F)
         (fuel : nat) (s : loop_state F),
    settle fuel df = Some s ->
    let bs := balances df in
    let adjusted := apply_transfers (st_suggestions s) bs in
    (forall r, In r adjusted -> was_debtor bs r = true ->
               f_ltb (f_abs (Balance r)) lit_1e_6 = true) \/
    (forall r, In r adjusted -> was_creditor bs r = true ->
               f_ltb (f_abs (Balance r)) lit_1e_6 = true).
Proof.
  intros F A O df fuel s Hrun bs adjusted.
  exact (one_side_passed (balances df) (NoDup_labels_balances df) fuel Hrun).
Qed.

(** The amounts 0.9999991, 0.9999991, 3, 3 and 2.0000018 in binary64: the
    loop ends with the debtors used up, and both of them, A and B, are
    within the tolerance with the two suggestions carried out. *)
Lemma X17_one_side_is_settled_witness :
  let df := [entry "A" 9999991 10000000; entry "B" 9999991 10000000;
             entry "C" 3 1; entry "D" 3 1; entry "E" 20000018 10000000] in
  exists s,
    settle 5 df = Some s /\
    ((forall r, In r (apply_transfers (st_suggestions s) (balances df)) ->
                was_debtor (balances df) r = true ->
                F64.ltb (F64.abs (Balance r)) (F64.dec 1 1000000) = true) \/
     (forall r, In r (apply_transfers (st_suggestions s) (balances df)) ->
                was_creditor (balances df) r = true ->
                F64.ltb (F64.abs (Balance r)) (F64.dec 1 1000000) = true)).
Proof.
  intros df.
  destruct (settle 5 df) as [s |] eqn:Hrun; [| vm_compute in Hrun; discriminate].
  exists s. split; [reflexivity |].
  exact (@X17_one_side_is_settled F64.t _ _ df 5 s Hrun).
Defined.

(** ** Tab 3 in binary64: no balance changes sign *)

Section SignsOnDoubles.

Variable bs : list (brow F64.t).
Hypothesis bs_labels : NoDup (map (@label F64.t) bs).
Hypothesis bs_finite : forallb (fun r => finite_double (Balance r)) bs = true.

Let D := length (debtors_of bs).
Let C := length (creditors_of bs).

(** Every row of the frame of the debtors is negative or [+0.0], every
    row of the frame of the creditors positive or [+0.0]. *)
Let signs (s : loop_state F64.t) : Prop :=
  f64_inv D C s /\
  (forall k r, nth_error (st_debtors s) k = Some r ->
               neg_double (Balance r) = true \/ Balance r = S754_zero false) /\
  (forall k r, nth_error (st_creditors s) k = Some r ->
               pos_double (Balance r) = true \/ Balance r = S754_zero false).

Lemma signs_initial : signs (initial_state bs).
Proof.
  pose proof (initial_f64_inv bs bs_labels bs_finite) as Inv. fold D C in Inv.
  split; [exact Inv |]. split; intros k r Hr; left.
  - apply (f64_debtors Inv Hr). cbn. lia.
  - apply (f64_creditors Inv Hr). cbn. lia.
Qed.

Lemma signs_step (s : loop_state F64.t) (d c : brow F64.t) :
  signs s ->
  nth_error (st_debtors s) (st_i s) = Some d ->
  nth_error (st_creditors s) (st_j s) = Some c ->
  signs (loop_body d c s).
Proof.
  intros [Inv [Hsd Hsc]] Hd Hc.
  assert (Hbd : neg_double (Balance d) = true)
    by (apply (f64_debtors Inv Hd); apply Nat.le_refl).
  assert (Hbc : pos_double (Balance c) = true)
    by (apply (f64_creditors Inv Hc); apply Nat.le_refl).
  destruct (pay_spec_F64 _ _ Hbd Hbc) as [_ [Hd' [Hc' _]]].
  split; [apply (f64_inv_step Inv Hd Hc) |].
  rewrite loop_body_debtors, loop_body_creditors.
  split; intros k r Hr; rewrite nth_error_at_update in Hr.
  - destruct (nth_error (st_debtors s) k) as [r0 |] eqn:Er0; [| discriminate].
    cbn [option_map] in Hr.
    destruct (Nat.eqb (label r0) (label d)) eqn:El; injection Hr as <-.
    + apply Nat.eqb_eq in El.
      assert (r0 = d).
      { apply (same_label_same_row (st_debtors s)); auto.
        - apply (f64_nodup_d Inv).
        - now apply nth_error_In with k.
        - now apply nth_error_In with (st_i s). }
      subst r0. cbn [set_Balance Balance]. exact Hd'.
    + apply (Hsd k r0 Er0).
  - destruct (nth_error (st_creditors s) k) as [r0 |] eqn:Er0; [| discriminate].
    cbn [option_map] in Hr.
    destruct (Nat.eqb (label r0) (label c)) eqn:El; injection Hr as <-.
    + apply Nat.eqb_eq in El.
      assert (r0 = c).
      { apply (same_label_same_row (st_creditors s)); auto.
        - apply (f64_nodup_c Inv).
        - now apply nth_error_In with k.
        - now apply nth_error_In with (st_j s). }
      subst r0. cbn [set_Balance Balance]. exact Hc'.
    + apply (Hsc k r0 Er0).
Qed.

Lemma signs_result (fuel : nat) (s : loop_state F64.t) (r : brow F64.t) :
  settle_loop fuel (initial_state bs) = Some s ->
  In r (apply_transfers (st_suggestions s) bs) ->
  (was_debtor bs r = true ->
   neg_double (Balance r) = true \/ Balance r = S754_zero false) /\
  (was_creditor bs r = true ->
   pos_double (Balance r) = true \/ Balance r = S754_zero false) /\
  (was_settled bs r = true -> In r bs).
Proof.
  intros Hrun Hin.
  assert (H : signs s).
  { apply (settle_loop_invariant signs) with (fuel := fuel) (s := initial_state bs);
      [| apply signs_initial | exact Hrun].
    intros s0 d c. apply signs_step. }
  destruct H as [_ [Hsd Hsc]].
  destruct (frames_applied_result bs bs_labels fuel Hrun) as [Hfd [Hfc Hfs]].
  split; [| split]; intros Hwas.
  - assert (Hr : In r (st_debtors s)) by (rewrite <- Hfd; apply filter_In; auto).
    apply In_nth_error in Hr. destruct Hr as [k Hk]. exact (Hsd k r Hk).
  - assert (Hr : In r (st_creditors s)) by (rewrite <- Hfc; apply filter_In; auto).
    apply In_nth_error in Hr. destruct Hr as [k Hk]. exact (Hsc k r Hk).
  - assert (Hr : In r (filter (was_settled bs) bs))
      by (rewrite <- Hfs; apply filter_In; auto).
    apply filter_In in Hr. apply Hr.
Qed.

End SignsOnDoubles.

(** X18: in binary64 no balance changes sign.  On every table whose
    balances are finite doubles and for every run of the loop that ends:
    with the suggestions carried out, a participant who owed has a
    negative balance or [+0.0], a participant who was owed has a positive
    balance or [+0.0], and the row of a participant who was neither is a
    row of the balances, untouched. *)
Theorem X18_signs_are_kept_in_binary64 :
  forall (df : DataFrame F64.t) (fuel : nat) (s : loop_state F64.t)
         (r : brow F64.t),
    forallb (fun r => finite_double (Balance r)) (balances df) = true ->
    settle fuel df = Some s ->
    In r (apply_transfers (st_suggestions s) (balances df)) ->
    (was_debtor (balances df) r = true ->
     neg_double (Balance r) = true \/ Balance r = S754_zero false) /\
    (was_creditor (balances df) r = true ->
     pos_double (Balance r) = true \/ Balance r = S754_zero false) /\
    (was_settled (balances df) r = true -> In r (balances df)).
Proof.
  intros df fuel s r Hfin Hrun Hin.
  exact (signs_result (balances df) (NoDup_labels_balances df) Hfin fuel r Hrun Hin).
Qed.

(** The amounts 55, 45, 0 and 0: C, who owed 25, is left with [+0.0]. *)
Lemma X18_signs_are_kept_in_binary64_witness :
  let df := [entry "A" 55 1; entry "B" 45 1; entry "C" 0 1; entry "D" 0 1] in
  exists s r,
    settle 4 df = Some s /\
    nth_error (apply_transfers (st_suggestions s) (balances df)) 2 = Some r /\
    was_debtor (balances df) r = true /\
    (neg_double (Balance r) = true \/ Balance r = S754_zero false).
Proof.
  intros df.
  destruct (settle 4 df) as [s |] eqn:Hrun; [| vm_compute in Hrun; discriminate].
  destruct (nth_error (apply_transfers (st_suggestions s) (balances df)) 2)
    as [r |] eqn:Hr.
  - exists s, r. split; [reflexivity |]. split; [exact Hr |].
    assert (Hfin : forallb (fun r => finite_double (Balance r)) (balances df) = true)
      by (vm_compute; reflexivity).
    assert (Hwas : was_debtor (balances df) r = true).
    { vm_compute in Hrun. injection Hrun as <-. vm_compute in Hr.
      injection Hr as <-. vm_compute. reflexivity. }
    split; [exact Hwas |].
    exact (proj1 (@X18_signs_are_kept_in_binary64 df 4 s r Hfin Hrun
                    (nth_error_In _ _ Hr)) Hwas).
  - exfalso. apply nth_error_None in Hr.
    assert (Hlen : length (apply_transfers (st_suggestions s) (balances df)) = 4).
    { rewrite <- (length_map label), labels_apply_transfers, length_map. reflexivity. }
    lia.
Defined.

(** ** A run of the script, tab by tab *)

Section RunByTab.

Context {F : Type} {A : Arith F}.

Variable csv : Type.
Variable to_csv : DataFrame F -> csv.
Variable read_csv : csv -> DataFrame F.

(** The fields of the result that do not depend on the message of tab 2. *)
Lemma run_messages (w : widgets F) (session : option (DataFrame F))
    (file : option csv) :
  let df0 := match session with
             | Some df => df
             | None => load_expenses read_csv file
             end in
  let df1 := fst (tab1_add (w_add_btn w) (w_new_participant w) df0) in
  let r := run to_csv read_csv w session file in
  r_tab1 r = snd (tab1_add (w_add_btn w) (w_new_participant w) df0) /\
  r_saved_changes r = w_save_btn w /\
  r_tab2 r = snd (tab2 (w_expense_btn w) (w_amount w) (w_split_type w)
                    (w_share_input w) df1).
Proof.
  intros df0 df1 r. unfold r, run. fold df0. fold df1.
  destruct (snd (tab2 (w_expense_btn w) (w_amount w) (w_split_type w)
                   (w_share_input w) df1)) as [[ | | | ] |];
    cbn [r_tab1 r_saved_changes r_tab2]; auto.
Qed.

Lemma run_tab3_table (w : widgets F) (session : option (DataFrame F))
    (file : option csv) :
  let df0 := match session with
             | Some df => df
             | None => load_expenses read_csv file
             end in
  let df1 := fst (tab1_add (w_add_btn w) (w_new_participant w) df0) in
  let df2 := fst (tab2 (w_expense_btn w) (w_amount w) (w_split_type w)
                    (w_share_input w) df1) in
  let r := run to_csv read_csv w session file in
  (r_tab2 r = Some Tab2_percentages_must_sum /\ r_tab3_table r = None) \/
  (r_tab2 r <> Some Tab2_percentages_must_sum /\ r_tab3_table r = Some df2).
Proof.
  intros df0 df1 df2 r. unfold r, run. fold df0. fold df1. fold df2.
  destruct (snd (tab2 (w_expense_btn w) (w_amount w) (w_split_type w)
                   (w_share_input w) df1)) as [[ | | | ] |];
    cbn [r_tab2 r_tab3_table];
    solve [left; split; reflexivity | right; split; [discriminate | reflexivity]].
Qed.

End RunByTab.

(** X19: a run in which no button is pressed writes nothing.  Streamlit
    runs the script again at every interaction with a widget; whatever the
    text field, the editor and the widgets of tab 2 hold, a run in which
    none of the three buttons is pressed leaves the file as it is, keeps
    the table of the session (the one read from the file when the session
    is fresh), shows no message in tab 1 and draws tab 3 from that
    table. *)
Theorem X19_idle_run_changes_nothing :
  forall (F : Type) (A : Arith F) (csv : Type) (to_csv : DataFrame F -> csv)
         (read_csv : csv -> DataFrame F) (w : widgets F)
         (session : option (DataFrame F)) (file : option csv),
    w_add_btn w = false ->
    w_save_btn w = false ->
    w_expense_btn w = false ->
    let table := match session with
                 | Some df => df
                 | None => load_expenses read_csv file
                 end in
    let r := run to_csv read_csv w session file in
    r_file r = file /\
    r_session r = Some table /\
    r_tab1 r = Tab1_silent /\
    r_saved_changes r = false /\
    r_tab3_table r = Some table /\
    (r_tab2 r = None \/ (table = [] /\ r_tab2 r = Some Tab2_add_participants_first)).
Proof.
  intros F A csv to_csv read_csv w session file Hadd Hsave Hexp table r.
  unfold r, run. fold table. rewrite Hadd, Hsave, Hexp.
  unfold tab1_add. cbn [andb fst snd]. unfold tab2.
  destruct table as [| r0 table']; cbn [fst snd r_file r_session r_tab1
                                          r_saved_changes r_tab3_table r_tab2].
  - repeat split. right. split; reflexivity.
  - repeat split. left. reflexivity.
Qed.

Lemma X19_idle_run_changes_nothing_witness :
  let w : widgets F64.t :=
    {| w_new_participant := "A"; w_add_btn := false;
       w_data_editor := fun df => []; w_save_btn := false;
       w_amount := F64.of_Z 90; w_split_type := Equal;
       w_share_input := fun _ => F64.of_Z 0; w_expense_btn := false |} in
  let table := [entry "A" 100 1; entry "B" 0 1] in
  let r := run (fun df => df) (fun content => content) w (Some table) None in
  r_file r = None /\ r_session r = Some table /\ r_tab3_table r = Some table.
Proof.
  intros w table r.
  destruct (@X19_idle_run_changes_nothing F64.t _ (DataFrame F64.t)
              (fun df => df) (fun content => content) w (Some table) None
              eq_refl eq_refl eq_refl) as [Hf [Hs [_ [_ [Ht _]]]]].
  split; [exact Hf |]. split; [exact Hs | exact Ht].
Defined.

(** X20: what tab 3 is drawn from.  In every run, tab 3 is left out
    exactly when tab 2 stops the script with the error of the percentages
    ([st.stop()], line 98); otherwise it is drawn from the table as "Add"
    of tab 1 and tab 2 left it, whatever the editor returned.  When "Save
    Changes" is pressed and tab 2 adds no expense, the session state and
    the file hold the edited table: the edits reach tab 2 and tab 3 only
    in the next run. *)
Theorem X20_what_tab3_is_drawn_from :
  forall (F : Type) (A : Arith F) (csv : Type) (to_csv : DataFrame F -> csv)
         (read_csv : csv -> DataFrame F) (w : widgets F)
         (session : option (DataFrame F)) (file : option csv),
    let df0 := match session with
               | Some df => df
               | None => load_expenses read_csv file
               end in
    let df1 := fst (tab1_add (w_add_btn w) (w_new_participant w) df0) in
    let df2 := fst (tab2 (w_expense_btn w) (w_amount w) (w_split_type w)
                      (w_share_input w) df1) in
    let r := run to_csv read_csv w session file in
    (r_tab3_table r = None <-> r_tab2 r = Some Tab2_percentages_must_sum) /\
    (r_tab2 r <> Some Tab2_percentages_must_sum -> r_tab3_table r = Some df2) /\
    (r_tab2 r = Some Tab2_percentages_must_sum -> df2 = df1) /\
    (w_save_btn w = true -> r_tab2 r <> Some Tab2_paid ->
     r_session r = Some (w_data_editor w df1) /\
     r_file r = Some (to_csv (w_data_editor w df1))).
Proof.
  intros F A csv to_csv read_csv w session file df0 df1 df2 r.
  destruct (run_messages to_csv read_csv w session file) as [_ [_ Hm2]].
  fold df0 df1 r in Hm2.
  assert (Hsaved : w_save_btn w = true -> r_tab2 r <> Some Tab2_paid ->
                   r_session r = Some (w_data_editor w df1) /\
                   r_file r = Some (to_csv (w_data_editor w df1))).
  { intros Hs. unfold r, run. fold df0. fold df1. fold df2.
    destruct (snd (tab2 (w_expense_btn w) (w_amount w) (w_split_type w)
                     (w_share_input w) df1)) as [[ | | | ] |];
      cbn [r_session r_file r_tab2]; intros Hp; rewrite ?Hs;
      try (split; reflexivity); congruence. }
  destruct (run_tab3_table to_csv read_csv w session file) as [[Hm Ht] | [Hm Ht]];
    fold df0 df1 df2 r in Hm, Ht.
  - split; [split; auto |]. split; [contradiction |]. split; [| exact Hsaved].
    intros _. unfold df2. apply tab2_unchanged. rewrite <- Hm2, Hm. discriminate.
  - split; [split; [congruence | contradiction] |].
    split; [intros _; exact Ht |]. split; [contradiction | exact Hsaved].
Qed.

(** The editor returns the empty table and "Save Changes" is pressed: the
    session state and the file hold the empty table, and tab 3 is drawn
    from the table with A and B. *)
Lemma X20_what_tab3_is_drawn_from_witness :
  let w : widgets F64.t :=
    {| w_new_participant := "A"; w_add_btn := false;
       w_data_editor := fun df => []; w_save_btn := true;
       w_amount := F64.of_Z 90; w_split_type := Equal;
       w_share_input := fun _ => F64.of_Z 0; w_expense_btn := false |} in
  let table := [entry "A" 100 1; entry "B" 0 1] in
  let r := run (fun df => df) (fun content => content) w (Some table) None in
  r_session r = Some [] /\ r_file r = Some [] /\ r_tab3_table r = Some table.
Proof.
  intros w table r.
  destruct (@X20_what_tab3_is_drawn_from F64.t _ (DataFrame F64.t)
              (fun df => df) (fun content => content) w (Some table) None)
    as [_ [Ht [_ Hs]]].
  destruct (Hs eq_refl) as [H1 H2]; [discriminate |].
  split; [exact H1 |]. split; [exact H2 |].
  apply Ht. discriminate.
Defined.
